(** * Tracker routes of the WerTigo express backend

    A shallow embedding of [routes/trackers.js] (with the part of
    [utils/emailService.js] and [prisma/schema.prisma] it relies on) and the
    properties of tracker issuance and access control proved about it.

    Conventions.  Handlers are programs in a small state-and-exception
    monad over a [World]: the two tables the routes touch, the mail
    transport's record of attempts, the console, and the number of clock
    readings and random draws consumed so far.  What the process cannot
    decide by itself (the clock, [Math.random], the mail transport, and the
    third-party validators) is read from an [Env].  Storage is taken to be
    available: a storage call fails only for a reason its arguments and the
    stored rows determine (an invalid date argument, a duplicate key, a
    missing row, a counter that would leave its column's range). *)

From Stdlib Require Import ZArith String Ascii List Lia Bool.
From stdpp Require Import base option list gmap strings sorting.

Local Open Scope string_scope.
Local Open Scope Z_scope.

(** ** JavaScript strings and values *)

Module Js.

(** A request field as the handlers see it: a missing key, [null], or a
    string.  Numbers, booleans, arrays and objects are outside the model. *)
Inductive value :=
| Undefined
| Null
| Str (s : string).

(** [if (v)]: of the values above only a non-empty string is truthy. *)
Definition truthy (v : value) : bool :=
  match v with
  | Str s => negb (String.eqb s "")
  | _ => false
  end.

(** [v || null] for an optional text column. *)
Definition or_null (v : value) : option string :=
  match v with
  | Str s => if String.eqb s "" then None else Some s
  | _ => None
  end.

(** [stored !== v] against a stored string. *)
Definition strict_ne (stored : string) (v : value) : bool :=
  match v with
  | Str s => negb (String.eqb stored s)
  | _ => true
  end.

(** A [Date] object: a time value in milliseconds, or Invalid Date. *)
Inductive Date :=
| ValidDate (ms : Z)
| InvalidDate.

Definition chars (s : string) : list ascii := list_ascii_of_string s.
Definition of_chars (l : list ascii) : string := string_of_list_ascii l.

(** [s.substring(a, b)] for [a <= b]: the characters at indices
    [a .. b-1] that exist. *)
Definition substring (a b : nat) (s : string) : string :=
  of_chars (take (b - a) (drop a (chars s))).

(** [s.slice(-k)]: the last [k] characters, the whole string when it is
    shorter. *)
Definition slice_last (k : nat) (s : string) : string :=
  of_chars (drop (length (chars s) - k) (chars s)).

Definition upper (c : ascii) : ascii :=
  let n := nat_of_ascii c in
  if (97 <=? n)%nat && (n <=? 122)%nat then ascii_of_nat (n - 32) else c.

(** [s.toUpperCase()] on ASCII text. *)
Definition toUpperCase (s : string) : string :=
  of_chars (map upper (chars s)).

(** The character of a digit value below 36, lowercase as
    [Number.prototype.toString(36)] prints it. *)
Definition digit36 (d : nat) : ascii :=
  let d := (d mod 36)%nat in
  if (d <? 10)%nat then ascii_of_nat (48 + d) else ascii_of_nat (87 + d).

(** [x.toString(36)] for [0 <= x < 1], from the digits of the fraction in
    base 36: ["0"] for zero, otherwise ["0."] followed by the digits. *)
Definition fraction_toString36 (ds : list nat) : string :=
  match ds with
  | [] => "0"
  | _ => "0." +:+ of_chars (map digit36 ds)
  end.

Definition digit10 (n : Z) : ascii :=
  ascii_of_nat (48 + Z.to_nat (n mod 10)).

(** Decimal digits of a non-negative integer, least significant first. *)
Fixpoint dec_rev (fuel : nat) (n : Z) : list ascii :=
  match fuel with
  | O => []
  | S fuel' =>
      digit10 n :: (if n / 10 =? 0 then [] else dec_rev fuel' (n / 10))
  end.

(** [n.toString()] for an integer. *)
Definition Z_toString (n : Z) : string :=
  let a := Z.abs n in
  let ds := reverse (dec_rev (S (Z.to_nat (Z.log2 a))) a) in
  of_chars (if n <? 0 then "-"%char :: ds else ds).

Definition is_digit (c : ascii) : Prop :=
  (48 <= nat_of_ascii c <= 57)%nat.

(** [0-9] or [A-Z]. *)
Definition is_upper_alnum (c : ascii) : Prop :=
  (48 <= nat_of_ascii c <= 57)%nat \/ (65 <= nat_of_ascii c <= 90)%nat.

End Js.

(** ** Persistent data ([prisma/schema.prisma]) *)

(** [model Trip]: the columns the tracker routes read or write. *)
Record Trip := mkTrip {
  trip_id : string;
  tripName : option string;
  destination : option string;
  startDate : option Z;
  trip_updatedAt : Z
}.

(** [model TripTracker].  [accessCount] is an [Int] column: the store
    refuses a write that would take it out of the 32-bit range (see
    [tripTracker_update]).  Text columns have no length limit here (the
    widths of the text columns are not part of the model), and the id
    sequence is taken not to run out. *)
Record Tracker := mkTracker {
  tracker_pk : Z;
  trackerId : string;
  tripId : string;
  email : string;
  travelerName : option string;
  phone : option string;
  saveDate : option Z;
  isActive : bool;
  accessCount : Z;
  lastAccessed : option Z;
  expiresAt : option Z;
  createdAt : Z;
  updatedAt : Z
}.

(** ** The world a request runs in *)

Inductive Level := LOG | WARN | ERROR.

(** A message handed to the mail transport: recipient and the tracker id
    it announces. *)
Record Mail := mkMail {
  mail_to : string;
  mail_trackerId : string
}.

Record World := mkWorld {
  trips : gmap string Trip;
  trackers : gmap string Tracker;      (* keyed by the unique trackerId *)
  nextPk : Z;                          (* autoincrement of TripTracker.id *)
  sent : list Mail;                    (* every sendMail attempt, in order *)
  console : list (Level * string);
  tick : nat;                          (* clock readings taken so far *)
  draws : nat                          (* Math.random draws taken so far *)
}.

(** What the process reads from outside.  The store's own time stamps
    ([@default(now())], [@updatedAt]) are readings of the same clock. *)
Record Env := mkEnv {
  clock : nat -> Z;                    (* successive readings, in ms *)
  random36 : nat -> list nat;          (* base-36 fraction digits of successive draws *)
  smtp : nat -> option string;         (* k-th sendMail: a message id, or a failure *)
  isEmail : string -> bool;            (* validator.js *)
  normalizeEmail : string -> string;   (* validator.js *)
  isISO8601 : string -> bool;          (* validator.js *)
  parseDate : string -> option Z       (* Date parsing; None is Invalid Date *)
}.

Inductive Exn :=
| JsError (msg : string)               (* throw new Error(msg) *)
| TypeError                            (* property access on null *)
| PrismaValidationError                (* an argument the client rejects *)
| PrismaUniqueConstraint               (* P2002 *)
| PrismaRecordNotFound                 (* P2025 *)
| PrismaValueOutOfRange                (* a result the column cannot hold *)
| TransportError.

Inductive Result (A : Type) :=
| Ok (a : A)
| Throw (e : Exn).

Arguments Ok {A} a.
Arguments Throw {A} e.

(** State persists through an exception: what a storage call wrote before
    a later call threw stays written. *)
Definition M (A : Type) : Type := World -> Result A * World.

Definition ret {A} (a : A) : M A := fun w => (Ok a, w).

Definition bind {A B} (c : M A) (k : A -> M B) : M B :=
  fun w => match c w with
           | (Ok a, w') => k a w'
           | (Throw e, w') => (Throw e, w')
           end.

Definition throw {A} (e : Exn) : M A := fun w => (Throw e, w).

(** [try { c } catch (e) { h e }] *)
Definition try_catch {A} (c : M A) (h : Exn -> M A) : M A :=
  fun w => match c w with
           | (Ok a, w') => (Ok a, w')
           | (Throw e, w') => h e w'
           end.

Notation "'let*' x ':=' c 'in' k" := (bind c (fun x => k))
  (at level 10, x pattern, c at level 100, k at level 200).

Definition set_trips (f : gmap string Trip) (w : World) : World :=
  mkWorld f (trackers w) (nextPk w) (sent w) (console w) (tick w) (draws w).

Definition set_trackers (f : gmap string Tracker) (w : World) : World :=
  mkWorld (trips w) f (nextPk w) (sent w) (console w) (tick w) (draws w).

Definition console_write (l : Level) (msg : string) : M unit :=
  fun w => (Ok tt,
            mkWorld (trips w) (trackers w) (nextPk w) (sent w)
                    (console w ++ [(l, msg)]) (tick w) (draws w)).

(** The world after [t] more clock readings and [d] more random draws. *)
Definition advance (t d : nat) (w : World) : World :=
  mkWorld (trips w) (trackers w) (nextPk w) (sent w) (console w)
          (t + tick w) (d + draws w).

Section Routes.

Variable env : Env.

(** [Date.now()] and [new Date()]: the next clock reading. *)
Definition now : M Z :=
  fun w => (Ok (clock env (tick w)), advance 1 0 w).

(** [Math.random().toString(36)] *)
Definition random_toString36 : M string :=
  fun w => (Ok (Js.fraction_toString36 (random36 env (draws w))),
            advance 0 1 w).

(** [new Date(s)] *)
Definition new_Date (s : string) : Js.Date :=
  match parseDate env s with
  | Some ms => Js.ValidDate ms
  | None => Js.InvalidDate
  end.

(** *** Storage calls (Prisma client) *)

Definition trip_findUnique (id : string) : M (option Trip) :=
  fun w => (Ok (trips w !! id), w).

(** [prisma.trip.update({ where: { id }, data: { startDate } })]; the
    [@updatedAt] column is refreshed by the write. *)
Definition trip_update_startDate (id : string) (d : Js.Date) : M Trip :=
  match d with
  | Js.InvalidDate => throw PrismaValidationError
  | Js.ValidDate ms =>
      fun w => match trips w !! id with
               | None => (Throw PrismaRecordNotFound, w)
               | Some t =>
                   match now w with
                   | (Ok stamp, w1) =>
                       let t' := mkTrip (trip_id t) (tripName t) (destination t)
                                        (Some ms) stamp in
                       (Ok t', set_trips (<[id := t']> (trips w1)) w1)
                   | (Throw e, w1) => (Throw e, w1)
                   end
               end
  end.

Definition tripTracker_findUnique (tid : string) : M (option Tracker) :=
  fun w => (Ok (trackers w !! tid), w).

(** The [data] of [prisma.tripTracker.create]. *)
Record TrackerData := mkTrackerData {
  d_trackerId : string;
  d_tripId : string;
  d_email : string;
  d_travelerName : option string;
  d_phone : option string;
  d_saveDate : Js.Date;
  d_expiresAt : option Js.Date
}.

Definition date_column (d : Js.Date) : option Z :=
  match d with
  | Js.ValidDate ms => Some ms
  | Js.InvalidDate => None
  end.

Definition date_ok (d : Js.Date) : bool :=
  match d with
  | Js.ValidDate _ => true
  | Js.InvalidDate => false
  end.

Definition opt_date_ok (d : option Js.Date) : bool :=
  match d with
  | Some d => date_ok d
  | None => true
  end.

(** [prisma.tripTracker.create({ data })]: an Invalid Date argument is
    rejected, a second row with the same [trackerId] violates the unique
    index, otherwise the row is inserted with the schema's defaults. *)
Definition tripTracker_create (d : TrackerData) : M Tracker :=
  fun w =>
    if negb (date_ok (d_saveDate d) && opt_date_ok (d_expiresAt d))
    then (Throw PrismaValidationError, w)
    else match trackers w !! d_trackerId d with
         | Some _ => (Throw PrismaUniqueConstraint, w)
         | None =>
             match now w with
             | (Ok stamp, w1) =>
                 let row := mkTracker (nextPk w1) (d_trackerId d) (d_tripId d)
                              (d_email d) (d_travelerName d) (d_phone d)
                              (date_column (d_saveDate d)) true 0 None
                              (d_expiresAt d ≫= date_column) stamp stamp in
                 (Ok row,
                  mkWorld (trips w1) (<[d_trackerId d := row]> (trackers w1))
                          (nextPk w1 + 1) (sent w1) (console w1) (tick w1)
                          (draws w1))
             | (Throw e, w1) => (Throw e, w1)
             end
         end.

(** The [data] of [prisma.tripTracker.update]: a column is written only
    when its key is present. *)
Record UpdateData := mkUpdateData {
  u_travelerName : option (option string);
  u_phone : option (option string);
  u_expiresAt : option (option Js.Date);
  u_isActive : option bool;
  u_accessCount_increment : option Z;
  u_lastAccessed : option Js.Date
}.

Definition update_is_empty (u : UpdateData) : bool :=
  match u with
  | mkUpdateData None None None None None None => true
  | _ => false
  end.

Definition update_dates_ok (u : UpdateData) : bool :=
  match u_expiresAt u with
  | Some d => opt_date_ok d
  | None => true
  end && opt_date_ok (u_lastAccessed u).

(** The row after a write the store accepts; [accessCount: { increment: k }]
    adds to the value the row holds at the time of the write. *)
Definition apply_update (u : UpdateData) (stamp : Z) (t : Tracker) : Tracker :=
  mkTracker (tracker_pk t) (trackerId t) (tripId t) (email t)
    (default (travelerName t) (u_travelerName u))
    (default (phone t) (u_phone u))
    (saveDate t)
    (default (isActive t) (u_isActive u))
    (accessCount t + default 0 (u_accessCount_increment u))
    (match u_lastAccessed u with
     | Some d => date_column d
     | None => lastAccessed t
     end)
    (match u_expiresAt u with
     | Some d => d ≫= date_column
     | None => expiresAt t
     end)
    (createdAt t)
    stamp.

(** The values an [Int] column holds (a 32-bit [integer] of the
    datasource). *)
Definition INT_MAX : Z := 2147483647.

Definition int_ok (n : Z) : bool := (- INT_MAX - 1 <=? n) && (n <=? INT_MAX).

Arguments int_ok : simpl never.

(** Whether the store can carry out [accessCount: { increment: k }] on
    the row: the sum must fit the column. *)
Definition increment_ok (u : UpdateData) (t : Tracker) : bool :=
  match u_accessCount_increment u with
  | Some k => int_ok (accessCount t + k)
  | None => true
  end.

(** [prisma.tripTracker.update({ where: { trackerId }, data })].  A write
    with at least one column also refreshes [@updatedAt]; an empty [data]
    writes nothing; an increment that overflows the column is refused and
    the row stays as it was. *)
Definition tripTracker_update (tid : string) (u : UpdateData) : M Tracker :=
  fun w =>
    if negb (update_dates_ok u) then (Throw PrismaValidationError, w)
    else match trackers w !! tid with
         | None => (Throw PrismaRecordNotFound, w)
         | Some t =>
             if update_is_empty u then (Ok t, w)
             else match now w with
                  | (Ok stamp, w1) =>
                      if negb (increment_ok u t)
                      then (Throw PrismaValueOutOfRange, w1)
                      else
                        let t' := apply_update u stamp t in
                        (Ok t', set_trackers (<[tid := t']> (trackers w1)) w1)
                  | (Throw e, w1) => (Throw e, w1)
                  end
         end.

(** *** Request validation (express-validator) *)

(** The string a standard validator is run on. *)
Definition toString (v : Js.value) : string :=
  match v with
  | Js.Str s => s
  | _ => ""
  end.

Definition notEmpty (v : Js.value) : bool :=
  negb (String.eqb (toString v) "").

(** [isLength({ min, max })]; the length is that of the Rocq string,
    which is the JavaScript length on ASCII text. *)
Definition isLength (min max : nat) (v : Js.value) : bool :=
  (min <=? String.length (toString v))%nat
  && (String.length (toString v) <=? max)%nat.

(** [.optional()] with its default options: the chain is skipped only
    for a field that is [undefined]. *)
Definition optional (check : Js.value -> bool) (v : Js.value) : bool :=
  match v with
  | Js.Undefined => true
  | _ => check v
  end.

(** The body of [POST /]. *)
Record CreateBody := mkCreateBody {
  c_tripId : Js.value;
  c_email : Js.value;
  c_travelerName : Js.value;
  c_phone : Js.value;
  c_saveDate : Js.value;
  c_startDate : Js.value;
  c_expiresAt : Js.value
}.

Definition createTrackerValidation (b : CreateBody) : bool :=
  (notEmpty (c_tripId b) && isLength 0 36 (c_tripId b))
  && isEmail env (toString (c_email b))
  && optional (isLength 2 255) (c_travelerName b)
  && optional (isLength 0 50) (c_phone b)
  && optional (fun v => isISO8601 env (toString v)) (c_saveDate b)
  && optional (fun v => isISO8601 env (toString v)) (c_startDate b).

(** The body of [PUT /:trackerId]. *)
Record UpdateBody := mkUpdateBody {
  p_travelerName : Js.value;
  p_phone : Js.value;
  p_expiresAt : Js.value
}.

Definition updateTrackerValidation (b : UpdateBody) : bool :=
  optional (isLength 2 255) (p_travelerName b)
  && optional (isLength 0 50) (p_phone b)
  && optional (fun v => isISO8601 env (toString v)) (p_expiresAt b).

(** *** Responses *)

Inductive Payload :=
| ErrorBody (error message : string)
| CreatedBody (tracker : Tracker) (tripName destination : option string)
| TripBody (trip : Trip) (tracker : Tracker) (access_count : Z)
| UpdatedBody (tracker : Tracker)
| MessageBody (message : string)
| ValidBody (tid : string) (tripName destination : option string)
| InvalidBody (reason : string).

Record Response := mkResponse {
  status : Z;
  payload : Payload
}.

(** The reasons for which [GET /:trackerId] refuses, and the response
    each one is. *)
Inductive Denial := NotFound | Inactive | Expired | EmailMismatch.

Definition deny (r : Denial) : Response :=
  match r with
  | NotFound =>
      mkResponse 404 (ErrorBody "Tracker not found"
                        "The specified trip tracker could not be found")
  | Inactive =>
      mkResponse 410 (ErrorBody "Tracker inactive"
                        "This trip tracker has been deactivated")
  | Expired =>
      mkResponse 410 (ErrorBody "Tracker expired"
                        "This trip tracker has expired")
  | EmailMismatch =>
      mkResponse 403 (ErrorBody "Access denied"
                        "Invalid email for this tracker")
  end.

(** *** Identifier generator *)

Definition generateTrackerId : M string :=
  let prefix := "TRK" in
  let* r := random_toString36 in
  let randomPart := Js.toUpperCase (Js.substring 2 8 r) in
  let* t := now in
  let timestamp := Js.slice_last 4 (Js.Z_toString t) in
  ret (prefix +:+ randomPart +:+ timestamp).

Definition ExhaustedAttempts : Exn :=
  JsError "Unable to generate unique tracker ID after multiple attempts".

(** The loop [for (attempt = 0; attempt < maxAttempts; attempt++)], by
    recursion on the attempts that remain. *)
Fixpoint ensureUniqueTrackerId (maxAttempts : nat) : M string :=
  match maxAttempts with
  | O => throw ExhaustedAttempts
  | S remaining =>
      let* trackerId := generateTrackerId in
      let* existing := tripTracker_findUnique trackerId in
      match existing with
      | None => ret trackerId
      | Some _ => ensureUniqueTrackerId remaining
      end
  end.

(** *** Notification dispatcher ([utils/emailService.js]) *)

Inductive EmailResult :=
| EmailSent (messageId : string)       (* { success: true, messageId } *)
| EmailFailed.                         (* { success: false, error } *)

Definition success (r : EmailResult) : bool :=
  match r with
  | EmailSent _ => true
  | EmailFailed => false
  end.

(** [transporter.sendMail(mailOptions)]: the attempt is recorded, its
    outcome is the transport's. *)
Definition sendMail (m : Mail) : M string :=
  fun w =>
    let w' := mkWorld (trips w) (trackers w) (nextPk w) (sent w ++ [m])
                      (console w) (tick w) (draws w) in
    match smtp env (length (sent w)) with
    | Some messageId => (Ok messageId, w')
    | None => (Throw TransportError, w')
    end.

Definition createTransporter : M unit :=
  console_write LOG "Setting up email transporter with:".

Definition sendTripTrackerEmail (to tid : string) : M EmailResult :=
  try_catch
    (let* _ := createTransporter in
     let* messageId := sendMail (mkMail to tid) in
     let* _ := console_write LOG "Trip tracker email sent successfully:" in
     ret (EmailSent messageId))
    (fun _ =>
     let* _ := console_write ERROR "Error sending trip tracker email:" in
     ret EmailFailed).

(** *** Route handlers ([routes/trackers.js]) *)

(** A [where] or [data] argument that must be a string. *)
Definition string_arg (v : Js.value) : M string :=
  match v with
  | Js.Str s => ret s
  | _ => throw PrismaValidationError
  end.

(** [body('email') ... .normalizeEmail()] rewrites the field in place. *)
Definition sanitized_email (b : CreateBody) : Js.value :=
  match c_email b with
  | Js.Str s => Js.Str (normalizeEmail env s)
  | v => v
  end.

(** The notification dispatcher as the create route uses it: recipient
    and tracker id in, a result out. *)
Definition Dispatcher : Type := string -> string -> M EmailResult.

(** [saveDate ? new Date(saveDate) : new Date()] *)
Definition saveDate_of (v : Js.value) : M Js.Date :=
  if Js.truthy v then ret (new_Date (toString v))
  else let* t := now in ret (Js.ValidDate t).

(** [expiresAt ? new Date(expiresAt) : null] *)
Definition expiresAt_of (v : Js.value) : option Js.Date :=
  if Js.truthy v then Some (new_Date (toString v)) else None.

(** "Update trip start date if provided", otherwise "set to today's date
    by default". *)
Definition update_startDate (tripId : string) (startDate : Js.value) : M Trip :=
  if Js.truthy startDate
  then trip_update_startDate tripId (new_Date (toString startDate))
  else let* t := now in trip_update_startDate tripId (Js.ValidDate t).

(** "Send confirmation email": the inner [try]/[catch].  Reading
    [tripWithDestinations.tripName] off [null] throws inside the [try]. *)
Definition send_confirmation (send : Dispatcher) (email trackerId : string)
    (tripWithDestinations : option Trip) : M unit :=
  try_catch
    (match tripWithDestinations with
     | None => throw TypeError
     | Some _ =>
         let* emailResult := send email trackerId in
         if success emailResult
         then console_write LOG "Trip tracker email sent successfully to"
         else console_write WARN "Failed to send trip tracker email to"
     end)
    (fun _ => console_write ERROR "Error sending trip tracker email:").

(** [router.post('/')], for any dispatcher. *)
Definition post_tracker_with (send : Dispatcher) (b : CreateBody) : M Response :=
  try_catch
    (if negb (createTrackerValidation b)
     then ret (mkResponse 400 (ErrorBody "Validation failed"
                                 "Please check your input"))
     else
       let email := sanitized_email b in
       let* tripId := string_arg (c_tripId b) in
       let* trip := trip_findUnique tripId in
       match trip with
       | None =>
           ret (mkResponse 404 (ErrorBody "Trip not found"
                                  "The specified trip could not be found"))
       | Some trip =>
           let* trackerId := ensureUniqueTrackerId 10 in
           let* saveDate := saveDate_of (c_saveDate b) in
           let expiresAt := expiresAt_of (c_expiresAt b) in
           let* _ := update_startDate tripId (c_startDate b) in
           let* email := string_arg email in
           let* tracker :=
             tripTracker_create
               (mkTrackerData trackerId tripId email
                  (Js.or_null (c_travelerName b)) (Js.or_null (c_phone b))
                  saveDate expiresAt) in
           let* tripWithDestinations := trip_findUnique tripId in
           let* _ :=
             send_confirmation send email trackerId tripWithDestinations in
           ret (mkResponse 201
                  (CreatedBody tracker (tripName trip) (destination trip)))
       end)
    (fun _ =>
     let* _ := console_write ERROR "Create tracker error:" in
     ret (mkResponse 500 (ErrorBody "Failed to create tracker"
                            "An error occurred while creating the trip tracker"))).

Definition post_tracker : CreateBody -> M Response :=
  post_tracker_with sendTripTrackerEmail.

(** [findUnique({ where: { trackerId }, include: { trip } })] *)
Definition tripTracker_findUnique_with_trip (tid : string)
  : M (option (Tracker * option Trip)) :=
  fun w => (Ok (t ← trackers w !! tid; Some (t, trips w !! tripId t)), w).

(** [tracker.expiresAt && new Date() > tracker.expiresAt] *)
Definition has_expired (t : Tracker) : M bool :=
  match expiresAt t with
  | None => ret false
  | Some e => let* n := now in ret (e <? n)
  end.

(** [email && tracker.email !== email] *)
Definition email_mismatch (t : Tracker) (q : Js.value) : bool :=
  Js.truthy q && Js.strict_ne (email t) q.

Definition access_update (stamp : Z) : UpdateData :=
  mkUpdateData None None None None (Some 1) (Some (Js.ValidDate stamp)).

(** [router.get('/:trackerId')] with the query parameter [email]. *)
Definition get_tracker (tid : string) (q : Js.value) : M Response :=
  try_catch
    (let* found := tripTracker_findUnique_with_trip tid in
     match found with
     | None => ret (deny NotFound)
     | Some (tracker, trip) =>
         if negb (isActive tracker) then ret (deny Inactive)
         else
           let* expired := has_expired tracker in
           if expired then ret (deny Expired)
           else if email_mismatch tracker q then ret (deny EmailMismatch)
           else
             let* stamp := now in
             let* _ := tripTracker_update tid (access_update stamp) in
             match trip with
             | None => throw TypeError
             | Some trip =>
                 ret (mkResponse 200
                        (TripBody trip tracker (accessCount tracker + 1)))
             end
     end)
    (fun _ =>
     let* _ := console_write ERROR "Get trip by tracker error:" in
     ret (mkResponse 500 (ErrorBody "Failed to fetch trip"
                            "An error occurred while fetching the trip"))).

(** The [updateData] object of the update route. *)
Definition updateData_of (b : UpdateBody) : UpdateData :=
  mkUpdateData
    (match p_travelerName b with
     | Js.Undefined => None
     | v => Some (Js.or_null v)
     end)
    (match p_phone b with
     | Js.Undefined => None
     | v => Some (Js.or_null v)
     end)
    (match p_expiresAt b with
     | Js.Undefined => None
     | v => Some (if Js.truthy v then Some (new_Date (toString v)) else None)
     end)
    None None None.

(** [router.put('/:trackerId')] *)
Definition put_tracker (tid : string) (b : UpdateBody) (q : Js.value)
  : M Response :=
  try_catch
    (if negb (updateTrackerValidation b)
     then ret (mkResponse 400 (ErrorBody "Validation failed"
                                 "Please check your input"))
     else
       let* tracker := tripTracker_findUnique tid in
       match tracker with
       | None => ret (deny NotFound)
       | Some tracker =>
           if email_mismatch tracker q then ret (deny EmailMismatch)
           else
             let* updatedTracker := tripTracker_update tid (updateData_of b) in
             ret (mkResponse 200 (UpdatedBody updatedTracker))
       end)
    (fun _ =>
     let* _ := console_write ERROR "Update tracker error:" in
     ret (mkResponse 500 (ErrorBody "Failed to update tracker"
                            "An error occurred while updating the tracker"))).

Definition deactivate_update : UpdateData :=
  mkUpdateData None None None (Some false) None None.

(** [router.delete('/:trackerId')] *)
Definition delete_tracker (tid : string) (q : Js.value) : M Response :=
  try_catch
    (let* tracker := tripTracker_findUnique tid in
     match tracker with
     | None => ret (deny NotFound)
     | Some tracker =>
         if email_mismatch tracker q then ret (deny EmailMismatch)
         else
           let* _ := tripTracker_update tid deactivate_update in
           ret (mkResponse 200 (MessageBody "Tracker deactivated successfully"))
     end)
    (fun _ =>
     let* _ := console_write ERROR "Deactivate tracker error:" in
     ret (mkResponse 500 (ErrorBody "Failed to deactivate tracker"
                            "An error occurred while deactivating the tracker"))).

(** [router.get('/:trackerId/validate')] *)
Definition validate_tracker (tid : string) : M Response :=
  try_catch
    (let* found := tripTracker_findUnique_with_trip tid in
     match found with
     | None => ret (mkResponse 200 (InvalidBody "Tracker not found"))
     | Some (tracker, trip) =>
         if negb (isActive tracker)
         then ret (mkResponse 200 (InvalidBody "Tracker is inactive"))
         else
           let* expired := has_expired tracker in
           if expired
           then ret (mkResponse 200 (InvalidBody "Tracker has expired"))
           else
             match trip with
             | None => throw TypeError
             | Some trip =>
                 ret (mkResponse 200
                        (ValidBody (trackerId tracker) (tripName trip)
                           (destination trip)))
             end
     end)
    (fun _ =>
     let* _ := console_write ERROR "Validate tracker error:" in
     ret (mkResponse 500 (ErrorBody "Failed to validate tracker"
                            "An error occurred while validating the tracker"))).

(** The [valid] flag of a validate response. *)
Definition valid (r : Response) : bool :=
  match payload r with
  | ValidBody _ _ _ => true
  | _ => false
  end.

End Routes.

(** ** Notions the statements use *)

Section Notions.

Variable env : Env.

(** The identifier [generateTrackerId] builds from the [d]-th random draw
    and the [t]-th clock reading. *)
Definition token_of (d t : nat) : string :=
  "TRK"
  +:+ Js.toUpperCase (Js.substring 2 8 (Js.fraction_toString36 (random36 env d)))
  +:+ Js.slice_last 4 (Js.Z_toString (clock env t)).

(** The identifier of the [k]-th attempt (from 0) of a retry loop started
    in [w], and whether a tracker already carries it. *)
Definition candidate (w : World) (k : nat) : string :=
  token_of (k + draws w) (k + tick w).

Definition collides (w : World) (k : nat) : bool :=
  match trackers w !! candidate w k with
  | Some _ => true
  | None => false
  end.

(** [expiresAt] is set and lies before the reading the guard takes in [w]. *)
Definition expired_in (w : World) (t : Tracker) : bool :=
  match expiresAt t with
  | Some e => e <? clock env (tick w)
  | None => false
  end.

(** A tracker that passes the inactive, expired and email checks. *)
Definition passes (w : World) (t : Tracker) (q : Js.value) : bool :=
  isActive t && negb (expired_in w t) && negb (email_mismatch t q).

(** The world once the guard has looked at the clock: a reading is taken
    only when [expiresAt] is set. *)
Definition after_expiry_check (w : World) (t : Tracker) : World :=
  match expiresAt t with
  | Some _ => advance 1 0 w
  | None => w
  end.

(** The row an authorized read leaves behind, when the guard finished in
    [w1]: the handler's reading goes to [lastAccessed], the next one is the
    store's [updatedAt]. *)
Definition accessed (w1 : World) (t : Tracker) : Tracker :=
  apply_update (access_update (clock env (tick w1)))
               (clock env (S (tick w1))) t.

(** The read route, cut at its second storage call.  [read_guard] is the
    handler up to the email check: it answers a refusal or hands on the row
    and trip it fetched.  [read_grant] is the rest, inside the same [try]:
    the write of the count and the answer.  Each storage call is awaited,
    so other requests may run between the two. *)
Definition read_guard (tid : string) (q : Js.value)
  : M (Response + Tracker * option Trip) :=
  let* found := tripTracker_findUnique_with_trip tid in
  match found with
  | None => ret (inl (deny NotFound))
  | Some (tracker, trip) =>
      if negb (isActive tracker) then ret (inl (deny Inactive))
      else
        let* expired := has_expired env tracker in
        if expired then ret (inl (deny Expired))
        else if email_mismatch tracker q then ret (inl (deny EmailMismatch))
        else ret (inr (tracker, trip))
  end.

Definition read_grant (tid : string) (fetched : Tracker * option Trip)
  : M Response :=
  try_catch
    (let* stamp := now env in
     let* _ := tripTracker_update env tid (access_update stamp) in
     match snd fetched with
     | None => throw TypeError
     | Some trip =>
         ret (mkResponse 200
                (TripBody trip (fst fetched) (accessCount (fst fetched) + 1)))
     end)
    (fun _ =>
     let* _ := console_write ERROR "Get trip by tracker error:" in
     ret (mkResponse 500 (ErrorBody "Failed to fetch trip"
                            "An error occurred while fetching the trip"))).

(** The world after the grants of several reads in a row, each with the
    row its own guard fetched at some earlier time. *)
Fixpoint grants (tid : string) (fetched : list (Tracker * option Trip))
    (w : World) : World :=
  match fetched with
  | [] => w
  | f :: rest => grants tid rest (snd (read_grant tid f w))
  end.

(** The world after [n] successive reads of the same tracker. *)
Fixpoint reads (tid : string) (q : Js.value) (n : nat) (w : World) : World :=
  match n with
  | O => w
  | S n' => reads tid q n' (snd (get_tracker env tid q w))
  end.

(** The outer [catch] of the create route, entered in world [w]. *)
Definition create_failed (w : World) : Result Response * World :=
  (Ok (mkResponse 500 (ErrorBody "Failed to create tracker"
                         "An error occurred while creating the trip tracker")),
   snd (console_write ERROR "Create tracker error:" w)).

(** A dispatcher that leaves the two tables and the id sequence alone. *)
Definition store_framed (send : Dispatcher) : Prop :=
  forall (to tid : string) (w : World),
    trips (snd (send to tid w)) = trips w
    /\ trackers (snd (send to tid w)) = trackers w
    /\ nextPk (snd (send to tid w)) = nextPk w.

(** A date field of a request body that is given can be parsed. *)
Definition given_date_ok (v : Js.value) : bool :=
  negb (Js.truthy v) || date_ok (new_Date env (toString v)).

End Notions.

(** ** A concrete environment and store for the examples *)

Module Demo.

(** Validators and date parsing restricted to the strings the examples
    use, on which they agree with validator.js and [Date]. *)
Definition env : Env :=
  mkEnv (fun k => 1730525123456 + Z.of_nat k)
        (fun _ => [10; 11; 12; 1; 2; 3; 7; 8]%nat)
        (fun _ => Some "<msg-1@wertigo>")
        (fun s => String.eqb s "a@x.com" || String.eqb s "b@x.com")
        (fun s => s)
        (fun s => String.eqb s "2030-01-01")
        (fun s => if String.eqb s "2030-01-01" then Some 1893456000000
                  else None).

(** The same with a random source that yields 0.5, printed ["0.i"]. *)
Definition env_half : Env :=
  mkEnv (clock env) (fun _ => [18%nat]) (smtp env) (isEmail env)
        (normalizeEmail env) (isISO8601 env) (parseDate env).

(** The same with a mail transport that always fails. *)
Definition env_nomail : Env :=
  mkEnv (clock env) (random36 env) (fun _ => None) (isEmail env)
        (normalizeEmail env) (isISO8601 env) (parseDate env).

Definition T1 : Trip :=
  mkTrip "T1" (Some "Summer") (Some "Cebu") (Some 1700000000000) 1690000000000.

Definition row (tid : string) : Tracker :=
  mkTracker 1 tid "T1" "a@x.com" (Some "Ann") (Some "0917") (Some 1700000000000)
            true 4 None None 1700000000000 1700000000000.

Definition w0 : World :=
  mkWorld {[ "T1" := T1 ]} {[ "TRK1" := row "TRK1" ]} 2 [] [] 0 0.

(** A clock that stands still: every generated token is the same. *)
Definition env_still : Env :=
  mkEnv (fun _ => 1730525123456) (random36 env) (smtp env) (isEmail env)
        (normalizeEmail env) (isISO8601 env) (parseDate env).

(** A store that already holds the token [env_still] generates. *)
Definition w_taken : World :=
  mkWorld {[ "T1" := T1 ]} {[ "TRKABC1233456" := row "TRKABC1233456" ]}
          2 [] [] 0 0.

(** A store whose tracker expires at the very instant of the first
    clock reading of [env]. *)
Definition row_edge : Tracker :=
  mkTracker 1 "TRK2" "T1" "a@x.com" None None (Some 1700000000000)
            true 0 None (Some 1730525123456) 1700000000000 1700000000000.

Definition w_edge : World :=
  mkWorld {[ "T1" := T1 ]} {[ "TRK2" := row_edge ]} 2 [] [] 0 0.

Definition body (startDate expiresAt : Js.value) : CreateBody :=
  mkCreateBody (Js.Str "T1") (Js.Str "a@x.com") Js.Undefined Js.Undefined
               Js.Undefined startDate expiresAt.

(** The same with the ISO 8601 week date ["2024-W05"]: validator.js
    accepts it, [Date] does not parse it. *)
Definition env_week : Env :=
  mkEnv (clock env) (random36 env) (smtp env) (isEmail env)
        (normalizeEmail env)
        (fun s => String.eqb s "2030-01-01" || String.eqb s "2024-W05")
        (parseDate env).

(** A store whose tracker has been read as often as its counter can
    tell. *)
Definition row_full : Tracker :=
  mkTracker 1 "TRK3" "T1" "a@x.com" None None (Some 1700000000000)
            true 2147483647 (Some 1700000000000) None 1700000000000
            1700000000000.

Definition w_full : World :=
  mkWorld {[ "T1" := T1 ]} {[ "TRK3" := row_full ]} 2 [] [] 0 0.

End Demo.

(** ** The other routes of the tracker router *)

(** An answer of the routes below: the success body, or an error
    envelope as the routes above send it. *)
Inductive Answer (A : Type) :=
| Success (body : A)
| Failure (r : Response).

Arguments Success {A} body.
Arguments Failure {A} r.

(** The [stats] object of [GET /:trackerId/stats]. *)
Record Stats := mkStats {
  s_trackerId : string;
  s_accessCount : Z;
  s_lastAccessed : option Z;
  s_createdAt : Z;
  s_isActive : bool;
  s_isExpired : bool;
  s_expiresAt : option Z
}.

(** An element of [formattedTrackers] in [GET /email/:email] (the trip's
    [endDate], a column the model of [Trip] does not carry, is left out). *)
Record Listed := mkListed {
  l_trackerId : string;
  l_tripName : option string;
  l_destination : option string;
  l_startDate : option Z;
  l_travelerName : option string;
  l_accessCount : Z;
  l_createdAt : Z;
  l_shareUrl : string
}.

(** [orderBy: { createdAt: 'desc' }] *)
Definition newer (a b : Tracker) : Prop := createdAt b <= createdAt a.

#[global] Instance newer_dec : RelDecision newer.
Proof. intros a b. unfold newer. apply Z_le_dec. Defined.

(** [array.map(f)] with a callback that may throw: the first throw ends
    the map. *)
Fixpoint map_M {A B : Type} (f : A -> M B) (l : list A) : M (list B) :=
  match l with
  | [] => ret []
  | x :: l' =>
      let* y := f x in
      let* ys := map_M f l' in
      ret (y :: ys)
  end.

Section MoreRoutes.

Variable env : Env.

(** [prisma.tripTracker.findMany({ where, include: { trip },
    orderBy: { createdAt: 'desc' } })].  Among rows created at the same
    instant the database is free to choose; the sort used here is one such
    choice. *)
Definition tripTracker_findMany (P : Tracker -> Prop)
    `{forall t, Decision (P t)} : M (list (Tracker * option Trip)) :=
  fun w =>
    (Ok ((fun t => (t, trips w !! tripId t))
           <$> merge_sort newer (filter P (map_to_list (trackers w)).*2)),
     w).

(** [req.protocol + '://' + req.get('host') + '/trip/' + trackerId] *)
Definition shareUrl (protocol host tid : string) : string :=
  protocol +:+ "://" +:+ host +:+ "/trip/" +:+ tid.

(** The callback of [trackers.map]: reading [tracker.trip.tripName] off a
    missing trip throws. *)
Definition format_tracker (protocol host : string)
    (x : Tracker * option Trip) : M Listed :=
  match snd x with
  | None => throw TypeError
  | Some trip =>
      ret (mkListed (trackerId (fst x)) (tripName trip) (destination trip)
             (startDate trip) (travelerName (fst x)) (accessCount (fst x))
             (createdAt (fst x)) (shareUrl protocol host (trackerId (fst x))))
  end.

(** [router.get('/email/:email')]: the body is the list and its count. *)
Definition list_by_email (protocol host e : string)
  : M (Answer (list Listed * nat)) :=
  try_catch
    (let* found :=
       tripTracker_findMany (fun t => email t = e /\ isActive t = true) in
     let* formattedTrackers := map_M (format_tracker protocol host) found in
     ret (Success (formattedTrackers, length formattedTrackers)))
    (fun _ =>
     let* _ := console_write ERROR "Get trackers by email error:" in
     ret (Failure
            (mkResponse 500
               (ErrorBody "Failed to fetch trackers"
                  "An error occurred while fetching trip trackers")))).

(** [router.get('/:trackerId/stats')] *)
Definition get_stats (tid : string) (q : Js.value) : M (Answer Stats) :=
  try_catch
    (let* tracker := tripTracker_findUnique tid in
     match tracker with
     | None => ret (Failure (deny NotFound))
     | Some tracker =>
         if email_mismatch tracker q then ret (Failure (deny EmailMismatch))
         else
           let* isExpired := has_expired env tracker in
           ret (Success
                  (mkStats (trackerId tracker) (accessCount tracker)
                     (lastAccessed tracker) (createdAt tracker)
                     (isActive tracker) isExpired (expiresAt tracker)))
     end)
    (fun _ =>
     let* _ := console_write ERROR "Get tracker stats error:" in
     ret (Failure
            (mkResponse 500
               (ErrorBody "Failed to fetch tracker statistics"
                  "An error occurred while fetching tracker statistics")))).

(** ** The ticket routes (second router of [routes/trackers.js]) *)

Inductive TicketType :=
| FLIGHT | BUS | FERRY | TRAIN | HOTEL | TOUR | BOOKING_REF | CONFIRMATION.

(** [model GeneratedTicket] with the email of its user, if it has one.
    These routes only read the table, so it is an argument of theirs. *)
Record Ticket := mkTicket {
  ticket_pk : Z;
  ticketId : string;
  ticketType : TicketType;
  isUsed : bool;
  usedAt : option Z;
  ticket_createdAt : Z;
  user_email : option string
}.

Definition ticket_newer (a b : Ticket) : Prop :=
  ticket_createdAt b <= ticket_createdAt a.

#[global] Instance ticket_newer_dec : RelDecision ticket_newer.
Proof. intros a b. unfold ticket_newer. apply Z_le_dec. Defined.

(** The columns the ticket queries [select] ([metadata] is not part of
    the model). *)
Record TicketView := mkTicketView {
  v_id : Z;
  v_ticketId : string;
  v_ticketType : TicketType;
  v_isUsed : bool;
  v_usedAt : option Z;
  v_createdAt : Z
}.

Definition selected (t : Ticket) : TicketView :=
  mkTicketView (ticket_pk t) (ticketId t) (ticketType t) (isUsed t) (usedAt t)
               (ticket_createdAt t).

(** [router.get('/:ticketId/validate')]: [Some] is [valid: true] with the
    ticket, [None] is [valid: false]; both are sent with
    [success: true]. *)
Definition validate_ticket (tickets : gmap string Ticket) (tid : string)
  : M (Answer (option TicketView)) :=
  try_catch
    (ret (Success (selected <$> tickets !! tid)))
    (fun _ =>
     let* _ := console_write ERROR "Validate ticket error:" in
     ret (Failure
            (mkResponse 500
               (ErrorBody "Failed to validate ticket"
                  "An error occurred while validating the ticket")))).

(** The body of [POST /search]. *)
Record SearchBody := mkSearchBody {
  q_ticketId : Js.value;
  q_email : Js.value;
  q_query : Js.value
}.

(** [isString()]: [typeof value === 'string']. *)
Definition isString (v : Js.value) : bool :=
  match v with
  | Js.Str _ => true
  | _ => false
  end.

Definition searchValidation (b : SearchBody) : bool :=
  optional isString (q_ticketId b)
  && optional (fun v => isEmail env (toString v)) (q_email b)
  && optional isString (q_query b).

(** The [tracker] object of a search answer: seven columns of the row
    and the trip's start date ([startDateFormatted], a rendering of that
    date, is left out). *)
Record Found := mkFound {
  f_trackerId : string;
  f_email : string;
  f_travelerName : option string;
  f_phone : option string;
  f_accessCount : Z;
  f_createdAt : Z;
  f_saveDate : option Z;
  f_startDate : option Z
}.

Definition found_of (tracker : Tracker) (trip : Trip) : Found :=
  mkFound (trackerId tracker) (email tracker) (travelerName tracker)
          (phone tracker) (accessCount tracker) (createdAt tracker)
          (saveDate tracker) (startDate trip).

(** What a search answers with status 200 (the trip's destinations and
    routes are left out of the bodies).  A ticket found by its id comes
    with the email of its user. *)
Inductive SearchResult :=
| TicketFound (ticket : TicketView) (user : option string) (* type: 'ticket' *)
| TripFound (trip : Trip) (tracker : Found)                (* type: 'trip' *)
| EmailSearch (tickets : list TicketView)
              (trip_trackers : list (Found * Trip)).  (* type: 'email_search' *)

(** The callback of [tripTrackers.map]: [tracker.trip.startDate] throws
    on a missing trip. *)
Definition with_trip (x : Tracker * option Trip) : M (Found * Trip) :=
  match snd x with
  | None => throw TypeError
  | Some trip => ret (found_of (fst x) trip, trip)
  end.

(** [router.post('/search')].  After the "Missing parameters" answer one
    of [ticketId] and [email] is truthy, so the last [if (email)] is the
    [else] of [if (ticketId)]. *)
Definition search_tickets (tickets : gmap string Ticket) (b : SearchBody)
  : M (Answer SearchResult) :=
  try_catch
    (if negb (searchValidation b)
     then ret (Failure (mkResponse 400 (ErrorBody "Validation failed"
                                          "Please check your input")))
     else if negb (Js.truthy (q_ticketId b)) && negb (Js.truthy (q_email b))
     then ret (Failure
                 (mkResponse 400
                    (ErrorBody "Missing parameters"
                       "Either ticketId or email must be provided")))
     else if Js.truthy (q_ticketId b)
     then
       let* tid := string_arg (q_ticketId b) in
       match tickets !! tid with
       | Some ticket =>
           ret (Success (TicketFound (selected ticket) (user_email ticket)))
       | None =>
           let* tracker := tripTracker_findUnique_with_trip tid in
           match tracker with
           | Some (tracker, trip) =>
               match trip with
               | None => throw TypeError
               | Some trip =>
                   ret (Success (TripFound trip (found_of tracker trip)))
               end
           | None =>
               ret (Failure
                      (mkResponse 404
                         (ErrorBody "Not found"
                            "No ticket or trip tracker found with this ID")))
           end
       end
     else
       let* addr := string_arg (q_email b) in
       let found_tickets :=
         selected
           <$> merge_sort ticket_newer
                 (filter (fun t => user_email t = Some addr)
                         (map_to_list tickets).*2) in
       let* tripTrackers := tripTracker_findMany (fun t => email t = addr) in
       let* trip_trackers := map_M with_trip tripTrackers in
       ret (Success (EmailSearch found_tickets trip_trackers)))
    (fun _ =>
     let* _ := console_write ERROR "Search tickets error:" in
     ret (Failure
            (mkResponse 500
               (ErrorBody "Search failed"
                  "An error occurred while searching for tickets")))).

End MoreRoutes.

(** ** The router and the server around it *)

Definition lower (c : ascii) : ascii :=
  let n := nat_of_ascii c in
  if (65 <=? n)%nat && (n <=? 90)%nat then ascii_of_nat (n + 32) else c.

(** ASCII lower case; route paths are matched without regard to case. *)
Definition toLowerCase (s : string) : string :=
  Js.of_chars (map lower (Js.chars s)).

Inductive Method := GET | POST | PUT | DELETE.

(** A segment of a route path: a literal or a [:param]. *)
Inductive Seg :=
| Lit (s : string)
| Param.

(** The parameters a path gives a pattern, when it matches it; the path
    is the list of its non-empty segments. *)
Fixpoint match_path (pat : list Seg) (path : list string)
  : option (list string) :=
  match pat, path with
  | [], [] => Some []
  | Lit s :: pat', x :: path' =>
      if String.eqb (toLowerCase x) (toLowerCase s)
      then match_path pat' path'
      else None
  | Param :: pat', x :: path' => cons x <$> match_path pat' path'
  | _, _ => None
  end.

Inductive Handler :=
| HCreate | HRead | HListByEmail | HUpdate | HDeactivate | HStats | HValidate.

(** The routes of the tracker router in the order they are registered. *)
Definition tracker_routes : list (Method * list Seg * Handler) :=
  [ (POST, [], HCreate);
    (GET, [Param], HRead);
    (GET, [Lit "email"; Param], HListByEmail);
    (PUT, [Param], HUpdate);
    (DELETE, [Param], HDeactivate);
    (GET, [Param; Lit "stats"], HStats);
    (GET, [Param; Lit "validate"], HValidate) ].

Definition method_eqb (a b : Method) : bool :=
  match a, b with
  | GET, GET | POST, POST | PUT, PUT | DELETE, DELETE => true
  | _, _ => false
  end.

(** The first registered route that matches, with its parameters. *)
Fixpoint first_match (routes : list (Method * list Seg * Handler))
    (m : Method) (path : list string) : option (Handler * list string) :=
  match routes with
  | [] => None
  | (m', pat, h) :: rest =>
      if method_eqb m m'
      then match match_path pat path with
           | Some params => Some (h, params)
           | None => first_match rest m path
           end
      else first_match rest m path
  end.

Definition route_of : Method -> list string -> option (Handler * list string) :=
  first_match tracker_routes.

(** An error object as the global error handler of the server reads it. *)
Record ErrorObj := mkErrorObj {
  e_code : option string;
  e_name : option string;
  e_status : option Z;
  e_message : string
}.

Definition is_str (o : option string) (s : string) : bool :=
  match o with
  | Some x => String.eqb x s
  | None => false
  end.

(** [error.status || 500] *)
Definition status_or_500 (st : option Z) : Z :=
  match st with
  | Some n => if n =? 0 then 500 else n
  | None => 500
  end.

(** The global error handler: [app.use((error, req, res, next) => ...)],
    with the value of [NODE_ENV]. *)
Definition globalErrorHandler (NODE_ENV : option string) (error : ErrorObj)
  : M Response :=
  let* _ := console_write ERROR "Global error handler:" in
  if is_str (e_code error) "P2002"
  then ret (mkResponse 400 (ErrorBody "Duplicate entry"
                              "A record with this information already exists"))
  else if is_str (e_code error) "P2025"
  then ret (mkResponse 404 (ErrorBody "Record not found"
                              "The requested record was not found"))
  else if is_str (e_name error) "JsonWebTokenError"
  then ret (mkResponse 401 (ErrorBody "Invalid token" "Please log in again"))
  else if is_str (e_name error) "TokenExpiredError"
  then ret (mkResponse 401 (ErrorBody "Token expired" "Please log in again"))
  else if is_str (e_name error) "ValidationError"
  then ret (mkResponse 400 (ErrorBody "Validation error" (e_message error)))
  else ret (mkResponse (status_or_500 (e_status error))
              (ErrorBody "Internal server error"
                 (if is_str NODE_ENV "development" then e_message error
                  else "Something went wrong"))).

(** ** Requests to the tracker routes, one after another *)

Inductive Request :=
| Create (b : CreateBody)
| Read (tid : string) (q : Js.value)
| ListByEmail (protocol host e : string)
| Update (tid : string) (b : UpdateBody) (q : Js.value)
| Deactivate (tid : string) (q : Js.value)
| GetStats (tid : string) (q : Js.value)
| Validate (tid : string).

Section Serving.

Variable env : Env.

(** The world a request leaves behind. *)
Definition serve (r : Request) (w : World) : World :=
  match r with
  | Create b => snd (post_tracker env b w)
  | Read tid q => snd (get_tracker env tid q w)
  | ListByEmail protocol host e => snd (list_by_email protocol host e w)
  | Update tid b q => snd (put_tracker env tid b q w)
  | Deactivate tid q => snd (delete_tracker env tid q w)
  | GetStats tid q => snd (get_stats env tid q w)
  | Validate tid => snd (validate_tracker env tid w)
  end.

Fixpoint serve_all (rs : list Request) (w : World) : World :=
  match rs with
  | [] => w
  | r :: rs' => serve_all rs' (serve r w)
  end.

(** The status a request is answered with, if it is answered. *)
Definition status_of_answer {A} (a : Result (Answer A)) : option Z :=
  match a with
  | Ok (Success _) => Some 200
  | Ok (Failure r) => Some (status r)
  | Throw _ => None
  end.

Definition status_of (a : Result Response) : option Z :=
  match a with
  | Ok r => Some (status r)
  | Throw _ => None
  end.

Definition answer_status (r : Request) (w : World) : option Z :=
  match r with
  | Create b => status_of (fst (post_tracker env b w))
  | Read tid q => status_of (fst (get_tracker env tid q w))
  | ListByEmail protocol host e =>
      status_of_answer (fst (list_by_email protocol host e w))
  | Update tid b q => status_of (fst (put_tracker env tid b q w))
  | Deactivate tid q => status_of (fst (delete_tracker env tid q w))
  | GetStats tid q => status_of_answer (fst (get_stats env tid q w))
  | Validate tid => status_of (fst (validate_tracker env tid w))
  end.

End Serving.

(** ** Conditions on a store *)

(** Every row sits under its own [trackerId] (the unique index). *)
Definition keyed (w : World) : Prop :=
  forall k t, trackers w !! k = Some t -> trackerId t = k.

(** Every tracker's trip exists (the foreign key). *)
Definition linked (w : World) : Prop :=
  forall k t, trackers w !! k = Some t -> is_Some (trips w !! tripId t).

(** What the routes may do to a row over time: the identity columns
    stay, the count does not go down, an inactive row stays inactive. *)
Definition evolves (t t' : Tracker) : Prop :=
  tracker_pk t' = tracker_pk t
  /\ trackerId t' = trackerId t
  /\ tripId t' = tripId t
  /\ email t' = email t
  /\ saveDate t' = saveDate t
  /\ createdAt t' = createdAt t
  /\ accessCount t <= accessCount t'
  /\ (isActive t = false -> isActive t' = false).

(** ** Notions the further statements use *)

(** The rows a [findMany] with filter [P] returns, newest first. *)
Definition found_rows (P : Tracker -> Prop) `{forall t, Decision (P t)}
    (w : World) : list Tracker :=
  merge_sort newer (filter P (map_to_list (trackers w)).*2).

(** The list entry that shows row [t] of store [w]. *)
Definition listed_as (protocol host : string) (w : World) (t : Tracker)
    (x : Listed) : Prop :=
  exists trip,
    trips w !! tripId t = Some trip
    /\ x = mkListed (trackerId t) (tripName trip) (destination trip)
             (startDate trip) (travelerName t) (accessCount t) (createdAt t)
             (shareUrl protocol host (trackerId t)).

(** The rows of store [w] paired with their trips, as a search by email
    returns them. *)
Definition paired_as (w : World) (t : Tracker) (x : Found * Trip) : Prop :=
  fst x = found_of t (snd x) /\ trips w !! tripId t = Some (snd x).

(** The tables, the id sequence and the mail record are the same. *)
Definition same_store (w w' : World) : Prop :=
  trips w' = trips w /\ trackers w' = trackers w
  /\ nextPk w' = nextPk w /\ sent w' = sent w.

(** What one request, or a run of them, may have done to the tables:
    no trip is gone; every old row is still there, evolved; every row is
    an old row evolved, or a new one under its own id whose trip was
    there. *)
Definition advances (w w' : World) : Prop :=
  (forall k, is_Some (trips w !! k) -> is_Some (trips w' !! k))
  /\ (forall k t, trackers w !! k = Some t ->
        exists t', trackers w' !! k = Some t' /\ evolves t t')
  /\ (forall k t', trackers w' !! k = Some t' ->
        (exists t, trackers w !! k = Some t /\ evolves t t')
        \/ (trackers w !! k = None /\ trackerId t' = k
            /\ is_Some (trips w' !! tripId t'))).

(** * Properties *)

(** ** Strings *)

Lemma chars_of_chars (l : list ascii) : Js.chars (Js.of_chars l) = l.
Proof. apply list_ascii_of_string_of_list_ascii. Qed.

Lemma length_chars (s : string) : length (Js.chars s) = String.length s.
Proof. induction s as [|c s IH]; simpl; [reflexivity | now rewrite IH]. Qed.

Lemma length_of_chars (l : list ascii) : String.length (Js.of_chars l) = length l.
Proof. now rewrite <- length_chars, chars_of_chars. Qed.

Lemma chars_append (a b : string) : Js.chars (a +:+ b) = (Js.chars a ++ Js.chars b)%list.
Proof. induction a as [|c a IH]; simpl; [reflexivity | now rewrite IH]. Qed.

Lemma length_append (a b : string) :
  String.length (a +:+ b) = (String.length a + String.length b)%nat.
Proof. now rewrite <- !length_chars, chars_append, length_app. Qed.

Lemma upper_digit36 (d : nat) : Js.is_upper_alnum (Js.upper (Js.digit36 d)).
Proof.
  unfold Js.digit36.
  assert (Hlt : (d mod 36 < 36)%nat) by (apply Nat.mod_upper_bound; lia).
  generalize dependent (d mod 36)%nat. intros k Hlt.
  do 36 (destruct k as [|k]; [unfold Js.is_upper_alnum; vm_compute; lia|]).
  lia.
Qed.

(** The randomized segment: at most six characters, each of [0-9A-Z]. *)
Lemma randomPart_shape (ds : list nat) :
  let mid := Js.toUpperCase (Js.substring 2 8 (Js.fraction_toString36 ds)) in
  (String.length mid <= 6)%nat /\ Forall Js.is_upper_alnum (Js.chars mid).
Proof.
  cbv zeta. unfold Js.toUpperCase, Js.substring.
  rewrite length_of_chars, !chars_of_chars, length_map, length_take.
  split; [lia|].
  apply List.Forall_map, Forall_take.
  destruct ds as [|d ds]; [constructor|].
  unfold Js.fraction_toString36. rewrite chars_append, chars_of_chars.
  change (Js.chars "0.") with ["0"%char; "."%char].
  change (drop 2 (["0"%char; "."%char] ++ map Js.digit36 (d :: ds))%list)
    with (map Js.digit36 (d :: ds)).
  apply List.Forall_map, Forall_forall. intros k _. apply upper_digit36.
Qed.

Lemma digit10_is_digit (n : Z) : Js.is_digit (Js.digit10 n).
Proof.
  unfold Js.is_digit, Js.digit10.
  assert (0 <= n mod 10 < 10) by (apply Z.mod_pos_bound; lia).
  rewrite nat_ascii_embedding; lia.
Qed.

(** The four least significant decimal digits of [n >= 1000] lead the
    reversed digit list. *)
Lemma dec_rev_four (fuel : nat) (n : Z) :
  1000 <= n -> (4 <= fuel)%nat ->
  exists rest,
    Js.dec_rev fuel n =
      Js.digit10 n :: Js.digit10 (n / 10) :: Js.digit10 (n / 100)
        :: Js.digit10 (n / 1000) :: rest.
Proof.
  intros Hn Hf.
  destruct fuel as [|[|[|[|fuel]]]]; try lia.
  cbn [Js.dec_rev].
  assert (E2 : n / 10 / 10 = n / 100).
  { rewrite Z.div_div by lia. reflexivity. }
  assert (E3 : n / 100 / 10 = n / 1000).
  { rewrite Z.div_div by lia. reflexivity. }
  assert (Hq : forall k, 0 < k -> k <= n -> (n / k =? 0) = false).
  { intros k Hk Hkn. apply Z.eqb_neq.
    pose proof (Z.div_le_lower_bound n k 1 Hk). lia. }
  pose proof (Hq 10) as H1. pose proof (Hq 100) as H2.
  pose proof (Hq 1000) as H3.
  rewrite H1, E2, H2, E3, H3 by lia. clear Hq H1 H2 H3.
  eexists. reflexivity.
Qed.

(** [n.toString().slice(-4)] for [n >= 1000]. *)
Lemma slice_last_four (n : Z) :
  1000 <= n ->
  Js.slice_last 4 (Js.Z_toString n) =
    Js.of_chars [Js.digit10 (n / 1000); Js.digit10 (n / 100);
                 Js.digit10 (n / 10); Js.digit10 n].
Proof.
  intros Hn. unfold Js.slice_last, Js.Z_toString.
  replace (n <? 0) with false by (symmetry; apply Z.ltb_ge; lia).
  rewrite Z.abs_eq by lia. cbv zeta. rewrite chars_of_chars.
  destruct (dec_rev_four (S (Z.to_nat (Z.log2 n))) n Hn) as [rest ->].
  { assert (9 <= Z.log2 n) by (apply Z.log2_le_pow2; simpl; lia). lia. }
  rewrite !reverse_cons, <- !app_assoc. simpl app at 2.
  f_equal. apply drop_app_length'.
  rewrite length_app. simpl. lia.
Qed.

(** ** Identifier generator *)

Lemma generateTrackerId_eq (env : Env) (w : World) :
  generateTrackerId env w = (Ok (token_of env (draws w) (tick w)), advance 1 1 w).
Proof. reflexivity. Qed.

(** C10.  A generated token is ["TRK"], then a segment of at most six
    characters of [0-9A-Z], then the last four decimal digits of the clock
    reading (for a clock that reads at least 1000 ms); it is at most 13
    characters long, and it can be shorter than 13. *)
Theorem generateTrackerId_format (env : Env) (w : World) :
  1000 <= clock env (tick w) ->
  (exists mid suf : string,
      fst (generateTrackerId env w) = Ok ("TRK" +:+ mid +:+ suf)
      /\ (String.length mid <= 6)%nat
      /\ Forall Js.is_upper_alnum (Js.chars mid)
      /\ (let t := clock env (tick w) in
          suf = Js.of_chars [Js.digit10 (t / 1000); Js.digit10 (t / 100);
                             Js.digit10 (t / 10); Js.digit10 t])
      /\ String.length suf = 4%nat
      /\ Forall Js.is_digit (Js.chars suf)
      /\ (String.length ("TRK" +:+ mid +:+ suf) <= 13)%nat)
  /\ (exists (env' : Env) (w' : World) (tok : string),
         1000 <= clock env' (tick w')
         /\ fst (generateTrackerId env' w') = Ok tok
         /\ (String.length tok < 13)%nat).
Proof.
  intros Hclock. split.
  - rewrite generateTrackerId_eq. unfold token_of. cbn [fst].
    destruct (randomPart_shape (random36 env (draws w))) as [Hlen Hall].
    rewrite (slice_last_four _ Hclock).
    eexists _, _. split; [reflexivity|].
    split; [exact Hlen|]. split; [exact Hall|].
    split; [reflexivity|]. split; [reflexivity|].
    split.
    + rewrite chars_of_chars.
      repeat (apply List.Forall_cons; [apply digit10_is_digit|]).
      apply List.Forall_nil.
    + rewrite !length_append, length_of_chars. simpl. lia.
  - exists Demo.env_half, Demo.w0, "TRKI3456".
    split; [vm_compute; discriminate|].
    split; [reflexivity | vm_compute; lia].
Qed.

Lemma generateTrackerId_format_witness :
  exists mid suf : string,
    fst (generateTrackerId Demo.env Demo.w0) = Ok ("TRK" +:+ mid +:+ suf)
    /\ (String.length mid <= 6)%nat
    /\ String.length suf = 4%nat.
Proof.
  destruct (generateTrackerId_format Demo.env Demo.w0) as [(mid & suf & H) _].
  - vm_compute. discriminate.
  - exists mid, suf. tauto.
Defined.

(** ** Bounded retry *)

Lemma advance_advance (a b c d : nat) (w : World) :
  advance a b (advance c d w) = advance (a + c) (b + d) w.
Proof. unfold advance. simpl. f_equal; lia. Qed.

Lemma advance_0 (w : World) : advance 0 0 w = w.
Proof. destruct w. reflexivity. Qed.

Lemma candidate_advance (env : Env) (w : World) (k : nat) :
  candidate env (advance 1 1 w) k = candidate env w (S k).
Proof. unfold candidate. simpl. rewrite <- !plus_n_Sm. reflexivity. Qed.

Lemma collides_advance (env : Env) (w : World) (k : nat) :
  collides env (advance 1 1 w) k = collides env w (S k).
Proof. unfold collides. rewrite candidate_advance. reflexivity. Qed.

(** One turn of the loop. *)
Lemma ensureUnique_step (env : Env) (n : nat) (w : World) :
  ensureUniqueTrackerId env (S n) w =
    if collides env w 0 then ensureUniqueTrackerId env n (advance 1 1 w)
    else (Ok (candidate env w 0), advance 1 1 w).
Proof.
  unfold collides, candidate. cbn [ensureUniqueTrackerId Nat.add].
  unfold bind. rewrite generateTrackerId_eq.
  unfold tripTracker_findUnique. cbn [trackers advance].
  destruct (trackers w !! token_of env (draws w) (tick w)); reflexivity.
Qed.

(** The loop either stops at the first attempt whose identifier is free,
    or has used all its attempts on taken identifiers. *)
Lemma ensureUnique_spec (env : Env) (n : nat) (w : World) :
  (exists k, (k < n)%nat
             /\ collides env w k = false
             /\ (forall j, (j < k)%nat -> collides env w j = true)
             /\ ensureUniqueTrackerId env n w
                = (Ok (candidate env w k), advance (S k) (S k) w))
  \/ ((forall k, (k < n)%nat -> collides env w k = true)
      /\ ensureUniqueTrackerId env n w
         = (Throw ExhaustedAttempts, advance n n w)).
Proof.
  revert w. induction n as [|n IH]; intros w.
  - right. split; [intros k Hk; lia|]. simpl. unfold throw.
    now rewrite advance_0.
  - rewrite ensureUnique_step.
    destruct (collides env w 0) eqn:H0.
    + destruct (IH (advance 1 1 w)) as [(k & Hk & Hfree & Hbefore & Hrun)|[Hall Hrun]].
      * left. exists (S k). rewrite collides_advance in Hfree.
        rewrite candidate_advance, advance_advance in Hrun.
        replace (S k + 1)%nat with (S (S k)) in Hrun by lia.
        repeat split; [lia | exact Hfree | | exact Hrun].
        intros [|j] Hj; [exact H0|].
        rewrite <- collides_advance. apply Hbefore. lia.
      * right. rewrite advance_advance in Hrun.
        replace (n + 1)%nat with (S n) in Hrun by lia.
        split; [|exact Hrun].
        intros [|k] Hk; [exact H0|].
        rewrite <- collides_advance. apply Hall. lia.
    + left. exists 0%nat. repeat split; [lia | exact H0 | intros j Hj; lia].
Qed.

Lemma validation_tripId (env : Env) (b : CreateBody) :
  createTrackerValidation env b = true ->
  exists tid, c_tripId b = Js.Str tid /\ tid <> "".
Proof.
  unfold createTrackerValidation, notEmpty. intros H.
  repeat (apply andb_prop in H as [H _]).
  destruct (c_tripId b) as [| |tid]; simpl in H; try discriminate.
  exists tid. split; [reflexivity|]. intros ->. discriminate.
Qed.

(** C5.  [ensureUniqueTrackerId maxAttempts] makes at most [maxAttempts]
    generate-and-check turns and does nothing else; when some turn within
    the bound generates an identifier that no tracker carries, it returns
    the identifier of the first such turn, right after that turn; a
    returned identifier is always that of the first turn whose identifier
    is free; when the identifiers of all [maxAttempts] turns are taken it
    throws the exhausted-attempts error after exactly [maxAttempts] turns;
    and the create route, which runs it with ten attempts, answers that
    error with status 500. *)
Theorem ensureUnique_bounded (env : Env) (maxAttempts : nat) (w : World) :
  let r := ensureUniqueTrackerId env maxAttempts w in
  (exists n, (n <= maxAttempts)%nat /\ snd r = advance n n w)
  /\ (forall k, (k < maxAttempts)%nat ->
        collides env w k = false ->
        (forall j, (j < k)%nat -> collides env w j = true) ->
        r = (Ok (candidate env w k), advance (S k) (S k) w))
  /\ (forall id, fst r = Ok id ->
        exists k, (k < maxAttempts)%nat
                  /\ id = candidate env w k
                  /\ trackers w !! id = None
                  /\ (forall j, (j < k)%nat -> collides env w j = true)
                  /\ snd r = advance (S k) (S k) w)
  /\ ((forall k, (k < maxAttempts)%nat -> collides env w k = true) ->
      fst r = Throw ExhaustedAttempts
      /\ snd r = advance maxAttempts maxAttempts w)
  /\ (forall (b : CreateBody) (tid : string) (trip : Trip),
        createTrackerValidation env b = true ->
        c_tripId b = Js.Str tid ->
        trips w !! tid = Some trip ->
        (forall k, (k < 10)%nat -> collides env w k = true) ->
        exists body, fst (post_tracker env b w) = Ok (mkResponse 500 body)).
Proof.
  cbv zeta. split; [|split; [|split; [|split]]].
  - destruct (ensureUnique_spec env maxAttempts w)
      as [(k & Hk & _ & _ & ->)|[_ ->]]; cbn [snd].
    + exists (S k). split; [lia | reflexivity].
    + exists maxAttempts. split; [lia | reflexivity].
  - intros k Hk Hfree Hbefore.
    destruct (ensureUnique_spec env maxAttempts w)
      as [(k' & Hk' & Hfree' & Hbefore' & Hrun)|[Hall _]].
    + destruct (Nat.lt_trichotomy k k') as [Hlt|[->|Hgt]].
      * rewrite (Hbefore' k Hlt) in Hfree. discriminate.
      * exact Hrun.
      * rewrite (Hbefore k' Hgt) in Hfree'. discriminate.
    + rewrite (Hall k Hk) in Hfree. discriminate.
  - intros id Hid.
    destruct (ensureUnique_spec env maxAttempts w)
      as [(k & Hk & Hfree & Hbefore & Hrun)|[_ Hrun]];
      rewrite Hrun in Hid |- *; cbn [fst snd] in *; [|discriminate].
    injection Hid as <-. exists k.
    repeat split; [exact Hk | | exact Hbefore].
    unfold collides in Hfree.
    destruct (trackers w !! candidate env w k); [discriminate | reflexivity].
  - intros Hall.
    destruct (ensureUnique_spec env maxAttempts w)
      as [(k & Hk & Hfree & _)|[_ ->]]; [|split; reflexivity].
    rewrite Hall in Hfree by exact Hk. discriminate.
  - intros b tid trip Hv Ht Htrip Hall.
    destruct (ensureUnique_spec env 10 w) as [(k & Hk & Hfree & _)|[_ Hrun]].
    { rewrite Hall in Hfree by exact Hk. discriminate. }
    unfold post_tracker, post_tracker_with, try_catch, bind.
    rewrite Hv, Ht. cbn [negb string_arg ret].
    unfold trip_findUnique. rewrite Htrip, Hrun.
    eexists. reflexivity.
Qed.

Lemma ensureUnique_bounded_witness :
  (fst (ensureUniqueTrackerId Demo.env_still 3 Demo.w_taken)
     = Throw ExhaustedAttempts
   /\ snd (ensureUniqueTrackerId Demo.env_still 3 Demo.w_taken)
      = advance 3 3 Demo.w_taken)
  /\ ensureUniqueTrackerId Demo.env 3 Demo.w_taken
     = (Ok (candidate Demo.env Demo.w_taken 1), advance 2 2 Demo.w_taken).
Proof.
  split.
  - apply (proj1 (proj2 (proj2 (proj2
             (ensureUnique_bounded Demo.env_still 3 Demo.w_taken))))).
    intros k Hk.
    destruct k as [|[|[|k]]]; [reflexivity | reflexivity | reflexivity | lia].
  - apply (proj1 (proj2 (ensureUnique_bounded Demo.env 3 Demo.w_taken)) 1%nat).
    + lia.
    + reflexivity.
    + intros j Hj. destruct j as [|j]; [reflexivity | lia].
Defined.

(** ** Reading a tracker *)

(** The read route, branch by branch. *)
Lemma get_tracker_eq (env : Env) (tid : string) (q : Js.value) (w : World) :
  get_tracker env tid q w =
    match trackers w !! tid with
    | None => (Ok (deny NotFound), w)
    | Some t =>
        if negb (isActive t) then (Ok (deny Inactive), w)
        else
          let w1 := after_expiry_check w t in
          if expired_in env w t then (Ok (deny Expired), w1)
          else if email_mismatch t q then (Ok (deny EmailMismatch), w1)
          else if negb (int_ok (accessCount t + 1))
          then
            (Ok (mkResponse 500
                   (ErrorBody "Failed to fetch trip"
                      "An error occurred while fetching the trip")),
             snd (console_write ERROR "Get trip by tracker error:"
                    (advance 2 0 w1)))
          else
            let w2 := set_trackers (<[tid := accessed env w1 t]> (trackers w))
                                   (advance 2 0 w1) in
            match trips w !! tripId t with
            | Some trip =>
                (Ok (mkResponse 200 (TripBody trip t (accessCount t + 1))), w2)
            | None =>
                (Ok (mkResponse 500
                       (ErrorBody "Failed to fetch trip"
                          "An error occurred while fetching the trip")),
                 snd (console_write ERROR "Get trip by tracker error:" w2))
            end
    end.
Proof.
  unfold get_tracker, try_catch, bind, tripTracker_findUnique_with_trip.
  cbn [mbind option_bind].
  destruct (trackers w !! tid) as [t|] eqn:Ht; [|reflexivity].
  cbn [mbind option_bind]. 
  destruct (isActive t); [|reflexivity]. cbn [negb].
  unfold has_expired, expired_in, after_expiry_check.
  destruct (expiresAt t) as [e|].
  - unfold bind, now, ret. destruct (e <? clock env (tick w)); [reflexivity|].
    destruct (email_mismatch t q); [reflexivity|].
    unfold tripTracker_update. cbn. rewrite Ht. cbn.
    destruct (int_ok (accessCount t + 1)); [|reflexivity]. cbn.
    destruct (trips w !! tripId t); reflexivity.
  - unfold ret. destruct (email_mismatch t q); [reflexivity|].
    unfold now, tripTracker_update. cbn. rewrite Ht. cbn.
    destruct (int_ok (accessCount t + 1)); [|reflexivity]. cbn.
    destruct (trips w !! tripId t); reflexivity.
Qed.

Lemma truthy_Str (s : string) : s <> "" -> Js.truthy (Js.Str s) = true.
Proof.
  intros Hs. simpl. destruct (String.eqb_spec s ""); [contradiction | reflexivity].
Qed.

Lemma mismatch_Str (t : Tracker) (s : string) :
  s <> "" -> s <> email t -> email_mismatch t (Js.Str s) = true.
Proof.
  intros Hs Hne. unfold email_mismatch. rewrite (truthy_Str s Hs). simpl.
  destruct (String.eqb_spec (email t) s); [congruence | reflexivity].
Qed.

Lemma mismatch_falsy (t : Tracker) (q : Js.value) :
  Js.truthy q = false -> email_mismatch t q = false.
Proof. intros H. unfold email_mismatch. now rewrite H. Qed.

Lemma expired_in_past (env : Env) (w : World) (t : Tracker) (e : Z) :
  expiresAt t = Some e -> e < clock env (tick w) -> expired_in env w t = true.
Proof. intros He Hlt. unfold expired_in. rewrite He. now apply Z.ltb_lt. Qed.

Lemma expired_in_not (env : Env) (w : World) (t : Tracker) :
  (forall e, expiresAt t = Some e -> clock env (tick w) <= e) ->
  expired_in env w t = false.
Proof.
  intros H. unfold expired_in. destruct (expiresAt t) as [e|]; [|reflexivity].
  apply Z.ltb_ge. now apply H.
Qed.

(** C1, as the code has it.  The read route refuses in the order
    NotFound, Inactive, Expired, EmailMismatch: no tracker gives NotFound;
    an inactive tracker gives Inactive whatever the email and [expiresAt];
    an active tracker whose [expiresAt] lies before the clock reading gives
    Expired whatever the email; an active, unexpired tracker gives
    EmailMismatch for a non-empty email that differs from the stored one;
    and with no email, or an empty one, the email check is skipped and the
    read is never refused: it is granted, unless the access counter has
    reached the end of its column, when the answer is 500. *)
Theorem authorize_order (env : Env) (w : World) (tid : string) (q : Js.value) :
  let r := fst (get_tracker env tid q w) in
  (trackers w !! tid = None -> r = Ok (deny NotFound))
  /\ (forall t, trackers w !! tid = Some t ->
        (isActive t = false -> r = Ok (deny Inactive))
        /\ (isActive t = true ->
            forall e, expiresAt t = Some e -> e < clock env (tick w) ->
                      r = Ok (deny Expired))
        /\ (isActive t = true ->
            (forall e, expiresAt t = Some e -> clock env (tick w) <= e) ->
            (forall s, q = Js.Str s -> s <> "" -> s <> email t ->
                       r = Ok (deny EmailMismatch))
            /\ (Js.truthy q = false ->
                (forall d, r <> Ok (deny d))
                /\ (forall trip, trips w !! tripId t = Some trip ->
                      r = Ok (if int_ok (accessCount t + 1)
                              then mkResponse 200
                                     (TripBody trip t (accessCount t + 1))
                              else mkResponse 500
                                     (ErrorBody "Failed to fetch trip"
                                        "An error occurred while fetching the trip")))))).
Proof.
  cbv zeta. rewrite get_tracker_eq. split.
  - intros ->. reflexivity.
  - intros t ->. split; [|split].
    + intros ->. reflexivity.
    + intros -> e He Hlt. cbn [negb].
      now rewrite (expired_in_past env w t e He Hlt).
    + intros -> Hlive. cbn [negb]. rewrite (expired_in_not env w t Hlive).
      split.
      * intros s -> Hs Hne. now rewrite (mismatch_Str t s Hs Hne).
      * intros Hq. rewrite (mismatch_falsy t q Hq). split.
        -- intros d.
           destruct (int_ok (accessCount t + 1)), (trips w !! tripId t);
             destruct d; discriminate.
        -- intros trip ->. now destruct (int_ok (accessCount t + 1)).
Qed.

Lemma authorize_order_witness :
  fst (get_tracker Demo.env "TRK1" (Js.Str "b@x.com") Demo.w0)
    = Ok (deny EmailMismatch)
  /\ fst (get_tracker Demo.env "NONE" Js.Undefined Demo.w0) = Ok (deny NotFound).
Proof.
  split.
  - refine (proj1 (proj2 (proj2 (proj2 (authorize_order Demo.env Demo.w0 "TRK1"
              (Js.Str "b@x.com")) (Demo.row "TRK1") _)) _ _)
              "b@x.com" _ _ _).
    + reflexivity.
    + reflexivity.
    + intros e He. discriminate.
    + reflexivity.
    + discriminate.
    + discriminate.
  - apply (authorize_order Demo.env Demo.w0 "NONE" Js.Undefined). reflexivity.
Defined.

(** C1 as stated fails for an email that is supplied but empty
    ([?email=]): it differs from the stored email, yet the read is
    granted. *)
Lemma authorize_empty_email_counterexample :
  trackers Demo.w0 !! "TRK1" = Some (Demo.row "TRK1")
  /\ isActive (Demo.row "TRK1") = true
  /\ expiresAt (Demo.row "TRK1") = None
  /\ "" <> email (Demo.row "TRK1")
  /\ fst (get_tracker Demo.env "TRK1" (Js.Str "") Demo.w0)
     = Ok (mkResponse 200 (TripBody Demo.T1 (Demo.row "TRK1") 5))
  /\ fst (get_tracker Demo.env "TRK1" (Js.Str "") Demo.w0)
     <> Ok (deny EmailMismatch).
Proof.
  repeat split; try reflexivity; discriminate.
Qed.

Lemma int_ok_iff (n : Z) : int_ok n = true <-> - INT_MAX - 1 <= n <= INT_MAX.
Proof.
  unfold int_ok. rewrite andb_true_iff, !Z.leb_le. reflexivity.
Qed.

Lemma int_ok_next (c k : Z) :
  0 <= c -> 0 <= k -> c + k <= INT_MAX -> int_ok (c + k) = true.
Proof. intros Hc Hk Hle. apply int_ok_iff. unfold INT_MAX in *. lia. Qed.

(** The read route is its guard followed by its grant. *)
Lemma get_tracker_steps (env : Env) (tid : string) (q : Js.value) (w : World) :
  get_tracker env tid q w =
    (let* g := read_guard env tid q in
     match g with
     | inl r => ret r
     | inr f => read_grant env tid f
     end) w.
Proof.
  unfold get_tracker, read_guard, read_grant, try_catch, bind,
    tripTracker_findUnique_with_trip.
  cbn [mbind option_bind].
  destruct (trackers w !! tid) as [t|] eqn:Ht; [|reflexivity].
  cbn [mbind option_bind].
  destruct (isActive t); [|reflexivity]. cbn [negb].
  unfold has_expired.
  destruct (expiresAt t) as [e|].
  - unfold bind, now, ret. destruct (e <? clock env (tick w)); [reflexivity|].
    destruct (email_mismatch t q); reflexivity.
  - unfold ret. destruct (email_mismatch t q); reflexivity.
Qed.

(** What the grant does to the tracker table: the write adds one to the
    count the store holds when the write happens; the row fetched by the
    guard plays no part in it. *)
Lemma read_grant_trackers (env : Env) (tid : string)
    (f : Tracker * option Trip) (w : World) (t : Tracker) :
  trackers w !! tid = Some t ->
  trackers (snd (read_grant env tid f w)) =
    if int_ok (accessCount t + 1)
    then <[tid := accessed env w t]> (trackers w)
    else trackers w.
Proof.
  intros Ht. unfold read_grant, try_catch, bind, now, tripTracker_update.
  cbn. rewrite Ht. cbn.
  destruct (int_ok (accessCount t + 1)); [|reflexivity]. cbn.
  destruct (snd f); reflexivity.
Qed.

Lemma grants_accumulate (env : Env) (tid : string)
    (fs : list (Tracker * option Trip)) :
  forall (w : World) (t : Tracker),
    trackers w !! tid = Some t ->
    0 <= accessCount t ->
    accessCount t + Z.of_nat (length fs) <= INT_MAX ->
    exists t',
      trackers (grants env tid fs w) !! tid = Some t'
      /\ accessCount t' = accessCount t + Z.of_nat (length fs).
Proof.
  induction fs as [|f fs IH]; intros w t Ht H0 Hle.
  - exists t. split; [exact Ht | simpl; lia].
  - cbn [grants length] in *.
    destruct (IH (snd (read_grant env tid f w)) (accessed env w t))
      as (t' & Ht' & Hc).
    + rewrite (read_grant_trackers env tid f w t Ht).
      rewrite (int_ok_next (accessCount t) 1) by lia.
      apply lookup_insert_eq.
    + cbn. lia.
    + cbn. lia.
    + exists t'. split; [exact Ht'|]. rewrite Hc. cbn. lia.
Qed.

(** What one read does to the tracker table. *)
Lemma get_tracker_trackers (env : Env) (tid : string) (q : Js.value) (w : World) :
  trackers (snd (get_tracker env tid q w)) =
    match trackers w !! tid with
    | Some t =>
        if passes env w t q && int_ok (accessCount t + 1)
        then <[tid := accessed env (after_expiry_check w t) t]> (trackers w)
        else trackers w
    | None => trackers w
    end.
Proof.
  rewrite get_tracker_eq. unfold passes.
  destruct (trackers w !! tid) as [t|]; [|reflexivity].
  destruct (isActive t); [|reflexivity]. cbn [negb andb].
  destruct (expired_in env w t).
  { unfold after_expiry_check. now destruct (expiresAt t). }
  destruct (email_mismatch t q).
  { unfold after_expiry_check. now destruct (expiresAt t). }
  cbn [negb andb].
  destruct (int_ok (accessCount t + 1)); cbn [negb].
  - destruct (trips w !! tripId t); reflexivity.
  - unfold after_expiry_check. now destruct (expiresAt t).
Qed.

Lemma get_tracker_tick (env : Env) (tid : string) (q : Js.value) (w : World)
    (t : Tracker) :
  trackers w !! tid = Some t -> passes env w t q = true ->
  tick (snd (get_tracker env tid q w)) = (2 + tick (after_expiry_check w t))%nat
  /\ (tick w <= tick (after_expiry_check w t))%nat.
Proof.
  intros Ht Hp. rewrite get_tracker_eq, Ht. unfold passes in Hp.
  destruct (isActive t); [|discriminate]. cbn [negb andb] in *.
  destruct (expired_in env w t); [discriminate|].
  destruct (email_mismatch t q); [discriminate|].
  split.
  - destruct (int_ok (accessCount t + 1)); cbn [negb]; [|reflexivity].
    destruct (trips w !! tripId t); reflexivity.
  - unfold after_expiry_check. destruct (expiresAt t); simpl; lia.
Qed.

(** [n] successive reads of a live tracker without expiry add [n], as
    long as the counter has room for them. *)
Lemma reads_accumulate (env : Env) (tid : string) (q : Js.value) (n : nat) :
  forall (w : World) (t : Tracker),
    trackers w !! tid = Some t ->
    isActive t = true -> expiresAt t = None -> email_mismatch t q = false ->
    0 <= accessCount t -> accessCount t + Z.of_nat n <= INT_MAX ->
    exists t',
      trackers (reads env tid q n w) !! tid = Some t'
      /\ accessCount t' = accessCount t + Z.of_nat n.
Proof.
  induction n as [|n IH]; intros w t Ht Ha He Hm H0 Hle.
  - exists t. split; [exact Ht | simpl; lia].
  - cbn [reads].
    destruct (IH (snd (get_tracker env tid q w))
                 (accessed env (after_expiry_check w t) t))
      as (t' & Ht' & Hc).
    + rewrite get_tracker_trackers, Ht. unfold passes, expired_in.
      rewrite Ha, He, Hm, (int_ok_next (accessCount t) 1) by lia.
      cbn. apply lookup_insert_eq.
    + exact Ha.
    + cbn. now rewrite He.
    + exact Hm.
    + cbn. lia.
    + cbn. lia.
    + exists t'. split; [exact Ht'|]. rewrite Hc. cbn. lia.
Qed.

(** C2, as the code has it.  The read route is a guard followed by a grant
    with its own storage call.  The grant adds exactly one to the count the
    store holds at the time of the write (not to the count the guard
    fetched) and sets [lastAccessed] to the clock reading it takes, leaving
    the other trackers alone, so the grants of several reads add up
    whatever their guards saw.  Hence a read that passes the four checks
    adds exactly one to [accessCount] and sets [lastAccessed] to a clock
    reading taken during the request, provided the column can hold the new
    count; at the end of the column's range the store refuses the write,
    the answer is 500 and the tracker table is as it was.  A read that is
    refused leaves the tracker table as it was, and [n] successive granted
    reads add [n]. *)
Theorem read_counts_access (env : Env) (w : World) (tid : string) (q : Js.value) :
  let r := get_tracker env tid q w in
  (forall w0,
      get_tracker env tid q w0 =
        (let* g := read_guard env tid q in
         match g with
         | inl a => ret a
         | inr f => read_grant env tid f
         end) w0)
  /\ (forall (f : Tracker * option Trip) (w2 : World) (t2 : Tracker),
        trackers w2 !! tid = Some t2 ->
        int_ok (accessCount t2 + 1) = true ->
        exists t2',
          trackers (snd (read_grant env tid f w2)) !! tid = Some t2'
          /\ accessCount t2' = accessCount t2 + 1
          /\ lastAccessed t2' = Some (clock env (tick w2))
          /\ (forall other, other <> tid ->
                trackers (snd (read_grant env tid f w2)) !! other
                = trackers w2 !! other))
  /\ (forall (fs : list (Tracker * option Trip)) (w2 : World) (t2 : Tracker),
        trackers w2 !! tid = Some t2 ->
        0 <= accessCount t2 ->
        accessCount t2 + Z.of_nat (length fs) <= INT_MAX ->
        exists t2',
          trackers (grants env tid fs w2) !! tid = Some t2'
          /\ accessCount t2' = accessCount t2 + Z.of_nat (length fs))
  /\ match trackers w !! tid with
     | Some t =>
         (if passes env w t q
          then
            if int_ok (accessCount t + 1)
            then exists t',
                trackers (snd r) !! tid = Some t'
                /\ accessCount t' = accessCount t + 1
                /\ (exists j, (tick w <= j < tick (snd r))%nat
                              /\ lastAccessed t' = Some (clock env j))
                /\ (forall other, other <> tid ->
                       trackers (snd r) !! other = trackers w !! other)
            else
              trackers (snd r) = trackers w
              /\ fst r = Ok (mkResponse 500
                               (ErrorBody "Failed to fetch trip"
                                  "An error occurred while fetching the trip"))
          else trackers (snd r) = trackers w)
         /\ (forall n, isActive t = true -> expiresAt t = None ->
                       email_mismatch t q = false ->
                       0 <= accessCount t ->
                       accessCount t + Z.of_nat n <= INT_MAX ->
               exists t',
                 trackers (reads env tid q n w) !! tid = Some t'
                 /\ accessCount t' = accessCount t + Z.of_nat n)
     | None => trackers (snd r) = trackers w
     end.
Proof.
  cbv zeta. split; [|split; [|split]].
  - intros w0. apply get_tracker_steps.
  - intros f w2 t2 Ht2 Hok.
    rewrite (read_grant_trackers env tid f w2 t2 Ht2), Hok.
    exists (accessed env w2 t2).
    split; [apply lookup_insert_eq|]. split; [reflexivity|].
    split; [reflexivity|].
    intros other Hne. now apply lookup_insert_ne.
  - intros fs w2 t2 Ht2 H0 Hle. now apply grants_accumulate.
  - rewrite get_tracker_trackers.
    destruct (trackers w !! tid) as [t|] eqn:Ht; [|reflexivity].
    split.
    + destruct (passes env w t q) eqn:Hp; [|reflexivity]. cbn [andb].
      destruct (int_ok (accessCount t + 1)) eqn:Hok.
      * destruct (get_tracker_tick env tid q w t Ht Hp) as [Htick Hle].
        exists (accessed env (after_expiry_check w t) t).
        split; [apply lookup_insert_eq|]. split; [reflexivity|].
        split.
        -- exists (tick (after_expiry_check w t)). split; [lia | reflexivity].
        -- intros other Hne. now apply lookup_insert_ne.
      * split; [reflexivity|].
        rewrite get_tracker_eq, Ht. unfold passes in Hp.
        destruct (isActive t); [|discriminate]. cbn [negb andb] in *.
        destruct (expired_in env w t); [discriminate|].
        destruct (email_mismatch t q); [discriminate|].
        now rewrite Hok.
    + intros n Ha He Hm H0 Hle. now apply reads_accumulate.
Qed.

Lemma read_counts_access_witness :
  exists t',
    trackers (snd (read_grant Demo.env "TRK1" (Demo.row_edge, None) Demo.w0))
      !! "TRK1" = Some t'
    /\ accessCount t' = accessCount (Demo.row "TRK1") + 1.
Proof.
  destruct (proj1 (proj2 (read_counts_access Demo.env Demo.w0 "TRK1"
                            Js.Undefined))
              (Demo.row_edge, None) Demo.w0 (Demo.row "TRK1"))
    as (t' & Hrow & Hcount & _).
  - reflexivity.
  - reflexivity.
  - exists t'. split; assumption.
Defined.

(** C2 as stated fails for a tracker whose counter is at the end of its
    column: the read passes the four checks, yet the store refuses the
    increment, the answer is 500 and neither [accessCount] nor
    [lastAccessed] has changed. *)
Lemma read_at_full_counter_counterexample :
  trackers Demo.w_full !! "TRK3" = Some Demo.row_full
  /\ passes Demo.env Demo.w_full Demo.row_full Js.Undefined = true
  /\ status_of (fst (get_tracker Demo.env "TRK3" Js.Undefined Demo.w_full))
     = Some 500
  /\ trackers (snd (get_tracker Demo.env "TRK3" Js.Undefined Demo.w_full))
       !! "TRK3" = Some Demo.row_full
  /\ ~ (exists t',
          trackers (snd (get_tracker Demo.env "TRK3" Js.Undefined Demo.w_full))
            !! "TRK3" = Some t'
          /\ accessCount t' = accessCount Demo.row_full + 1).
Proof.
  repeat split.
  intros (t' & Hrow & Hcount).
  change (trackers (snd (get_tracker Demo.env "TRK3" Js.Undefined Demo.w_full))
            !! "TRK3")
    with (Some Demo.row_full) in Hrow.
  injection Hrow as <-. discriminate.
Qed.

(** ** The validate probe *)

Lemma validate_tracker_eq (env : Env) (tid : string) (w : World) :
  validate_tracker env tid w =
    match trackers w !! tid with
    | None => (Ok (mkResponse 200 (InvalidBody "Tracker not found")), w)
    | Some t =>
        if negb (isActive t)
        then (Ok (mkResponse 200 (InvalidBody "Tracker is inactive")), w)
        else
          let w1 := after_expiry_check w t in
          if expired_in env w t
          then (Ok (mkResponse 200 (InvalidBody "Tracker has expired")), w1)
          else
            match trips w !! tripId t with
            | Some trip =>
                (Ok (mkResponse 200
                       (ValidBody (trackerId t) (tripName trip)
                          (destination trip))), w1)
            | None =>
                (Ok (mkResponse 500
                       (ErrorBody "Failed to validate tracker"
                          "An error occurred while validating the tracker")),
                 snd (console_write ERROR "Validate tracker error:" w1))
            end
    end.
Proof.
  unfold validate_tracker, try_catch, bind, tripTracker_findUnique_with_trip.
  cbn [mbind option_bind].
  destruct (trackers w !! tid) as [t|] eqn:Ht; [|reflexivity].
  cbn [mbind option_bind].
  destruct (isActive t); [|reflexivity]. cbn [negb].
  unfold has_expired, expired_in, after_expiry_check.
  destruct (expiresAt t) as [e|].
  - unfold bind, now, ret. destruct (e <? clock env (tick w)); [reflexivity|].
    destruct (trips w !! tripId t); reflexivity.
  - unfold ret. destruct (trips w !! tripId t); reflexivity.
Qed.

Local Ltac probe_case :=
  intros; simplify_eq/=; try done; try congruence;
  try match goal with
      | H : forall e, expiresAt ?t = Some e -> _, He : expiresAt ?t = Some ?e |- _ =>
          specialize (H e He); lia
      end.

(** C8, as the code has it.  The validate probe writes nothing: trips,
    trackers, the id sequence and the mail record are as before, so no
    [accessCount] or [lastAccessed] changes.  It always answers; the answer
    is valid only for an existing, active tracker whose [expiresAt] is
    unset or not before the clock reading (it may equal it), and such a
    tracker is valid; an invalid answer names its reason. *)
Theorem validate_side_effect_free (env : Env) (w : World) (tid : string) :
  let r := validate_tracker env tid w in
  (trips (snd r) = trips w /\ trackers (snd r) = trackers w
   /\ nextPk (snd r) = nextPk w /\ sent (snd r) = sent w)
  /\ exists resp,
      fst r = Ok resp
      /\ (valid resp = true ->
          exists t, trackers w !! tid = Some t
                    /\ isActive t = true
                    /\ (expiresAt t = None
                        \/ exists e, expiresAt t = Some e
                                     /\ clock env (tick w) <= e))
      /\ (forall t trip,
            trackers w !! tid = Some t -> isActive t = true ->
            (forall e, expiresAt t = Some e -> clock env (tick w) <= e) ->
            trips w !! tripId t = Some trip ->
            valid resp = true)
      /\ (trackers w !! tid = None ->
          resp = mkResponse 200 (InvalidBody "Tracker not found"))
      /\ (forall t, trackers w !! tid = Some t -> isActive t = false ->
            resp = mkResponse 200 (InvalidBody "Tracker is inactive"))
      /\ (forall t e, trackers w !! tid = Some t -> isActive t = true ->
            expiresAt t = Some e -> e < clock env (tick w) ->
            resp = mkResponse 200 (InvalidBody "Tracker has expired")).
Proof.
  cbv zeta. rewrite validate_tracker_eq.
  destruct (trackers w !! tid) as [t|] eqn:Ht.
  2:{ split; [repeat split|]. eexists. split; [reflexivity|].
      repeat apply conj; probe_case. }
  destruct (isActive t) eqn:Ha; cbn [negb].
  2:{ split; [repeat split|]. eexists. split; [reflexivity|].
      repeat apply conj; probe_case. }
  assert (Hframe : trips (after_expiry_check w t) = trips w
                   /\ trackers (after_expiry_check w t) = trackers w
                   /\ nextPk (after_expiry_check w t) = nextPk w
                   /\ sent (after_expiry_check w t) = sent w).
  { unfold after_expiry_check. destruct (expiresAt t); repeat split. }
  destruct (expired_in env w t) eqn:Hexp.
  - assert (exists e, expiresAt t = Some e /\ e < clock env (tick w))
      as (e & He & Hlt).
    { unfold expired_in in Hexp. destruct (expiresAt t) as [e|]; [|discriminate].
      exists e. split; [reflexivity | now apply Z.ltb_lt]. }
    split; [exact Hframe|]. eexists. split; [reflexivity|].
    repeat apply conj; probe_case.
  - assert (Hlive : expiresAt t = None
                    \/ exists e, expiresAt t = Some e
                                 /\ clock env (tick w) <= e).
    { unfold expired_in in Hexp. destruct (expiresAt t) as [e|]; [|now left].
      right. exists e. split; [reflexivity | now apply Z.ltb_ge]. }
    destruct (trips w !! tripId t) as [trip|] eqn:Htrip; cbn [fst snd];
      (split; [exact Hframe|]); (eexists; split; [reflexivity|]);
      repeat apply conj; probe_case.
    + exists t. auto.
    + destruct Hlive as [Hn|(e' & He' & Hle)]; simplify_eq; lia.
    + destruct Hlive as [Hn|(e' & He' & Hle)]; simplify_eq; lia.
Qed.

Lemma validate_side_effect_free_witness :
  exists resp,
    fst (validate_tracker Demo.env "TRK1" Demo.w0) = Ok resp
    /\ valid resp = true.
Proof.
  destruct (validate_side_effect_free Demo.env Demo.w0 "TRK1")
    as (_ & resp & Hresp & _ & Hvalid & _).
  exists resp. split; [exact Hresp|].
  apply (Hvalid (Demo.row "TRK1") Demo.T1).
  - reflexivity.
  - reflexivity.
  - intros e He. discriminate.
  - reflexivity.
Defined.

(** C8 as stated fails on the boundary: a tracker whose [expiresAt]
    equals the clock reading is not in the future, yet it is valid. *)
Lemma validate_boundary_counterexample :
  trackers Demo.w_edge !! "TRK2" = Some Demo.row_edge
  /\ expiresAt Demo.row_edge = Some (clock Demo.env (tick Demo.w_edge))
  /\ fst (validate_tracker Demo.env "TRK2" Demo.w_edge)
     = Ok (mkResponse 200 (ValidBody "TRK2" (Some "Summer") (Some "Cebu")))
  /\ valid (mkResponse 200 (ValidBody "TRK2" (Some "Summer") (Some "Cebu")))
     = true.
Proof.
  repeat split.
Qed.

(** ** Update and deactivate *)

Lemma put_tracker_eq (env : Env) (tid : string) (b : UpdateBody) (q : Js.value)
    (w : World) :
  put_tracker env tid b q w =
    if negb (updateTrackerValidation env b)
    then (Ok (mkResponse 400 (ErrorBody "Validation failed"
                                "Please check your input")), w)
    else
      match trackers w !! tid with
      | None => (Ok (deny NotFound), w)
      | Some t =>
          if email_mismatch t q then (Ok (deny EmailMismatch), w)
          else
            match tripTracker_update env tid (updateData_of env b) w with
            | (Ok t', w') => (Ok (mkResponse 200 (UpdatedBody t')), w')
            | (Throw _, w') =>
                (Ok (mkResponse 500
                       (ErrorBody "Failed to update tracker"
                          "An error occurred while updating the tracker")),
                 snd (console_write ERROR "Update tracker error:" w'))
            end
      end.
Proof.
  unfold put_tracker, try_catch, bind, tripTracker_findUnique.
  destruct (updateTrackerValidation env b); [|reflexivity]. cbn [negb].
  destruct (trackers w !! tid) as [t|]; [|reflexivity].
  destruct (email_mismatch t q); [reflexivity|].
  destruct (tripTracker_update env tid (updateData_of env b) w) as [[t'|e] w'];
    reflexivity.
Qed.

Lemma delete_tracker_eq (env : Env) (tid : string) (q : Js.value) (w : World) :
  delete_tracker env tid q w =
    match trackers w !! tid with
    | None => (Ok (deny NotFound), w)
    | Some t =>
        if email_mismatch t q then (Ok (deny EmailMismatch), w)
        else
          (Ok (mkResponse 200 (MessageBody "Tracker deactivated successfully")),
           set_trackers
             (<[tid := apply_update deactivate_update (clock env (tick w)) t]>
                (trackers w))
             (advance 1 0 w))
    end.
Proof.
  unfold delete_tracker, try_catch, bind, tripTracker_findUnique.
  destruct (trackers w !! tid) as [t|] eqn:Ht; [|reflexivity].
  destruct (email_mismatch t q); [reflexivity|].
  unfold tripTracker_update. cbn. rewrite Ht. reflexivity.
Qed.

(** C6, as the code has it.  An update or deactivate request on an
    existing tracker that carries a non-empty email different from the
    stored one changes nothing at all, and is answered 403: always for
    deactivate, and for update once the body has passed validation. *)
Theorem mismatch_changes_nothing (env : Env) (w : World) (tid : string)
    (t : Tracker) (s : string) :
  trackers w !! tid = Some t -> s <> "" -> s <> email t ->
  (forall b, snd (put_tracker env tid b (Js.Str s) w) = w)
  /\ (forall b, updateTrackerValidation env b = true ->
        fst (put_tracker env tid b (Js.Str s) w) = Ok (deny EmailMismatch))
  /\ delete_tracker env tid (Js.Str s) w = (Ok (deny EmailMismatch), w).
Proof.
  intros Ht Hs Hne. pose proof (mismatch_Str t s Hs Hne) as Hm.
  split; [|split].
  - intros b. rewrite put_tracker_eq, Ht, Hm.
    destruct (updateTrackerValidation env b); reflexivity.
  - intros b Hv. rewrite put_tracker_eq, Hv, Ht, Hm. reflexivity.
  - rewrite delete_tracker_eq, Ht, Hm. reflexivity.
Qed.

Lemma mismatch_changes_nothing_witness :
  delete_tracker Demo.env "TRK1" (Js.Str "b@x.com") Demo.w0
    = (Ok (deny EmailMismatch), Demo.w0).
Proof.
  apply (mismatch_changes_nothing Demo.env Demo.w0 "TRK1" (Demo.row "TRK1")
           "b@x.com").
  - reflexivity.
  - discriminate.
  - discriminate.
Defined.

(** C6 as stated fails for an email that is supplied but empty: it
    differs from the stored email, yet deactivate and update go through. *)
Lemma mismatch_empty_email_counterexample :
  trackers Demo.w0 !! "TRK1" = Some (Demo.row "TRK1")
  /\ "" <> email (Demo.row "TRK1")
  /\ fst (delete_tracker Demo.env "TRK1" (Js.Str "") Demo.w0)
     = Ok (mkResponse 200 (MessageBody "Tracker deactivated successfully"))
  /\ isActive <$> trackers (snd (delete_tracker Demo.env "TRK1" (Js.Str "")
                                   Demo.w0)) !! "TRK1" = Some false
  /\ isActive (Demo.row "TRK1") = true
  /\ status <$> (match fst (put_tracker Demo.env "TRK1"
                              (mkUpdateBody Js.Undefined (Js.Str "123")
                                 Js.Undefined) (Js.Str "") Demo.w0) with
                 | Ok r => Some r
                 | Throw _ => None
                 end) = Some 200
  /\ phone <$> trackers (snd (put_tracker Demo.env "TRK1"
                                (mkUpdateBody Js.Undefined (Js.Str "123")
                                   Js.Undefined) (Js.Str "") Demo.w0)) !! "TRK1"
     = Some (Some "123")
  /\ phone (Demo.row "TRK1") = Some "0917".
Proof.
  repeat split; try reflexivity; discriminate.
Qed.

Lemma updateData_dates (env : Env) (b : UpdateBody) :
  update_dates_ok (updateData_of env b) = given_date_ok env (p_expiresAt b).
Proof.
  unfold update_dates_ok, updateData_of, given_date_ok. cbn.
  destruct (p_expiresAt b) as [| |s]; cbn; try reflexivity.
  destruct (String.eqb s ""); cbn; [reflexivity | now rewrite andb_true_r].
Qed.

(** The stored row after a granted update, column by column. *)
Lemma update_row (env : Env) (tid : string) (b : UpdateBody) (w : World)
    (t : Tracker) :
  trackers w !! tid = Some t ->
  given_date_ok env (p_expiresAt b) = true ->
  exists t',
    fst (tripTracker_update env tid (updateData_of env b) w) = Ok t'
    /\ trackers (snd (tripTracker_update env tid (updateData_of env b) w))
       = <[tid := t']> (trackers w)
    /\ trips (snd (tripTracker_update env tid (updateData_of env b) w))
       = trips w
    /\ travelerName t'
       = match p_travelerName b with
         | Js.Undefined => travelerName t
         | v => Js.or_null v
         end
    /\ phone t'
       = match p_phone b with
         | Js.Undefined => phone t
         | v => Js.or_null v
         end
    /\ expiresAt t'
       = match p_expiresAt b with
         | Js.Undefined => expiresAt t
         | v => if Js.truthy v then parseDate env (toString v) else None
         end
    /\ (tracker_pk t' = tracker_pk t /\ trackerId t' = trackerId t
        /\ tripId t' = tripId t /\ email t' = email t
        /\ saveDate t' = saveDate t /\ isActive t' = isActive t
        /\ accessCount t' = accessCount t /\ lastAccessed t' = lastAccessed t
        /\ createdAt t' = createdAt t).
Proof.
  intros Ht Hd. unfold tripTracker_update.
  rewrite updateData_dates, Hd, Ht. cbn [negb].
  destruct (update_is_empty (updateData_of env b)) eqn:Hempty.
  - exists t. cbn [fst snd]. split; [reflexivity|].
    split; [symmetry; now apply insert_id|]. split; [reflexivity|].
    unfold update_is_empty, updateData_of in Hempty.
    destruct (p_travelerName b), (p_phone b), (p_expiresAt b);
      try discriminate.
    repeat split.
  - cbn. eexists. split; [reflexivity|]. split; [reflexivity|].
    split; [reflexivity|]. cbn.
    split; [now destruct (p_travelerName b)|].
    split; [now destruct (p_phone b)|].
    split; [|repeat split; lia].
    unfold given_date_ok, new_Date in *.
    destruct (p_expiresAt b) as [| |s]; cbn in *; try reflexivity.
    destruct (String.eqb s ""); cbn in *; [reflexivity|].
    destruct (parseDate env s); [reflexivity | discriminate].
Qed.

(** The store's own stamp: a write with at least one column moves
    [updatedAt] to the clock reading of the write. *)
Lemma update_row_stamp (env : Env) (tid : string) (b : UpdateBody) (w : World)
    (t : Tracker) :
  trackers w !! tid = Some t ->
  given_date_ok env (p_expiresAt b) = true ->
  exists t',
    fst (tripTracker_update env tid (updateData_of env b) w) = Ok t'
    /\ updatedAt t'
       = if update_is_empty (updateData_of env b) then updatedAt t
         else clock env (tick w).
Proof.
  intros Ht Hd. unfold tripTracker_update.
  rewrite updateData_dates, Hd, Ht. cbn [negb].
  destruct (update_is_empty (updateData_of env b)).
  - exists t. split; reflexivity.
  - cbn. eexists. split; reflexivity.
Qed.

(** X19.  What the update route does with a body that passes validation.  An
    update of an existing tracker whose email is absent, empty or equal to
    the stored one succeeds whatever [isActive] and [expiresAt] the tracker
    has.  Of [travelerName], [phone] and [expiresAt] exactly the fields
    present in the body are written, an absent field keeps its value, and a
    present field that is empty or [null] becomes [null] (which validation
    lets through for [phone] only); the other data columns, the other
    trackers and the trips are untouched; and the write, unless the body
    names no field at all, moves the row's [updatedAt] to the clock reading
    of the write. *)
Theorem update_is_partial (env : Env) (w : World) (tid : string)
    (b : UpdateBody) (q : Js.value) (t : Tracker) :
  trackers w !! tid = Some t ->
  updateTrackerValidation env b = true ->
  email_mismatch t q = false ->
  given_date_ok env (p_expiresAt b) = true ->
  let r := put_tracker env tid b q w in
  exists t',
    fst r = Ok (mkResponse 200 (UpdatedBody t'))
    /\ trackers (snd r) !! tid = Some t'
    /\ (forall other, other <> tid ->
          trackers (snd r) !! other = trackers w !! other)
    /\ trips (snd r) = trips w
    /\ travelerName t'
       = match p_travelerName b with
         | Js.Undefined => travelerName t
         | v => Js.or_null v
         end
    /\ phone t'
       = match p_phone b with
         | Js.Undefined => phone t
         | v => Js.or_null v
         end
    /\ expiresAt t'
       = match p_expiresAt b with
         | Js.Undefined => expiresAt t
         | v => if Js.truthy v then parseDate env (toString v) else None
         end
    /\ (p_phone b = Js.Null \/ p_phone b = Js.Str "" -> phone t' = None)
    /\ (tracker_pk t' = tracker_pk t /\ trackerId t' = trackerId t
        /\ tripId t' = tripId t /\ email t' = email t
        /\ saveDate t' = saveDate t /\ isActive t' = isActive t
        /\ accessCount t' = accessCount t /\ lastAccessed t' = lastAccessed t
        /\ createdAt t' = createdAt t)
    /\ updatedAt t'
       = match b with
         | mkUpdateBody Js.Undefined Js.Undefined Js.Undefined => updatedAt t
         | _ => clock env (tick w)
         end.
Proof.
  intros Ht Hv Hm Hd. cbv zeta. rewrite put_tracker_eq, Hv, Ht, Hm. cbn [negb].
  destruct (update_row env tid b w t Ht Hd)
    as (t' & Hok & Hrows & Htrips & Hname & Hphone & Hexp & Hrest).
  destruct (update_row_stamp env tid b w t Ht Hd) as (t2 & Hok2 & Hstamp).
  destruct (tripTracker_update env tid (updateData_of env b) w) as [[t1|e] w1];
    cbn [fst snd] in *; [|discriminate].
  injection Hok as ->. injection Hok2 as <-. exists t'.
  split; [reflexivity|].
  split; [rewrite Hrows; apply lookup_insert_eq|].
  split; [intros other Hne; rewrite Hrows; now apply lookup_insert_ne|].
  split; [exact Htrips|]. split; [exact Hname|]. split; [exact Hphone|].
  split; [exact Hexp|]. split; [|split; [exact Hrest|]].
  - intros [Hp|Hp]; rewrite Hphone, Hp; reflexivity.
  - rewrite Hstamp. unfold update_is_empty, updateData_of.
    destruct b as [[| |n] [| |p] [| |x]]; reflexivity.
Qed.

Lemma update_is_partial_witness :
  exists t',
    fst (put_tracker Demo.env "TRK1"
           (mkUpdateBody Js.Undefined (Js.Str "") Js.Undefined) Js.Undefined
           Demo.w0)
      = Ok (mkResponse 200 (UpdatedBody t'))
    /\ phone t' = None
    /\ travelerName t' = Some "Ann".
Proof.
  destruct (update_is_partial Demo.env Demo.w0 "TRK1"
              (mkUpdateBody Js.Undefined (Js.Str "") Js.Undefined) Js.Undefined
              (Demo.row "TRK1"))
    as (t' & Hok & _ & _ & _ & Hname & Hphone & _).
  - reflexivity.
  - reflexivity.
  - reflexivity.
  - reflexivity.
  - exists t'. split; [exact Hok|]. split; [exact Hphone | exact Hname].
Defined.

(** C7.  The update route at the inputs where it departs from the claim.
    A body whose [travelerName] is the empty string or [null] is answered
    400 and changes nothing, whatever the tracker, the other fields and the
    email, although for that very body the handler's [updateData] would set
    the column to [null]; the same happens to an [expiresAt] that is empty
    or [null].  The sibling field [phone], sent empty in the same way,
    passes validation and is cleared. *)
Theorem update_cannot_clear (env : Env) (w : World) (tid : string)
    (q p x : Js.value) :
  (put_tracker env tid (mkUpdateBody (Js.Str "") p x) q w
   = (Ok (mkResponse 400 (ErrorBody "Validation failed"
                            "Please check your input")), w)
   /\ put_tracker env tid (mkUpdateBody Js.Null p x) q w
      = (Ok (mkResponse 400 (ErrorBody "Validation failed"
                               "Please check your input")), w))
  /\ (u_travelerName (updateData_of env (mkUpdateBody (Js.Str "") p x))
      = Some None
      /\ u_travelerName (updateData_of env (mkUpdateBody Js.Null p x))
         = Some None
      /\ u_expiresAt (updateData_of env (mkUpdateBody p x Js.Null))
         = Some None)
  /\ (put_tracker Demo.env "TRK1"
        (mkUpdateBody Js.Undefined Js.Undefined (Js.Str "")) Js.Undefined
        Demo.w0
      = (Ok (mkResponse 400 (ErrorBody "Validation failed"
                               "Please check your input")), Demo.w0)
      /\ put_tracker Demo.env "TRK1"
           (mkUpdateBody Js.Undefined Js.Undefined Js.Null) Js.Undefined
           Demo.w0
         = (Ok (mkResponse 400 (ErrorBody "Validation failed"
                                  "Please check your input")), Demo.w0)
      /\ travelerName <$> trackers Demo.w0 !! "TRK1" = Some (Some "Ann"))
  /\ (phone <$> trackers Demo.w0 !! "TRK1" = Some (Some "0917")
      /\ status_of (fst (put_tracker Demo.env "TRK1"
                           (mkUpdateBody Js.Undefined (Js.Str "") Js.Undefined)
                           Js.Undefined Demo.w0)) = Some 200
      /\ phone <$> trackers (snd (put_tracker Demo.env "TRK1"
                                    (mkUpdateBody Js.Undefined (Js.Str "")
                                       Js.Undefined)
                                    Js.Undefined Demo.w0)) !! "TRK1"
         = Some None).
Proof.
  repeat split.
Qed.

(** ** Creating a tracker *)

Lemma saveDate_of_eq (env : Env) (v : Js.value) (w : World) :
  saveDate_of env v w =
    if Js.truthy v then (Ok (new_Date env (toString v)), w)
    else (Ok (Js.ValidDate (clock env (tick w))), advance 1 0 w).
Proof. unfold saveDate_of. destruct (Js.truthy v); reflexivity. Qed.

(** The create route once validation has passed, the trip is found and an
    identifier is obtained: the remaining steps in order. *)
Lemma post_tracker_with_eq (env : Env) (send : Dispatcher) (b : CreateBody)
    (w w1 : World) (tid e id : string) (trip : Trip) :
  createTrackerValidation env b = true ->
  c_tripId b = Js.Str tid ->
  c_email b = Js.Str e ->
  trips w !! tid = Some trip ->
  ensureUniqueTrackerId env 10 w = (Ok id, w1) ->
  post_tracker_with env send b w =
    match saveDate_of env (c_saveDate b) w1 with
    | (Throw _, w2) => create_failed w2
    | (Ok sd, w2) =>
        match update_startDate env tid (c_startDate b) w2 with
        | (Throw _, w3) => create_failed w3
        | (Ok _, w3) =>
            match tripTracker_create env
                    (mkTrackerData id tid (normalizeEmail env e)
                       (Js.or_null (c_travelerName b)) (Js.or_null (c_phone b))
                       sd (expiresAt_of env (c_expiresAt b))) w3 with
            | (Throw _, w4) => create_failed w4
            | (Ok row, w4) =>
                match send_confirmation send (normalizeEmail env e) id
                        (trips w4 !! tid) w4 with
                | (Throw _, w5) => create_failed w5
                | (Ok _, w5) =>
                    (Ok (mkResponse 201
                           (CreatedBody row (tripName trip) (destination trip))),
                     w5)
                end
            end
        end
    end.
Proof.
  intros Hv Ht He Htrip Hrun.
  unfold post_tracker_with, try_catch, bind, sanitized_email, create_failed.
  rewrite Hv, Ht, He. cbn [negb string_arg ret].
  unfold trip_findUnique at 1. rewrite Htrip, Hrun.
  destruct (saveDate_of env (c_saveDate b) w1) as [[sd|ex] w2]; [|reflexivity].
  destruct (update_startDate env tid (c_startDate b) w2) as [[tr|ex] w3];
    [|reflexivity].
  destruct (tripTracker_create env _ w3) as [[row|ex] w4]; [|reflexivity].
  unfold trip_findUnique.
  destruct (send_confirmation send _ id _ w4) as [[u|ex] w5]; reflexivity.
Qed.

Lemma ensureUnique_ok (env : Env) (n : nat) (w : World) (id : string) :
  fst (ensureUniqueTrackerId env n w) = Ok id ->
  exists k,
    ensureUniqueTrackerId env n w = (Ok id, advance (S k) (S k) w)
    /\ trackers w !! id = None.
Proof.
  intros Hid.
  destruct (ensureUnique_spec env n w)
    as [(k & _ & Hfree & _ & Hrun)|[_ Hrun]];
    rewrite Hrun in Hid; cbn [fst] in Hid; [|discriminate].
  injection Hid as <-. exists k. split; [exact Hrun|].
  unfold collides in Hfree.
  destruct (trackers w !! candidate env w k); [discriminate | reflexivity].
Qed.

Lemma saveDate_ok (env : Env) (v : Js.value) (w : World) :
  exists sd w',
    saveDate_of env v w = (Ok sd, w')
    /\ date_ok sd = given_date_ok env v
    /\ trips w' = trips w /\ trackers w' = trackers w
    /\ nextPk w' = nextPk w /\ sent w' = sent w
    /\ (tick w <= tick w')%nat.
Proof.
  rewrite saveDate_of_eq. unfold given_date_ok.
  destruct (Js.truthy v); eexists _, _; (split; [reflexivity|]);
    cbn; repeat split; lia.
Qed.

Lemma expiresAt_ok (env : Env) (v : Js.value) :
  opt_date_ok (expiresAt_of env v) = given_date_ok env v.
Proof. unfold expiresAt_of, given_date_ok. now destruct (Js.truthy v). Qed.

(** The start-date write: what it stores and what it leaves. *)
Lemma update_startDate_ok (env : Env) (tid : string) (v : Js.value)
    (w : World) (trip : Trip) :
  trips w !! tid = Some trip ->
  given_date_ok env v = true ->
  exists trip' w',
    update_startDate env tid v w = (Ok trip', w')
    /\ trips w' !! tid = Some trip'
    /\ trackers w' = trackers w /\ nextPk w' = nextPk w /\ sent w' = sent w
    /\ (tick w < tick w')%nat
    /\ (if Js.truthy v
        then startDate trip' = parseDate env (toString v)
        else startDate trip' = Some (clock env (tick w))).
Proof.
  intros Htrip Hd. unfold update_startDate, given_date_ok, new_Date in *.
  destruct (Js.truthy v); cbn [negb orb] in Hd.
  - destruct (parseDate env (toString v)) as [ms|]; [|discriminate].
    unfold trip_update_startDate. rewrite Htrip. cbn.
    eexists _, _. split; [reflexivity|]. cbn.
    split; [apply lookup_insert_eq|]. repeat split. lia.
  - unfold bind, now, trip_update_startDate. cbn. rewrite Htrip. cbn.
    eexists _, _. split; [reflexivity|]. cbn.
    split; [apply lookup_insert_eq|]. repeat split. lia.
Qed.

Lemma update_startDate_invalid (env : Env) (tid : string) (v : Js.value)
    (w : World) :
  given_date_ok env v = false ->
  update_startDate env tid v w = (Throw PrismaValidationError, w).
Proof.
  unfold update_startDate, given_date_ok, new_Date.
  destruct (Js.truthy v); cbn [negb orb]; [|discriminate].
  destruct (parseDate env (toString v)); [discriminate | reflexivity].
Qed.

(** The insert: the row it stores and what it leaves. *)
Lemma tripTracker_create_ok (env : Env) (d : TrackerData) (w : World) :
  date_ok (d_saveDate d) && opt_date_ok (d_expiresAt d) = true ->
  trackers w !! d_trackerId d = None ->
  exists row w',
    tripTracker_create env d w = (Ok row, w')
    /\ trackers w' = <[d_trackerId d := row]> (trackers w)
    /\ trips w' = trips w /\ sent w' = sent w
    /\ (tick w <= tick w')%nat
    /\ trackerId row = d_trackerId d /\ tripId row = d_tripId d
    /\ email row = d_email d /\ isActive row = true /\ accessCount row = 0.
Proof.
  intros Hd Hfree. unfold tripTracker_create. rewrite Hd, Hfree. cbn.
  eexists _, _. split; [reflexivity|]. cbn. repeat split. lia.
Qed.

Lemma tripTracker_create_invalid (env : Env) (d : TrackerData) (w : World) :
  date_ok (d_saveDate d) && opt_date_ok (d_expiresAt d) = false ->
  tripTracker_create env d w = (Throw PrismaValidationError, w).
Proof. intros Hd. unfold tripTracker_create. now rewrite Hd. Qed.

(** The inner [try]/[catch] never lets an error out: whatever the
    dispatcher does, one console line is written and the route goes on. *)
Lemma send_confirmation_eq (send : Dispatcher) (to id : string) (t : Trip)
    (w : World) :
  send_confirmation send to id (Some t) w =
    match send to id w with
    | (Ok (EmailSent _), ws) =>
        (Ok tt, snd (console_write LOG
                       "Trip tracker email sent successfully to" ws))
    | (Ok EmailFailed, ws) =>
        (Ok tt, snd (console_write WARN
                       "Failed to send trip tracker email to" ws))
    | (Throw _, ws) =>
        (Ok tt, snd (console_write ERROR
                       "Error sending trip tracker email:" ws))
    end.
Proof.
  unfold send_confirmation, try_catch, bind.
  destruct (send to id w) as [[[mid|]|ex] ws]; reflexivity.
Qed.

(** The dispatcher of [emailService.js]: one attempt is recorded, a
    transport error comes back as a failure result, nothing is thrown. *)
Lemma sendTripTrackerEmail_eq (env : Env) (to id : string) (w : World) :
  exists w',
    sendTripTrackerEmail env to id w =
      (match smtp env (length (sent w)) with
       | Some messageId => Ok (EmailSent messageId)
       | None => Ok EmailFailed
       end, w')
    /\ trips w' = trips w /\ trackers w' = trackers w
    /\ nextPk w' = nextPk w
    /\ sent w' = (sent w ++ [mkMail to id])%list
    /\ tick w' = tick w.
Proof.
  unfold sendTripTrackerEmail, try_catch, bind, createTransporter, sendMail.
  cbn. destruct (smtp env (length (sent w))); cbn;
    eexists; (split; [reflexivity|]); repeat split.
Qed.

Lemma sendTripTrackerEmail_framed (env : Env) :
  store_framed (sendTripTrackerEmail env).
Proof.
  intros to id w.
  destruct (sendTripTrackerEmail_eq env to id w) as (w' & -> & ? & ? & ? & _ & _).
  cbn [snd]. repeat split; assumption.
Qed.

(** C9.  When validation, the trip lookup, the identifier generation, the
    start-date write and the insert of a create request succeed, the answer
    is 201 and the inserted row is in the table afterwards, whatever the
    dispatcher does: a success, a returned failure and a thrown error each
    only add a console line (LOG, WARN, ERROR).  This holds for every
    dispatcher that keeps off the tables; the dispatcher of
    [emailService.js] is one, and it turns a transport error into a
    returned failure. *)
Theorem notification_failure_is_logged (env : Env) (send : Dispatcher)
    (b : CreateBody) (w : World) (tid e id : string) (trip : Trip) :
  store_framed send ->
  createTrackerValidation env b = true ->
  c_tripId b = Js.Str tid ->
  c_email b = Js.Str e ->
  trips w !! tid = Some trip ->
  fst (ensureUniqueTrackerId env 10 w) = Ok id ->
  given_date_ok env (c_startDate b) = true ->
  given_date_ok env (c_saveDate b) = true ->
  given_date_ok env (c_expiresAt b) = true ->
  let r := post_tracker_with env send b w in
  (exists row,
      fst r = Ok (mkResponse 201
                    (CreatedBody row (tripName trip) (destination trip)))
      /\ trackers (snd r) !! id = Some row
      /\ trackerId row = id /\ tripId row = tid
      /\ email row = normalizeEmail env e
      /\ exists w4,
          trackers w4 !! id = Some row
          /\ match send (normalizeEmail env e) id w4 with
             | (Ok (EmailSent _), ws) =>
                 console (snd r)
                 = (console ws
                    ++ [(LOG, "Trip tracker email sent successfully to")])%list
             | (Ok EmailFailed, ws) =>
                 console (snd r)
                 = (console ws
                    ++ [(WARN, "Failed to send trip tracker email to")])%list
             | (Throw _, ws) =>
                 console (snd r)
                 = (console ws
                    ++ [(ERROR, "Error sending trip tracker email:")])%list
             end)
  /\ store_framed (sendTripTrackerEmail env)
  /\ (forall to tid' w',
        smtp env (length (sent w')) = None ->
        fst (sendTripTrackerEmail env to tid' w') = Ok EmailFailed).
Proof.
  intros Hsend Hv Ht He Htrip Hid Hstart Hsave Hexp. cbv zeta.
  split; [|split; [apply sendTripTrackerEmail_framed|]].
  2:{ intros to tid' w' Hsmtp.
      destruct (sendTripTrackerEmail_eq env to tid' w') as (w'' & -> & _).
      now rewrite Hsmtp. }
  destruct (ensureUnique_ok env 10 w id Hid) as (k & Hrun & Hfree).
  rewrite (post_tracker_with_eq env send b w _ tid e id trip Hv Ht He Htrip Hrun).
  destruct (saveDate_ok env (c_saveDate b) (advance (S k) (S k) w))
    as (sd & w2 & -> & Hsd & Htr2 & Hrows2 & _ & _ & _).
  destruct (update_startDate_ok env tid (c_startDate b) w2 trip)
    as (trip' & w3 & -> & Htrip3 & Hrows3 & _ & _ & _ & _);
    [now rewrite Htr2 | exact Hstart |].
  destruct (tripTracker_create_ok env
              (mkTrackerData id tid (normalizeEmail env e)
                 (Js.or_null (c_travelerName b)) (Js.or_null (c_phone b))
                 sd (expiresAt_of env (c_expiresAt b))) w3)
    as (row & w4 & -> & Hrows4 & Htr4 & _ & _ & Hid4 & Htid4 & Hmail4 & _).
  { cbn. now rewrite Hsd, expiresAt_ok, Hsave, Hexp. }
  { cbn. now rewrite Hrows3, Hrows2. }
  cbn [d_trackerId d_tripId d_email] in *.
  rewrite Htr4, Htrip3, send_confirmation_eq.
  assert (Hrow4 : trackers w4 !! id = Some row).
  { rewrite Hrows4. apply lookup_insert_eq. }
  destruct (Hsend (normalizeEmail env e) id w4) as (_ & Hkeep & _).
  exists row.
  destruct (send (normalizeEmail env e) id w4) as [[[mid|]|ex] ws] eqn:Hs;
    unfold console_write; cbn [fst snd trackers console] in *;
    (split; [reflexivity|]);
    (split; [now rewrite Hkeep|]);
    (split; [exact Hid4|]); (split; [exact Htid4|]); (split; [exact Hmail4|]);
    exists w4; (split; [exact Hrow4|]); rewrite Hs; reflexivity.
Qed.

Lemma notification_failure_is_logged_witness :
  exists row,
    fst (post_tracker_with Demo.env_nomail (sendTripTrackerEmail Demo.env_nomail)
           (Demo.body Js.Undefined Js.Undefined) Demo.w0)
    = Ok (mkResponse 201 (CreatedBody row (Some "Summer") (Some "Cebu")))
    /\ trackers
         (snd (post_tracker_with Demo.env_nomail
                 (sendTripTrackerEmail Demo.env_nomail)
                 (Demo.body Js.Undefined Js.Undefined) Demo.w0))
         !! "TRKABC1233456" = Some row.
Proof.
  destruct (notification_failure_is_logged Demo.env_nomail
              (sendTripTrackerEmail Demo.env_nomail)
              (Demo.body Js.Undefined Js.Undefined) Demo.w0
              "T1" "a@x.com" "TRKABC1233456" Demo.T1)
    as [(row & Hok & Hrow & _) _].
  - apply sendTripTrackerEmail_framed.
  - reflexivity.
  - reflexivity.
  - reflexivity.
  - reflexivity.
  - reflexivity.
  - reflexivity.
  - reflexivity.
  - reflexivity.
  - exists row. split; [exact Hok | exact Hrow].
Defined.

(** The create route with the dispatcher of [emailService.js], from the
    start-date write on: the write is made in either case; the insert then
    decides between a full success and the catch-all answer. *)
Lemma post_tracker_outcome (env : Env) (b : CreateBody) (w : World)
    (tid e id : string) (trip : Trip) :
  createTrackerValidation env b = true ->
  c_tripId b = Js.Str tid ->
  c_email b = Js.Str e ->
  trips w !! tid = Some trip ->
  fst (ensureUniqueTrackerId env 10 w) = Ok id ->
  given_date_ok env (c_startDate b) = true ->
  let r := post_tracker env b w in
  exists trip' j,
    (tick w <= j < tick (snd r))%nat
    /\ trips (snd r) !! tid = Some trip'
    /\ startDate trip'
       = (if Js.truthy (c_startDate b)
          then parseDate env (toString (c_startDate b))
          else Some (clock env j))
    /\ if given_date_ok env (c_saveDate b) && given_date_ok env (c_expiresAt b)
       then exists row,
           fst r = Ok (mkResponse 201
                         (CreatedBody row (tripName trip) (destination trip)))
           /\ trackers w !! id = None
           /\ trackers (snd r) = <[id := row]> (trackers w)
           /\ sent (snd r) = (sent w ++ [mkMail (normalizeEmail env e) id])%list
       else fst r = fst (create_failed w)
            /\ trackers (snd r) = trackers w
            /\ sent (snd r) = sent w.
Proof.
  intros Hv Ht He Htrip Hid Hstart. cbv zeta. unfold post_tracker.
  destruct (ensureUnique_ok env 10 w id Hid) as (k & Hrun & Hfree).
  rewrite (post_tracker_with_eq env _ b w _ tid e id trip Hv Ht He Htrip Hrun).
  destruct (saveDate_ok env (c_saveDate b) (advance (S k) (S k) w))
    as (sd & w2 & -> & Hsd & Htr2 & Hrows2 & _ & Hsent2 & Htick2).
  destruct (update_startDate_ok env tid (c_startDate b) w2 trip)
    as (trip' & w3 & -> & Htrip3 & Hrows3 & _ & Hsent3 & Htick3 & Hdate);
    [now rewrite Htr2 | exact Hstart |].
  cbn [tick advance] in Htick2.
  exists trip', (tick w2).
  assert (Hdate' : startDate trip'
                   = if Js.truthy (c_startDate b)
                     then parseDate env (toString (c_startDate b))
                     else Some (clock env (tick w2))).
  { now destruct (Js.truthy (c_startDate b)). }
  destruct (given_date_ok env (c_saveDate b)
            && given_date_ok env (c_expiresAt b)) eqn:Hins.
  - destruct (tripTracker_create_ok env
                (mkTrackerData id tid (normalizeEmail env e)
                   (Js.or_null (c_travelerName b)) (Js.or_null (c_phone b))
                   sd (expiresAt_of env (c_expiresAt b))) w3)
      as (row & w4 & -> & Hrows4 & Htr4 & Hsent4 & Htick4 & _).
    { cbn. now rewrite Hsd, expiresAt_ok. }
    { cbn. now rewrite Hrows3, Hrows2. }
    cbn [d_trackerId] in *.
    rewrite Htr4, Htrip3, send_confirmation_eq.
    destruct (sendTripTrackerEmail_eq env (normalizeEmail env e) id w4)
      as (w5 & -> & Htr5 & Hrows5 & _ & Hsent5 & Htick5).
    assert (Hfinal : forall l msg,
               let wf := snd (console_write l msg w5) in
               (tick w <= tick w2 < tick wf)%nat
               /\ trips wf !! tid = Some trip'
               /\ trackers wf = <[id := row]> (trackers w)
               /\ sent wf = (sent w ++ [mkMail (normalizeEmail env e) id])%list).
    { intros l msg. cbn.
      rewrite Htr5, Htr4, Hrows5, Hrows4, Hrows3, Hrows2, Hsent5, Hsent4,
        Hsent3, Hsent2, Htick5.
      repeat split; [lia | lia | exact Htrip3]. }
    destruct (smtp env (length (sent w4))) as [mid|]; cbn [fst snd];
      match goal with
      | |- context [console_write ?l ?msg w5] =>
          destruct (Hfinal l msg) as (Hj & Htrips & Hrows & Hout)
      end;
      (split; [exact Hj|]); (split; [exact Htrips|]); (split; [exact Hdate'|]);
      exists row; repeat split; assumption.
  - rewrite tripTracker_create_invalid.
    2:{ cbn. now rewrite Hsd, expiresAt_ok. }
    unfold create_failed. cbn.
    rewrite Hrows3, Hrows2, Hsent3, Hsent2.
    repeat split; [lia | lia | exact Htrip3 | exact Hdate'].
Qed.

(** C3, as the code has it.  Once a create request is past validation,
    the trip lookup, the identifier generation and the start-date write,
    the insert decides.  If it is accepted the route succeeds in full:
    status 201, the row stored, the trip's start date written, one
    notification attempted.  If it is rejected (a given [saveDate] or
    [expiresAt] that is not a date) the answer is 500, no notification is
    attempted and no tracker row is stored; the start date written before
    the insert stays written. *)
Theorem create_commit_or_report (env : Env) (b : CreateBody) (w : World)
    (tid e id : string) (trip : Trip) :
  createTrackerValidation env b = true ->
  c_tripId b = Js.Str tid ->
  c_email b = Js.Str e ->
  trips w !! tid = Some trip ->
  fst (ensureUniqueTrackerId env 10 w) = Ok id ->
  given_date_ok env (c_startDate b) = true ->
  let r := post_tracker env b w in
  exists trip',
    trips (snd r) !! tid = Some trip'
    /\ (Js.truthy (c_startDate b) = true ->
        startDate trip' = parseDate env (toString (c_startDate b)))
    /\ (Js.truthy (c_startDate b) = false ->
        exists j, (tick w <= j < tick (snd r))%nat
                  /\ startDate trip' = Some (clock env j))
    /\ if given_date_ok env (c_saveDate b) && given_date_ok env (c_expiresAt b)
       then exists row,
           fst r = Ok (mkResponse 201
                         (CreatedBody row (tripName trip) (destination trip)))
           /\ trackers (snd r) = <[id := row]> (trackers w)
           /\ sent (snd r) = (sent w ++ [mkMail (normalizeEmail env e) id])%list
       else (exists body, fst r = Ok (mkResponse 500 body))
            /\ trackers (snd r) = trackers w
            /\ sent (snd r) = sent w.
Proof.
  intros Hv Ht He Htrip Hid Hstart. cbv zeta.
  destruct (post_tracker_outcome env b w tid e id trip Hv Ht He Htrip Hid Hstart)
    as (trip' & j & Hj & Htrips & Hdate & Hins).
  exists trip'. split; [exact Htrips|].
  split; [intros Htruthy; now rewrite Htruthy in Hdate|].
  split; [intros Hfalsy; rewrite Hfalsy in Hdate; now exists j|].
  destruct (given_date_ok env (c_saveDate b)
            && given_date_ok env (c_expiresAt b)).
  - destruct Hins as (row & Hok & _ & Hrows & Hsent).
    exists row. repeat split; assumption.
  - destruct Hins as (Hfail & Hrows & Hsent).
    split; [|split; assumption].
    eexists. rewrite Hfail. reflexivity.
Qed.

Lemma create_commit_or_report_witness :
  (exists body,
      fst (post_tracker Demo.env (Demo.body Js.Undefined (Js.Str "garbage"))
             Demo.w0) = Ok (mkResponse 500 body))
  /\ sent (snd (post_tracker Demo.env
                  (Demo.body Js.Undefined (Js.Str "garbage")) Demo.w0)) = [].
Proof.
  destruct (create_commit_or_report Demo.env
              (Demo.body Js.Undefined (Js.Str "garbage")) Demo.w0
              "T1" "a@x.com" "TRKABC1233456" Demo.T1)
    as (trip' & _ & _ & _ & Hins).
  - reflexivity.
  - reflexivity.
  - reflexivity.
  - reflexivity.
  - reflexivity.
  - reflexivity.
  - change (given_date_ok Demo.env (c_saveDate _)
            && given_date_ok Demo.env (c_expiresAt _)) with false in Hins.
    destruct Hins as (Hfail & _ & Hsent). split; [exact Hfail | exact Hsent].
Defined.

(** C3 as stated fails: a create request whose [expiresAt] is not a date
    has its insert rejected after the trip's start date was overwritten.
    The answer is 500, no row and no mail, but the start date has moved. *)
Lemma create_partial_commit_counterexample :
  status <$> (match fst (post_tracker Demo.env
                           (Demo.body Js.Undefined (Js.Str "garbage")) Demo.w0)
              with
              | Ok resp => Some resp
              | Throw _ => None
              end) = Some 500
  /\ trackers (snd (post_tracker Demo.env
                      (Demo.body Js.Undefined (Js.Str "garbage")) Demo.w0))
     = trackers Demo.w0
  /\ sent (snd (post_tracker Demo.env
                  (Demo.body Js.Undefined (Js.Str "garbage")) Demo.w0)) = []
  /\ startDate <$> trips Demo.w0 !! "T1" = Some (Some 1700000000000)
  /\ startDate <$> trips (snd (post_tracker Demo.env
                                 (Demo.body Js.Undefined (Js.Str "garbage"))
                                 Demo.w0)) !! "T1"
     = Some (Some 1730525123458).
Proof.
  repeat split.
Qed.

(** One of the ten attempts of the create route finds a free identifier:
    the loop returns it. *)
Lemma ensureUnique_finds (env : Env) (n : nat) (w : World) :
  (exists k, (k < n)%nat /\ collides env w k = false) ->
  exists id w1,
    ensureUniqueTrackerId env n w = (Ok id, w1)
    /\ trips w1 = trips w /\ trackers w1 = trackers w /\ sent w1 = sent w.
Proof.
  intros (k & Hk & Hfree).
  destruct (ensureUnique_spec env n w) as [(k' & _ & _ & _ & Hrun)|[Hall _]].
  - eexists _, _. split; [exact Hrun|]. repeat split.
  - rewrite (Hall k Hk) in Hfree. discriminate.
Qed.

(** C4, as the code has it.  A create request that passes validation, on
    an existing trip, for which one of the ten generated identifiers is
    free, sets the trip's start date whatever it was before: without a
    [startDate] to a clock reading taken during the request, with a
    [startDate] that [Date] parses to the date it denotes.  A [startDate]
    that passed validation but that [Date] does not parse is refused by
    the store: the answer is 500 and trips, trackers and the mail record
    are as they were. *)
Theorem create_overwrites_start_date (env : Env) (b : CreateBody) (w : World)
    (tid e : string) (trip : Trip) :
  createTrackerValidation env b = true ->
  c_tripId b = Js.Str tid ->
  c_email b = Js.Str e ->
  trips w !! tid = Some trip ->
  (exists k, (k < 10)%nat /\ collides env w k = false) ->
  let r := post_tracker env b w in
  (Js.truthy (c_startDate b) = false ->
   exists trip' j,
     (tick w <= j < tick (snd r))%nat
     /\ trips (snd r) !! tid = Some trip'
     /\ startDate trip' = Some (clock env j))
  /\ (forall s ms,
        c_startDate b = Js.Str s -> s <> "" -> parseDate env s = Some ms ->
        exists trip',
          trips (snd r) !! tid = Some trip' /\ startDate trip' = Some ms)
  /\ (forall s,
        c_startDate b = Js.Str s -> s <> "" -> parseDate env s = None ->
        (exists body, fst r = Ok (mkResponse 500 body))
        /\ trips (snd r) = trips w
        /\ trackers (snd r) = trackers w
        /\ sent (snd r) = sent w).
Proof.
  intros Hv Ht He Htrip Hfree. cbv zeta.
  destruct (ensureUnique_finds env 10 w Hfree)
    as (id & w1 & Hrun & Htr1 & Hrows1 & Hsent1).
  assert (Hid : fst (ensureUniqueTrackerId env 10 w) = Ok id)
    by now rewrite Hrun.
  split; [|split].
  - intros Hfalsy.
    destruct (post_tracker_outcome env b w tid e id trip Hv Ht He Htrip Hid)
      as (trip' & j & Hj & Htrips & Hdate & _).
    { unfold given_date_ok. now rewrite Hfalsy. }
    rewrite Hfalsy in Hdate. exists trip', j. repeat split; try assumption; lia.
  - intros s ms Hs Hne Hparse.
    assert (Htruthy : Js.truthy (c_startDate b) = true).
    { rewrite Hs. now apply truthy_Str. }
    destruct (post_tracker_outcome env b w tid e id trip Hv Ht He Htrip Hid)
      as (trip' & j & _ & Htrips & Hdate & _).
    { unfold given_date_ok, new_Date. rewrite Hs. cbn [toString].
      rewrite Hparse. apply orb_true_r. }
    rewrite Htruthy, Hs in Hdate. cbn [toString] in Hdate.
    exists trip'. split; [exact Htrips | now rewrite Hdate].
  - intros s Hs Hne Hparse.
    unfold post_tracker.
    rewrite (post_tracker_with_eq env _ b w w1 tid e id trip Hv Ht He Htrip Hrun).
    destruct (saveDate_ok env (c_saveDate b) w1)
      as (sd & w2 & -> & _ & Htr2 & Hrows2 & _ & Hsent2 & _).
    rewrite update_startDate_invalid.
    2:{ unfold given_date_ok, new_Date. rewrite Hs. cbn [toString].
        rewrite (truthy_Str s Hne), Hparse. reflexivity. }
    unfold create_failed. cbn [fst snd].
    split; [eexists; reflexivity|].
    unfold console_write. cbn [snd trips trackers sent].
    repeat split; congruence.
Qed.

Lemma create_overwrites_start_date_witness :
  startDate Demo.T1 = Some 1700000000000
  /\ exists trip' j,
      trips (snd (post_tracker Demo.env (Demo.body Js.Undefined Js.Undefined)
                    Demo.w0)) !! "T1" = Some trip'
      /\ startDate trip' = Some (clock Demo.env j).
Proof.
  split; [reflexivity|].
  destruct (create_overwrites_start_date Demo.env
              (Demo.body Js.Undefined Js.Undefined) Demo.w0
              "T1" "a@x.com" Demo.T1)
    as [Hnow _].
  - reflexivity.
  - reflexivity.
  - reflexivity.
  - reflexivity.
  - exists 0%nat. split; [lia | reflexivity].
  - destruct (Hnow eq_refl) as (trip' & j & _ & Htrips & Hdate).
    exists trip', j. split; assumption.
Defined.

(** C4 as stated fails.  The week date ["2024-W05"] is ISO 8601 and passes
    validation, but [Date] does not parse it: the create request is
    answered 500 and the trip's start date is not set to the supplied
    value, it stays as it was.  And a request without [startDate] for
    which all ten generated identifiers are taken is answered 500 before
    the start date is touched. *)
Lemma create_keeps_start_date_counterexample :
  (createTrackerValidation Demo.env_week
     (Demo.body (Js.Str "2024-W05") Js.Undefined) = true
   /\ startDate <$> trips Demo.w0 !! "T1" = Some (Some 1700000000000)
   /\ status_of (fst (post_tracker Demo.env_week
                        (Demo.body (Js.Str "2024-W05") Js.Undefined) Demo.w0))
      = Some 500
   /\ startDate <$> trips (snd (post_tracker Demo.env_week
                                  (Demo.body (Js.Str "2024-W05") Js.Undefined)
                                  Demo.w0)) !! "T1"
      = Some (Some 1700000000000))
  /\ (createTrackerValidation Demo.env_still
        (Demo.body Js.Undefined Js.Undefined) = true
      /\ status_of (fst (post_tracker Demo.env_still
                           (Demo.body Js.Undefined Js.Undefined) Demo.w_taken))
         = Some 500
      /\ startDate <$> trips (snd (post_tracker Demo.env_still
                                     (Demo.body Js.Undefined Js.Undefined)
                                     Demo.w_taken)) !! "T1"
         = Some (Some 1700000000000)).
Proof.
  repeat split.
Qed.

(** ** The routes on concrete requests *)

Example Z_toString_positive : Js.Z_toString 1730525123456 = "1730525123456".
Proof. reflexivity. Qed.

Example Z_toString_negative : Js.Z_toString (-45) = "-45".
Proof. reflexivity. Qed.

Example fraction_half : Js.fraction_toString36 [18%nat] = "0.i".
Proof. reflexivity. Qed.

Example generateTrackerId_demo :
  fst (generateTrackerId Demo.env Demo.w0) = Ok "TRKABC1233456".
Proof. reflexivity. Qed.

(** Create a tracker for trip [T1] and email [a@x.com] without
    [expiresAt]; a read succeeds and the count becomes 1; a read with
    another email is refused; deactivation with the right email succeeds;
    a later read finds the tracker inactive. *)
Example lifecycle_scenario :
  let w1 := snd (post_tracker Demo.env (Demo.body Js.Undefined Js.Undefined)
                   Demo.w0) in
  let tok := "TRKABC1233456" in
  let w2 := snd (get_tracker Demo.env tok Js.Undefined w1) in
  let w3 := snd (delete_tracker Demo.env tok (Js.Str "a@x.com") w2) in
  accessCount <$> trackers w1 !! tok = Some 0
  /\ accessCount <$> trackers w2 !! tok = Some 1
  /\ fst (get_tracker Demo.env tok (Js.Str "b@x.com") w2)
     = Ok (deny EmailMismatch)
  /\ fst (delete_tracker Demo.env tok (Js.Str "a@x.com") w2)
     = Ok (mkResponse 200 (MessageBody "Tracker deactivated successfully"))
  /\ fst (get_tracker Demo.env tok Js.Undefined w3) = Ok (deny Inactive).
Proof. cbv zeta. repeat split. Qed.

(** * Further properties of the routes *)

(** ** Statistics *)

Lemma get_stats_eq (env : Env) (tid : string) (q : Js.value) (w : World) :
  get_stats env tid q w =
    match trackers w !! tid with
    | None => (Ok (Failure (deny NotFound)), w)
    | Some t =>
        if email_mismatch t q then (Ok (Failure (deny EmailMismatch)), w)
        else
          (Ok (Success
                 (mkStats (trackerId t) (accessCount t) (lastAccessed t)
                    (createdAt t) (isActive t) (expired_in env w t)
                    (expiresAt t))),
           after_expiry_check w t)
    end.
Proof.
  unfold get_stats, try_catch, bind, tripTracker_findUnique.
  destruct (trackers w !! tid) as [t|]; [|reflexivity].
  destruct (email_mismatch t q); [reflexivity|].
  unfold has_expired, expired_in, after_expiry_check.
  destruct (expiresAt t); reflexivity.
Qed.

Lemma after_expiry_check_store (w : World) (t : Tracker) :
  trips (after_expiry_check w t) = trips w
  /\ trackers (after_expiry_check w t) = trackers w
  /\ nextPk (after_expiry_check w t) = nextPk w
  /\ sent (after_expiry_check w t) = sent w
  /\ console (after_expiry_check w t) = console w.
Proof. unfold after_expiry_check. destruct (expiresAt t); repeat split. Qed.

(** X1.  Statistics are served without regard to liveness and without
    counting: for a tracker that is inactive or expired, a read with an
    acceptable email is refused with 410 while the statistics route
    answers 200 with the stored counters, the [isActive] flag and the
    expiry verdict; and no statistics request, granted or not, changes the
    tables, the mail record or the console. *)
Theorem stats_ignore_liveness (env : Env) (w : World) (tid : string)
    (q : Js.value) (t : Tracker) :
  trackers w !! tid = Some t ->
  email_mismatch t q = false ->
  isActive t = false \/ expired_in env w t = true ->
  (fst (get_tracker env tid q w) = Ok (deny Inactive)
   \/ fst (get_tracker env tid q w) = Ok (deny Expired))
  /\ fst (get_stats env tid q w)
     = Ok (Success (mkStats (trackerId t) (accessCount t) (lastAccessed t)
                      (createdAt t) (isActive t) (expired_in env w t)
                      (expiresAt t)))
  /\ (forall tid' q',
        trips (snd (get_stats env tid' q' w)) = trips w
        /\ trackers (snd (get_stats env tid' q' w)) = trackers w
        /\ sent (snd (get_stats env tid' q' w)) = sent w
        /\ console (snd (get_stats env tid' q' w)) = console w).
Proof.
  intros Ht Hm Hdead. split; [|split].
  - rewrite get_tracker_eq, Ht.
    destruct (isActive t); cbn [negb]; [|now left].
    destruct Hdead as [Hd|Hd]; [discriminate|]. rewrite Hd. now right.
  - rewrite get_stats_eq, Ht, Hm. reflexivity.
  - intros tid' q'. rewrite get_stats_eq.
    destruct (trackers w !! tid') as [t'|]; [|repeat split].
    destruct (email_mismatch t' q'); [repeat split|]. cbn [snd].
    destruct (after_expiry_check_store w t') as (? & ? & _ & ? & ?).
    repeat split; assumption.
Qed.

Lemma stats_ignore_liveness_witness :
  fst (get_tracker Demo.env "TRK2" Js.Undefined (advance 1 0 Demo.w_edge))
    = Ok (deny Expired)
  /\ exists s,
      fst (get_stats Demo.env "TRK2" Js.Undefined (advance 1 0 Demo.w_edge))
        = Ok (Success s)
      /\ s_isExpired s = true.
Proof.
  destruct (stats_ignore_liveness Demo.env (advance 1 0 Demo.w_edge) "TRK2"
              Js.Undefined Demo.row_edge)
    as ([Hr|Hr] & Hs & _).
  - reflexivity.
  - reflexivity.
  - right. reflexivity.
  - discriminate Hr.
  - split; [exact Hr|]. eexists. split; [exact Hs | reflexivity].
Defined.

(** X2.  The three routes that look at expiry agree at the same
    instant: for an active tracker and an acceptable email, the statistics
    report [isExpired] exactly when the read route refuses with Expired,
    and exactly when the validate probe gives the reason "Tracker has
    expired". *)
Theorem expiry_verdicts_agree (env : Env) (w : World) (tid : string)
    (q : Js.value) (t : Tracker) :
  trackers w !! tid = Some t ->
  isActive t = true ->
  email_mismatch t q = false ->
  exists s,
    fst (get_stats env tid q w) = Ok (Success s)
    /\ (s_isExpired s = true
        <-> fst (get_tracker env tid q w) = Ok (deny Expired))
    /\ (s_isExpired s = true
        <-> fst (validate_tracker env tid w)
            = Ok (mkResponse 200 (InvalidBody "Tracker has expired"))).
Proof.
  intros Ht Ha Hm. eexists. split.
  { rewrite get_stats_eq, Ht, Hm. reflexivity. }
  cbn [s_isExpired].
  rewrite get_tracker_eq, validate_tracker_eq, Ht, Ha, Hm. cbn [negb].
  destruct (expired_in env w t); cbn zeta.
  - split; split; reflexivity.
  - split; (split; [discriminate|]);
      destruct (int_ok (accessCount t + 1)), (trips w !! tripId t);
      discriminate.
Qed.

Lemma expiry_verdicts_agree_witness :
  exists s,
    fst (get_stats Demo.env "TRK2" Js.Undefined Demo.w_edge) = Ok (Success s)
    /\ s_isExpired s = false.
Proof.
  destruct (expiry_verdicts_agree Demo.env Demo.w_edge "TRK2" Js.Undefined
              Demo.row_edge) as (s & Hs & _).
  - reflexivity.
  - reflexivity.
  - reflexivity.
  - exists s. split; [exact Hs|]. injection Hs as <-. reflexivity.
Defined.

Lemma passes_true (env : Env) (w : World) (t : Tracker) (q : Js.value) :
  passes env w t q = true ->
  isActive t = true /\ expired_in env w t = false
  /\ email_mismatch t q = false.
Proof.
  unfold passes. destruct (isActive t), (expired_in env w t),
    (email_mismatch t q); cbn; intros H; try discriminate; repeat split.
Qed.

(** A read that is answered 200 passed the four checks on a row whose
    counter had room, and its trip was there. *)
Lemma get_tracker_granted (env : Env) (w : World) (tid : string)
    (q : Js.value) (p : Payload) :
  fst (get_tracker env tid q w) = Ok (mkResponse 200 p) ->
  exists t trip,
    trackers w !! tid = Some t
    /\ passes env w t q = true
    /\ int_ok (accessCount t + 1) = true
    /\ trips w !! tripId t = Some trip
    /\ p = TripBody trip t (accessCount t + 1).
Proof.
  rewrite get_tracker_eq. unfold passes.
  destruct (trackers w !! tid) as [t|]; [|discriminate].
  destruct (isActive t) eqn:Ha; cbn [negb andb]; [|discriminate].
  destruct (expired_in env w t) eqn:He; [discriminate|].
  destruct (email_mismatch t q) eqn:Hm; [discriminate|].
  destruct (int_ok (accessCount t + 1)) eqn:Hok; cbn [negb]; [|discriminate].
  cbv zeta. destruct (trips w !! tripId t) as [trip|] eqn:Htrip; [|discriminate].
  cbn [fst]. intros H. injection H as <-.
  exists t, trip. rewrite Ha, He, Hm. repeat split; assumption.
Qed.

(** X3.  A granted read shows up in the statistics: right after a read
    that was answered 200 the statistics route reports the count one
    higher than it was before the read and a [lastAccessed] that is a
    clock reading of that read, and the count the read put in its own
    answer is the count the statistics report. *)
Theorem read_then_stats (env : Env) (w : World) (tid : string) (q : Js.value)
    (trip : Trip) (tr : Tracker) (n : Z) :
  fst (get_tracker env tid q w) = Ok (mkResponse 200 (TripBody trip tr n)) ->
  exists t s,
    trackers w !! tid = Some t
    /\ fst (get_stats env tid q (snd (get_tracker env tid q w)))
       = Ok (Success s)
    /\ s_accessCount s = accessCount t + 1
    /\ n = s_accessCount s
    /\ (exists j, (tick w <= j < tick (snd (get_tracker env tid q w)))%nat
                  /\ s_lastAccessed s = Some (clock env j)).
Proof.
  intros Hgranted.
  destruct (get_tracker_granted env w tid q _ Hgranted)
    as (t & trip' & Ht & Hp & Hok & _ & Hbody).
  injection Hbody as _ _ ->.
  destruct (passes_true env w t q Hp) as (Ha & He & Hm).
  destruct (get_tracker_tick env tid q w t Ht Hp) as [Htick Hle].
  pose proof (get_tracker_trackers env tid q w) as Hrows.
  rewrite Ht, Hp, Hok in Hrows. cbn [andb] in Hrows.
  exists t.
  rewrite get_stats_eq, Hrows, lookup_insert_eq.
  change (email_mismatch (accessed env (after_expiry_check w t) t) q)
    with (email_mismatch t q).
  rewrite Hm. eexists. split; [exact Ht|]. split; [reflexivity|]. cbn.
  split; [reflexivity|]. split; [reflexivity|].
  exists (tick (after_expiry_check w t)). split; [lia | reflexivity].
Qed.

Lemma read_then_stats_witness :
  exists t s,
    trackers Demo.w0 !! "TRK1" = Some t
    /\ fst (get_stats Demo.env "TRK1" Js.Undefined
              (snd (get_tracker Demo.env "TRK1" Js.Undefined Demo.w0)))
       = Ok (Success s)
    /\ s_accessCount s = accessCount t + 1.
Proof.
  destruct (read_then_stats Demo.env Demo.w0 "TRK1" Js.Undefined
              Demo.T1 (Demo.row "TRK1") 5) as (t & s & Ht & Hs & Hc & _).
  - reflexivity.
  - exists t, s. repeat split; assumption.
Defined.

(** ** Listing by email *)

Lemma bind_eq {A B : Type} (c : M A) (k : A -> M B) (w : World) :
  bind c k w =
    match c w with
    | (Ok a, w') => k a w'
    | (Throw e, w') => (Throw e, w')
    end.
Proof. reflexivity. Qed.

#[global] Instance newer_total : Total newer.
Proof. intros a b. unfold newer. lia. Qed.

#[global] Instance newer_trans : Transitive newer.
Proof. intros a b c. unfold newer. lia. Qed.

Lemma found_rows_elem (P : Tracker -> Prop) `{forall t, Decision (P t)}
    (w : World) (t : Tracker) :
  t ∈ found_rows P w <-> (exists k, trackers w !! k = Some t) /\ P t.
Proof.
  unfold found_rows. rewrite merge_sort_Permutation, list_elem_of_filter.
  rewrite list_elem_of_fmap. split.
  - intros (HP & [k t'] & -> & Hin). apply elem_of_map_to_list in Hin.
    split; [now exists k | exact HP].
  - intros ((k & Hk) & HP). split; [exact HP|].
    exists (k, t). split; [reflexivity|]. now apply elem_of_map_to_list.
Qed.

Lemma found_rows_sorted (P : Tracker -> Prop) `{forall t, Decision (P t)}
    (w : World) :
  StronglySorted newer (found_rows P w).
Proof. unfold found_rows. apply StronglySorted_merge_sort; apply _. Qed.

Lemma tripTracker_findMany_eq (P : Tracker -> Prop) `{forall t, Decision (P t)}
    (w : World) :
  tripTracker_findMany P w
  = (Ok ((fun t => (t, trips w !! tripId t)) <$> found_rows P w), w).
Proof. reflexivity. Qed.

Lemma map_M_cons {A B : Type} (f : A -> M B) (x : A) (l : list A) (w : World) :
  map_M f (x :: l) w =
    match f x w with
    | (Ok y, w1) =>
        match map_M f l w1 with
        | (Ok ys, w2) => (Ok (y :: ys), w2)
        | (Throw e, w2) => (Throw e, w2)
        end
    | (Throw e, w1) => (Throw e, w1)
    end.
Proof.
  cbn [map_M]. unfold bind. destruct (f x w) as [[y|e] w1]; [|reflexivity].
  destruct (map_M f l w1) as [[ys|e] w2]; reflexivity.
Qed.

Lemma format_tracker_eq (protocol host : string) (t : Tracker)
    (o : option Trip) (w : World) :
  format_tracker protocol host (t, o) w =
    match o with
    | Some trip =>
        (Ok (mkListed (trackerId t) (tripName trip) (destination trip)
               (startDate trip) (travelerName t) (accessCount t) (createdAt t)
               (shareUrl protocol host (trackerId t))), w)
    | None => (Throw TypeError, w)
    end.
Proof. destruct o; reflexivity. Qed.

(** Formatting the found rows: every trip is there and the list comes
    out entry by entry, or a trip is missing and the callback throws. The
    world is not touched either way. *)
Lemma map_M_format (protocol host : string) (w : World) (rows : list Tracker) :
  (exists L,
      map_M (format_tracker protocol host)
        ((fun t => (t, trips w !! tripId t)) <$> rows) w = (Ok L, w)
      /\ Forall2 (listed_as protocol host w) rows L)
  \/ (map_M (format_tracker protocol host)
        ((fun t => (t, trips w !! tripId t)) <$> rows) w = (Throw TypeError, w)
      /\ exists t, t ∈ rows /\ trips w !! tripId t = None).
Proof.
  induction rows as [|t rows IH].
  - left. exists []. split; [reflexivity | constructor].
  - cbn [fmap list_fmap]. rewrite map_M_cons, format_tracker_eq.
    destruct (trips w !! tripId t) as [trip|] eqn:Htrip.
    + destruct IH as [(L & -> & HL)|(-> & t' & Hin & Hnone)].
      * left. eexists. split; [reflexivity|].
        constructor; [|exact HL]. exists trip. split; [exact Htrip | reflexivity].
      * right. split; [reflexivity|]. exists t'. split; [|exact Hnone].
        now apply list_elem_of_further.
    + right. split; [reflexivity|]. exists t. split; [|exact Htrip].
      apply list_elem_of_here.
Qed.

(** The list route, in full. *)
Lemma list_by_email_cases (protocol host e : string) (w : World) :
  let rows := found_rows (fun t => email t = e /\ isActive t = true) w in
  (exists L,
      list_by_email protocol host e w = (Ok (Success (L, length L)), w)
      /\ Forall2 (listed_as protocol host w) rows L)
  \/ (list_by_email protocol host e w
      = (Ok (Failure
               (mkResponse 500
                  (ErrorBody "Failed to fetch trackers"
                     "An error occurred while fetching trip trackers"))),
         snd (console_write ERROR "Get trackers by email error:" w))
      /\ exists t, t ∈ rows /\ trips w !! tripId t = None).
Proof.
  cbv zeta. unfold list_by_email, try_catch.
  rewrite bind_eq, tripTracker_findMany_eq. cbv beta iota.
  rewrite bind_eq.
  destruct (map_M_format protocol host w
              (found_rows (fun t => email t = e /\ isActive t = true) w))
    as [(L & -> & HL)|(-> & Hmiss)].
  - left. exists L. split; [reflexivity | exact HL].
  - right. split; [reflexivity | exact Hmiss].
Qed.

(** X4.  Listing by email, on a store whose trackers all have their
    trip: the answer is 200 and changes nothing; it has exactly one entry
    for every stored row with that email that is active, expired or not,
    and none for any other row; the entries run from the newest row to the
    oldest; and [count] is their number. *)
Theorem list_by_email_complete (protocol host e : string) (w : World) :
  linked w ->
  exists rows L,
    list_by_email protocol host e w = (Ok (Success (L, length rows)), w)
    /\ Forall2 (listed_as protocol host w) rows L
    /\ rows ≡ₚ filter (fun t => email t = e /\ isActive t = true)
                      (map_to_list (trackers w)).*2
    /\ (forall t, t ∈ rows <->
                  (exists k, trackers w !! k = Some t)
                  /\ email t = e /\ isActive t = true)
    /\ StronglySorted newer rows.
Proof.
  intros Hlinked.
  exists (found_rows (fun t => email t = e /\ isActive t = true) w).
  destruct (list_by_email_cases protocol host e w)
    as [(L & Heq & HL)|(_ & t & Hin & Hnone)].
  - exists L. rewrite (Forall2_length _ _ _ HL). split; [exact Heq|].
    split; [exact HL|]. split; [apply merge_sort_Permutation|].
    split; [intros t; apply found_rows_elem | apply found_rows_sorted].
  - apply found_rows_elem in Hin as ((k & Hk) & _).
    destruct (Hlinked k t Hk) as [trip Htrip]. congruence.
Qed.

Lemma demo_w0_linked : linked Demo.w0.
Proof.
  intros k t Hk. unfold Demo.w0 in Hk. cbn [trackers] in Hk.
  apply lookup_singleton_Some in Hk as [_ <-].
  exists Demo.T1. reflexivity.
Qed.

Lemma list_by_email_complete_witness :
  exists rows L,
    list_by_email "https" "wertigo.app" "a@x.com" Demo.w0
    = (Ok (Success (L, length rows)), Demo.w0)
    /\ Forall2 (listed_as "https" "wertigo.app" Demo.w0) rows L.
Proof.
  destruct (list_by_email_complete "https" "wertigo.app" "a@x.com" Demo.w0
              demo_w0_linked) as (rows & L & Heq & HL & _).
  exists rows, L. split; [exact Heq | exact HL].
Defined.

(** ** What a request may do to the tables *)

Lemma evolves_refl (t : Tracker) : evolves t t.
Proof. unfold evolves. repeat split; try reflexivity; tauto. Qed.

Lemma evolves_trans (a b c : Tracker) : evolves a b -> evolves b c -> evolves a c.
Proof.
  unfold evolves.
  intros (? & ? & ? & ? & ? & ? & ? & ?) (? & ? & ? & ? & ? & ? & ? & ?).
  repeat split; try congruence; try lia; auto.
Qed.

(** A write that does not set [isActive] to true and does not lower the
    count lets the row evolve. *)
Lemma evolves_apply_update (u : UpdateData) (stamp : Z) (t : Tracker) :
  u_isActive u <> Some true ->
  0 <= default 0 (u_accessCount_increment u) ->
  evolves t (apply_update u stamp t).
Proof.
  intros Hact Hinc. unfold evolves, apply_update. cbn.
  repeat split; try lia.
  intros Hoff. destruct (u_isActive u) as [[|]|]; cbn; congruence.
Qed.

(** The generic write on trackers: nothing, or the one row rewritten. *)
Lemma tripTracker_update_cases (env : Env) (tid : string) (u : UpdateData)
    (w : World) :
  let w' := snd (tripTracker_update env tid u w) in
  trips w' = trips w /\ sent w' = sent w
  /\ (trackers w' = trackers w
      \/ exists t stamp,
          trackers w !! tid = Some t
          /\ trackers w' = <[tid := apply_update u stamp t]> (trackers w)).
Proof.
  cbv zeta. unfold tripTracker_update.
  destruct (update_dates_ok u); cbn [negb]; [|repeat split; now left].
  destruct (trackers w !! tid) as [t|] eqn:Ht; [|repeat split; now left].
  destruct (update_is_empty u); [repeat split; now left|].
  destruct (increment_ok u t); cbn; [|repeat split; now left].
  repeat split. right. eauto.
Qed.

(** The create route once validation has passed, the trip is found and an
    identifier is obtained, for any [email] field. *)
Lemma post_tracker_with_steps (env : Env) (send : Dispatcher) (b : CreateBody)
    (w w1 : World) (tid id : string) (trip : Trip) :
  createTrackerValidation env b = true ->
  c_tripId b = Js.Str tid ->
  trips w !! tid = Some trip ->
  ensureUniqueTrackerId env 10 w = (Ok id, w1) ->
  post_tracker_with env send b w =
    match saveDate_of env (c_saveDate b) w1 with
    | (Throw _, w2) => create_failed w2
    | (Ok sd, w2) =>
        match update_startDate env tid (c_startDate b) w2 with
        | (Throw _, w3) => create_failed w3
        | (Ok _, w3) =>
            match sanitized_email env b with
            | Js.Str e =>
                match tripTracker_create env
                        (mkTrackerData id tid e
                           (Js.or_null (c_travelerName b))
                           (Js.or_null (c_phone b))
                           sd (expiresAt_of env (c_expiresAt b))) w3 with
                | (Throw _, w4) => create_failed w4
                | (Ok row, w4) =>
                    match send_confirmation send e id (trips w4 !! tid) w4 with
                    | (Throw _, w5) => create_failed w5
                    | (Ok _, w5) =>
                        (Ok (mkResponse 201
                               (CreatedBody row (tripName trip)
                                  (destination trip))), w5)
                    end
                end
            | _ => create_failed w3
            end
        end
    end.
Proof.
  intros Hv Ht Htrip Hrun.
  unfold post_tracker_with, try_catch, bind, create_failed.
  rewrite Hv, Ht. cbn [negb string_arg ret].
  unfold trip_findUnique at 1. rewrite Htrip, Hrun.
  destruct (saveDate_of env (c_saveDate b) w1) as [[sd|ex] w2]; [|reflexivity].
  destruct (update_startDate env tid (c_startDate b) w2) as [[tr|ex] w3];
    [|reflexivity].
  destruct (sanitized_email env b) as [| |e]; try reflexivity.
  cbn [string_arg ret].
  destruct (tripTracker_create env _ w3) as [[row|ex] w4]; [|reflexivity].
  unfold trip_findUnique.
  destruct (send_confirmation send _ id _ w4) as [[u|ex] w5]; reflexivity.
Qed.

(** The start-date write either stores the date in the one trip or
    throws before writing. *)
Lemma update_startDate_cases (env : Env) (tid : string) (v : Js.value)
    (w : World) (trip : Trip) :
  trips w !! tid = Some trip ->
  (exists trip' w',
      update_startDate env tid v w = (Ok trip', w')
      /\ trips w' = <[tid := trip']> (trips w)
      /\ trackers w' = trackers w /\ nextPk w' = nextPk w
      /\ sent w' = sent w)
  \/ update_startDate env tid v w = (Throw PrismaValidationError, w).
Proof.
  intros Htrip. unfold update_startDate, new_Date.
  destruct (Js.truthy v).
  - destruct (parseDate env (toString v)) as [ms|]; [|now right].
    left. unfold trip_update_startDate. rewrite Htrip. cbn.
    eexists _, _. split; [reflexivity|]. repeat split.
  - left. unfold bind, now, trip_update_startDate. cbn. rewrite Htrip. cbn.
    eexists _, _. split; [reflexivity|]. repeat split.
Qed.

(** The insert under a free identifier either stores the one row or
    throws before writing. *)
Lemma tripTracker_create_cases (env : Env) (d : TrackerData) (w : World) :
  trackers w !! d_trackerId d = None ->
  (exists row w',
      tripTracker_create env d w = (Ok row, w')
      /\ trackers w' = <[d_trackerId d := row]> (trackers w)
      /\ trips w' = trips w /\ sent w' = sent w
      /\ trackerId row = d_trackerId d /\ tripId row = d_tripId d
      /\ email row = d_email d /\ isActive row = true
      /\ accessCount row = 0
      /\ expiresAt row = d_expiresAt d ≫= date_column)
  \/ tripTracker_create env d w = (Throw PrismaValidationError, w).
Proof.
  intros Hfree. unfold tripTracker_create. rewrite Hfree.
  destruct (date_ok (d_saveDate d) && opt_date_ok (d_expiresAt d));
    cbn [negb]; [|now right].
  left. cbn. eexists _, _. split; [reflexivity|]. repeat split.
Qed.

(** The confirmation step with the dispatcher of [emailService.js]: one
    mail attempt, the tables as they were. *)
Lemma send_confirmation_real (env : Env) (to id : string) (t : Trip)
    (w : World) :
  exists w',
    send_confirmation (sendTripTrackerEmail env) to id (Some t) w = (Ok tt, w')
    /\ trips w' = trips w /\ trackers w' = trackers w
    /\ sent w' = (sent w ++ [mkMail to id])%list.
Proof.
  rewrite send_confirmation_eq.
  destruct (sendTripTrackerEmail_eq env to id w)
    as (w5 & -> & Htr & Hrows & _ & Hsent & _).
  destruct (smtp env (length (sent w))); eexists; (split; [reflexivity|]);
    cbn; auto.
Qed.

(** The create route, whatever the request: what it leaves in the
    tables and the mail record.  At most one trip is rewritten; either the
    answer is not 201 and no tracker and no mail is added, or it is 201 and
    exactly one row, under a fresh identifier and for an existing trip, and
    one mail to that row's address are added. *)
Lemma post_tracker_store (env : Env) (b : CreateBody) (w : World) :
  (trips (snd (post_tracker env b w)) = trips w
   \/ exists tid trip trip',
       trips w !! tid = Some trip
       /\ trips (snd (post_tracker env b w)) = <[tid := trip']> (trips w))
  /\ ((exists resp,
          fst (post_tracker env b w) = Ok resp
          /\ status resp <> 201
          /\ trackers (snd (post_tracker env b w)) = trackers w
          /\ sent (snd (post_tracker env b w)) = sent w)
      \/ (exists id row tid trip,
             fst (post_tracker env b w)
             = Ok (mkResponse 201
                     (CreatedBody row (tripName trip) (destination trip)))
             /\ trips w !! tid = Some trip
             /\ trackers w !! id = None
             /\ trackers (snd (post_tracker env b w))
                = <[id := row]> (trackers w)
             /\ trackerId row = id /\ tripId row = tid
             /\ isActive row = true /\ accessCount row = 0
             /\ sent (snd (post_tracker env b w))
                = (sent w ++ [mkMail (email row) id])%list)).
Proof.
  destruct (createTrackerValidation env b) eqn:Hv.
  2:{ unfold post_tracker, post_tracker_with, try_catch. rewrite Hv. cbn.
      split; [now left|]. left. eexists. repeat split. discriminate. }
  destruct (validation_tripId env b Hv) as (tid & Ht & _).
  destruct (trips w !! tid) as [trip|] eqn:Htrip.
  2:{ unfold post_tracker, post_tracker_with, try_catch, bind.
      rewrite Hv, Ht. cbn [negb string_arg ret].
      unfold trip_findUnique. rewrite Htrip. cbn.
      split; [now left|]. left. eexists. repeat split. discriminate. }
  destruct (ensureUnique_spec env 10 w)
    as [(k & _ & Hfree & _ & Hrun)|[_ Hrun]].
  2:{ unfold post_tracker, post_tracker_with, try_catch, bind.
      rewrite Hv, Ht. cbn [negb string_arg ret].
      unfold trip_findUnique. rewrite Htrip, Hrun. cbn.
      split; [now left|]. left. eexists. repeat split. discriminate. }
  assert (Hnew : trackers w !! candidate env w k = None).
  { unfold collides in Hfree.
    destruct (trackers w !! candidate env w k); [discriminate | reflexivity]. }
  unfold post_tracker.
  rewrite (post_tracker_with_steps env _ b w _ tid _ trip Hv Ht Htrip Hrun).
  destruct (saveDate_ok env (c_saveDate b) (advance (S k) (S k) w))
    as (sd & w2 & -> & _ & Htr2 & Hrows2 & _ & Hsent2 & _).
  cbn [trips trackers sent advance] in Htr2, Hrows2, Hsent2.
  destruct (update_startDate_cases env tid (c_startDate b) w2 trip)
    as [(trip' & w3 & -> & Htr3 & Hrows3 & _ & Hsent3)| ->];
    [now rewrite Htr2 | |].
  2:{ unfold create_failed. cbn. rewrite Htr2, Hrows2, Hsent2.
      split; [now left|]. left. eexists. repeat split. discriminate. }
  assert (Htrips : forall wf, trips wf = trips w3 ->
            trips wf = trips w
            \/ exists tid0 trip0 trip0',
                trips w !! tid0 = Some trip0
                /\ trips wf = <[tid0 := trip0']> (trips w)).
  { intros wf ->. right. exists tid, trip, trip'.
    split; [exact Htrip|]. now rewrite Htr3, Htr2. }
  destruct (sanitized_email env b) as [| |e].
  1,2: unfold create_failed; cbn; rewrite Hrows3, Hrows2, Hsent3, Hsent2;
       (split; [now apply Htrips|]); left; eexists; repeat split; discriminate.
  destruct (tripTracker_create_cases env
              (mkTrackerData (candidate env w k) tid e
                 (Js.or_null (c_travelerName b)) (Js.or_null (c_phone b))
                 sd (expiresAt_of env (c_expiresAt b))) w3)
    as [(row & w4 & -> & Hrows4 & Htr4 & Hsent4 & Hid4 & Htid4 & Hmail4
         & Hact4 & Hcnt4 & _)| ->].
  { cbn. now rewrite Hrows3, Hrows2. }
  2:{ unfold create_failed. cbn. rewrite Hrows3, Hrows2, Hsent3, Hsent2.
      split; [now apply Htrips|]. left. eexists. repeat split. discriminate. }
  cbn [d_trackerId d_tripId d_email] in *.
  assert (Hfound : trips w4 !! tid = Some trip').
  { rewrite Htr4, Htr3. apply lookup_insert_eq. }
  rewrite Hfound.
  destruct (send_confirmation_real env e (candidate env w k) trip' w4)
    as (w5 & -> & Htr5 & Hrows5 & Hsent5).
  cbn [fst snd]. split; [apply Htrips; now rewrite Htr5, Htr4|].
  right. exists (candidate env w k), row, tid, trip.
  split; [reflexivity|]. split; [exact Htrip|]. split; [exact Hnew|].
  split; [now rewrite Hrows5, Hrows4, Hrows3, Hrows2|].
  split; [exact Hid4|]. split; [exact Htid4|]. split; [exact Hact4|].
  split; [exact Hcnt4|].
  now rewrite Hsent5, Hsent4, Hsent3, Hsent2, Hmail4.
Qed.

Lemma advances_refl (w : World) : advances w w.
Proof.
  split; [auto|]. split.
  - intros k t Hk. exists t. split; [exact Hk | apply evolves_refl].
  - intros k t Hk. left. exists t. split; [exact Hk | apply evolves_refl].
Qed.

Lemma advances_trans (a b c : World) :
  advances a b -> advances b c -> advances a c.
Proof.
  intros (Ht1 & Hold1 & Hnew1) (Ht2 & Hold2 & Hnew2). split; [auto|]. split.
  - intros k t Hk. destruct (Hold1 k t Hk) as (t1 & Hk1 & He1).
    destruct (Hold2 k t1 Hk1) as (t2 & Hk2 & He2).
    exists t2. split; [exact Hk2 | now apply evolves_trans with t1].
  - intros k t2 Hk2.
    destruct (Hnew2 k t2 Hk2) as [(t1 & Hk1 & He2)|(Hnone & Hkey & Htrip)].
    + destruct (Hnew1 k t1 Hk1) as [(t & Hk & He1)|(Hnone & Hkey & Htrip)].
      * left. exists t. split; [exact Hk | now apply evolves_trans with t1].
      * right. destruct He2 as (_ & Hid & Htid & _).
        split; [exact Hnone|]. split; [congruence|].
        rewrite Htid. now apply Ht2.
    + right. split; [|split; assumption].
      destruct (trackers a !! k) as [t|] eqn:Hk; [|reflexivity].
      destruct (Hold1 k t Hk) as (t1 & Hk1 & _). congruence.
Qed.

(** The three shapes a request gives the tables. *)
Lemma advances_store (w w' : World) :
  (trips w' = trips w
   \/ exists tid trip trip',
       trips w !! tid = Some trip /\ trips w' = <[tid := trip']> (trips w)) ->
  (trackers w' = trackers w
   \/ (exists tid t t',
          trackers w !! tid = Some t /\ evolves t t'
          /\ trackers w' = <[tid := t']> (trackers w))
   \/ (exists id row,
          trackers w !! id = None /\ trackerId row = id
          /\ is_Some (trips w !! tripId row)
          /\ trackers w' = <[id := row]> (trackers w))) ->
  advances w w'.
Proof.
  intros Htrips Hrows.
  assert (Hkeep : forall k, is_Some (trips w !! k) -> is_Some (trips w' !! k)).
  { intros k Hk. destruct Htrips as [->|(tid & trip & trip' & Htid & ->)];
      [exact Hk|].
    destruct (decide (tid = k)) as [->|Hne].
    - rewrite lookup_insert_eq. eauto.
    - now rewrite lookup_insert_ne. }
  split; [exact Hkeep|].
  destruct Hrows as [->|[(tid & t & t' & Htid & He & ->)
                        |(id & row & Hnone & Hkey & Htrip & ->)]].
  - split.
    + intros k t Hk. exists t. split; [exact Hk | apply evolves_refl].
    + intros k t Hk. left. exists t. split; [exact Hk | apply evolves_refl].
  - split.
    + intros k t0 Hk. destruct (decide (tid = k)) as [->|Hne].
      * rewrite lookup_insert_eq. exists t'. split; [reflexivity|]. congruence.
      * rewrite lookup_insert_ne by exact Hne.
        exists t0. split; [exact Hk | apply evolves_refl].
    + intros k t0 Hk. left. destruct (decide (tid = k)) as [->|Hne].
      * rewrite lookup_insert_eq in Hk. injection Hk as <-. eauto.
      * rewrite lookup_insert_ne in Hk by exact Hne.
        exists t0. split; [exact Hk | apply evolves_refl].
  - split.
    + intros k t0 Hk. destruct (decide (id = k)) as [->|Hne]; [congruence|].
      rewrite lookup_insert_ne by exact Hne.
      exists t0. split; [exact Hk | apply evolves_refl].
    + intros k t0 Hk. destruct (decide (id = k)) as [->|Hne].
      * rewrite lookup_insert_eq in Hk. injection Hk as <-. right.
        split; [exact Hnone|]. split; [exact Hkey | now apply Hkeep].
      * rewrite lookup_insert_ne in Hk by exact Hne. left.
        exists t0. split; [exact Hk | apply evolves_refl].
Qed.

Lemma get_tracker_trips (env : Env) (tid : string) (q : Js.value) (w : World) :
  trips (snd (get_tracker env tid q w)) = trips w.
Proof.
  rewrite get_tracker_eq.
  destruct (trackers w !! tid) as [t|]; [|reflexivity].
  destruct (isActive t); cbn [negb]; [|reflexivity]. cbv zeta.
  destruct (after_expiry_check_store w t) as (Htr & _).
  destruct (expired_in env w t); [exact Htr|].
  destruct (email_mismatch t q); [exact Htr|].
  destruct (int_ok (accessCount t + 1)); cbn [negb]; [|exact Htr].
  destruct (trips w !! tripId t); cbn; exact Htr.
Qed.

Lemma put_tracker_store (env : Env) (tid : string) (b : UpdateBody)
    (q : Js.value) (w : World) :
  trips (snd (put_tracker env tid b q w)) = trips w
  /\ sent (snd (put_tracker env tid b q w)) = sent w
  /\ (trackers (snd (put_tracker env tid b q w)) = trackers w
      \/ exists t stamp,
          trackers w !! tid = Some t
          /\ trackers (snd (put_tracker env tid b q w))
             = <[tid := apply_update (updateData_of env b) stamp t]>
                 (trackers w)).
Proof.
  rewrite put_tracker_eq.
  destruct (updateTrackerValidation env b); cbn [negb];
    [|repeat split; now left].
  destruct (trackers w !! tid) as [t|] eqn:Ht; [|repeat split; now left].
  destruct (email_mismatch t q); [repeat split; now left|].
  pose proof (tripTracker_update_cases env tid (updateData_of env b) w) as H.
  cbv zeta in H. rewrite Ht in H.
  destruct (tripTracker_update env tid (updateData_of env b) w) as [[t'|e] w'];
    cbn [fst snd] in *; exact H.
Qed.

(** One request advances the tables. *)
Lemma serve_advances (env : Env) (r : Request) (w : World) :
  advances w (serve env r w).
Proof.
  destruct r as [b|tid q|protocol host e|tid b q|tid q|tid q|tid]; cbn [serve].
  - destruct (post_tracker_store env b w) as [Htrips Hrows].
    apply advances_store; [exact Htrips|].
    destruct Hrows as [(resp & _ & _ & -> & _)
                      |(id & row & tid & trip & _ & Htrip & Hnone & -> & Hid
                        & Htid & _)];
      [now left|].
    right. right. exists id, row. rewrite Htid, Htrip. eauto.
  - apply advances_store; [left; apply get_tracker_trips|].
    rewrite get_tracker_trackers.
    destruct (trackers w !! tid) as [t|] eqn:Ht; [|now left].
    destruct (passes env w t q && int_ok (accessCount t + 1)); [|now left].
    right. left. exists tid, t, (accessed env (after_expiry_check w t) t).
    split; [exact Ht|]. split; [|reflexivity].
    apply evolves_apply_update; cbn; [discriminate | lia].
  - destruct (list_by_email_cases protocol host e w) as [(L & -> & _)|(-> & _)];
      apply advances_store; now left.
  - destruct (put_tracker_store env tid b q w) as (Htrips & _ & Hrows).
    apply advances_store; [now left|].
    destruct Hrows as [->|(t & stamp & Ht & ->)]; [now left|].
    right. left. exists tid, t, (apply_update (updateData_of env b) stamp t).
    split; [exact Ht|]. split; [|reflexivity].
    apply evolves_apply_update; cbn; [discriminate | lia].
  - rewrite delete_tracker_eq.
    destruct (trackers w !! tid) as [t|] eqn:Ht;
      [|apply advances_store; now left].
    destruct (email_mismatch t q); [apply advances_store; now left|].
    apply advances_store; [now left|].
    right. left. cbn [snd].
    exists tid, t, (apply_update deactivate_update (clock env (tick w)) t).
    split; [exact Ht|]. split; [|reflexivity].
    apply evolves_apply_update; cbn; [discriminate | lia].
  - rewrite get_stats_eq.
    destruct (trackers w !! tid) as [t|]; [|apply advances_store; now left].
    destruct (email_mismatch t q); [apply advances_store; now left|].
    destruct (after_expiry_check_store w t) as (? & ? & _).
    apply advances_store; now left.
  - rewrite validate_tracker_eq.
    destruct (trackers w !! tid) as [t|]; [|apply advances_store; now left].
    destruct (isActive t); cbn [negb]; [|apply advances_store; now left].
    cbv zeta. destruct (after_expiry_check_store w t) as (? & ? & _).
    destruct (expired_in env w t); [apply advances_store; now left|].
    destruct (trips w !! tripId t); apply advances_store; now left.
Qed.

Lemma serve_all_advances (env : Env) (rs : list Request) (w : World) :
  advances w (serve_all env rs w).
Proof.
  revert w. induction rs as [|r rs IH]; intros w; cbn [serve_all].
  - apply advances_refl.
  - apply advances_trans with (serve env r w);
      [apply serve_advances | apply IH].
Qed.

Lemma advances_keyed (w w' : World) : advances w w' -> keyed w -> keyed w'.
Proof.
  intros (_ & _ & Hnew) Hkeyed k t' Hk.
  destruct (Hnew k t' Hk) as [(t & Hold & He)|(_ & Hkey & _)]; [|exact Hkey].
  destruct He as (_ & Hid & _). rewrite Hid. now apply Hkeyed.
Qed.

Lemma advances_linked (w w' : World) : advances w w' -> linked w -> linked w'.
Proof.
  intros (Hkeep & _ & Hnew) Hlinked k t' Hk.
  destruct (Hnew k t' Hk) as [(t & Hold & He)|(_ & _ & Htrip)]; [|exact Htrip].
  destruct He as (_ & _ & Htid & _). rewrite Htid.
  apply Hkeep. now apply Hlinked with k.
Qed.

(** X5.  Over any run of requests to the tracker routes, a stored
    tracker is never removed and only evolves: its key, [trackerId],
    [tripId], [email], [saveDate] and [createdAt] stay as they are, its
    [accessCount] never goes down, and once it is inactive it stays
    inactive (no route reactivates). *)
Theorem trackers_only_evolve (env : Env) (rs : list Request) (w : World)
    (k : string) (t : Tracker) :
  trackers w !! k = Some t ->
  exists t',
    trackers (serve_all env rs w) !! k = Some t'
    /\ tracker_pk t' = tracker_pk t
    /\ trackerId t' = trackerId t
    /\ tripId t' = tripId t
    /\ email t' = email t
    /\ saveDate t' = saveDate t
    /\ createdAt t' = createdAt t
    /\ accessCount t <= accessCount t'
    /\ (isActive t = false -> isActive t' = false).
Proof.
  intros Hk. destruct (serve_all_advances env rs w) as (_ & Hold & _).
  destruct (Hold k t Hk) as (t' & Hk' & He). exists t'. split; [exact Hk'|].
  exact He.
Qed.

Lemma trackers_only_evolve_witness :
  exists t',
    trackers (serve_all Demo.env
                [Read "TRK1" Js.Undefined; Deactivate "TRK1" Js.Undefined;
                 Update "TRK1" (mkUpdateBody Js.Undefined (Js.Str "123")
                                  Js.Undefined) Js.Undefined;
                 Create (Demo.body Js.Undefined Js.Undefined)]
                Demo.w0) !! "TRK1" = Some t'
    /\ email t' = "a@x.com"
    /\ 4 <= accessCount t'.
Proof.
  destruct (trackers_only_evolve Demo.env
              [Read "TRK1" Js.Undefined; Deactivate "TRK1" Js.Undefined;
               Update "TRK1" (mkUpdateBody Js.Undefined (Js.Str "123")
                                Js.Undefined) Js.Undefined;
               Create (Demo.body Js.Undefined Js.Undefined)]
              Demo.w0 "TRK1" (Demo.row "TRK1"))
    as (t' & Hk & _ & _ & _ & He & _ & _ & Hc & _).
  - reflexivity.
  - exists t'. split; [exact Hk|]. split; [exact He | exact Hc].
Defined.

(** X6.  The tracker routes keep the store well formed over any run of
    requests: if every row sits under its own [trackerId] and every
    tracker's trip exists, this is still so afterwards (a created row gets a
    fresh key equal to its [trackerId] and points to an existing trip), and
    no trip is ever removed. *)
Theorem store_conditions_kept (env : Env) (rs : list Request) (w : World) :
  keyed w -> linked w ->
  keyed (serve_all env rs w)
  /\ linked (serve_all env rs w)
  /\ (forall k, is_Some (trips w !! k) ->
                is_Some (trips (serve_all env rs w) !! k)).
Proof.
  intros Hkeyed Hlinked. pose proof (serve_all_advances env rs w) as Hadv.
  split; [now apply advances_keyed with w|].
  split; [now apply advances_linked with w|].
  now destruct Hadv as (Hkeep & _).
Qed.

Lemma demo_w0_keyed : keyed Demo.w0.
Proof.
  intros k t Hk. unfold Demo.w0 in Hk. cbn [trackers] in Hk.
  apply lookup_singleton_Some in Hk as [<- <-]. reflexivity.
Qed.

Lemma store_conditions_kept_witness :
  keyed (serve_all Demo.env [Create (Demo.body Js.Undefined Js.Undefined);
                             Read "TRK1" Js.Undefined] Demo.w0)
  /\ linked (serve_all Demo.env [Create (Demo.body Js.Undefined Js.Undefined);
                                 Read "TRK1" Js.Undefined] Demo.w0).
Proof.
  destruct (store_conditions_kept Demo.env
              [Create (Demo.body Js.Undefined Js.Undefined);
               Read "TRK1" Js.Undefined] Demo.w0 demo_w0_keyed demo_w0_linked)
    as (Hk & Hl & _).
  split; [exact Hk | exact Hl].
Defined.

(** X7.  On a store whose trackers all have their trip, and after any
    run of requests from it, the list, deactivate, statistics and validate
    routes never answer 500 (a deactivation or a statistics request is
    answered 200, 403 or 404, a listing and a validation 200), and the read
    route answers 500 in one case only: the tracker passes the four checks
    and its access counter cannot be raised within its column.  Otherwise a
    read is answered 200, 403, 404 or 410. *)
Theorem server_error_only_at_full_counter (env : Env) (rs : list Request)
    (w : World) (r : Request) :
  linked w ->
  match r with
  | Create _ | Update _ _ _ => True
  | Read tid q =>
      exists s, answer_status env r (serve_all env rs w) = Some s
                /\ (s = 200 \/ s = 403 \/ s = 404 \/ s = 410 \/ s = 500)
                /\ (s = 500 <->
                    exists t,
                      trackers (serve_all env rs w) !! tid = Some t
                      /\ passes env (serve_all env rs w) t q = true
                      /\ int_ok (accessCount t + 1) = false)
  | Deactivate _ _ | GetStats _ _ =>
      exists s, answer_status env r (serve_all env rs w) = Some s
                /\ (s = 200 \/ s = 403 \/ s = 404)
  | ListByEmail _ _ _ | Validate _ =>
      answer_status env r (serve_all env rs w) = Some 200
  end.
Proof.
  intros Hlinked0.
  assert (Hlinked : linked (serve_all env rs w)).
  { apply advances_linked with w; [apply serve_all_advances | exact Hlinked0]. }
  generalize dependent (serve_all env rs w). clear Hlinked0 w rs.
  intros w Hlinked.
  destruct r as [b|tid q|protocol host e|tid b q|tid q|tid q|tid];
    cbn [answer_status]; [exact I| | |exact I| | |].
  - rewrite get_tracker_eq. unfold passes.
    destruct (trackers w !! tid) as [t|] eqn:Ht.
    2:{ cbn. eexists. split; [reflexivity|]. split; [tauto|].
        split; [discriminate|]. now intros (t & Habs & _). }
    destruct (isActive t) eqn:Ha; cbn [negb].
    2:{ cbn. eexists. split; [reflexivity|]. split; [tauto|].
        split; [discriminate|]. intros (t' & Ht' & Hp & _).
        injection Ht' as <-. rewrite Ha in Hp. discriminate. }
    cbv zeta.
    destruct (expired_in env w t) eqn:He.
    { cbn. eexists. split; [reflexivity|]. split; [tauto|].
      split; [discriminate|]. intros (t' & Ht' & Hp & _).
      injection Ht' as <-. rewrite Ha, He in Hp. discriminate. }
    destruct (email_mismatch t q) eqn:Hm.
    { cbn. eexists. split; [reflexivity|]. split; [tauto|].
      split; [discriminate|]. intros (t' & Ht' & Hp & _).
      injection Ht' as <-. rewrite Ha, He, Hm in Hp. discriminate. }
    destruct (int_ok (accessCount t + 1)) eqn:Hok; cbn [negb].
    + destruct (Hlinked tid t Ht) as [trip ->]. cbn.
      eexists. split; [reflexivity|]. split; [tauto|].
      split; [discriminate|]. intros (t' & Ht' & _ & Hfull).
      injection Ht' as <-. congruence.
    + cbn. eexists. split; [reflexivity|]. split; [tauto|].
      split; [|reflexivity]. intros _. exists t.
      rewrite Ha, He, Hm. repeat split. exact Hok.
  - destruct (list_by_email_cases protocol host e w)
      as [(L & -> & _)|(_ & t & Hin & Hnone)]; [reflexivity|].
    apply found_rows_elem in Hin as ((k & Hk) & _).
    destruct (Hlinked k t Hk) as [trip Htrip]. congruence.
  - rewrite delete_tracker_eq.
    destruct (trackers w !! tid) as [t|]; [|cbn; eauto 6].
    destruct (email_mismatch t q); cbn; eauto 6.
  - rewrite get_stats_eq.
    destruct (trackers w !! tid) as [t|]; [|cbn; eauto 6].
    destruct (email_mismatch t q); cbn; eauto 6.
  - rewrite validate_tracker_eq.
    destruct (trackers w !! tid) as [t|] eqn:Ht; [|reflexivity].
    destruct (isActive t); cbn [negb]; [|reflexivity]. cbv zeta.
    destruct (expired_in env w t); [reflexivity|].
    destruct (Hlinked tid t Ht) as [trip ->]. reflexivity.
Qed.

Lemma demo_w_full_linked : linked Demo.w_full.
Proof.
  intros k t Hk. unfold Demo.w_full in Hk. cbn [trackers] in Hk.
  apply lookup_singleton_Some in Hk as [<- <-]. now exists Demo.T1.
Qed.

Lemma server_error_only_at_full_counter_witness :
  answer_status Demo.env (Read "TRK3" Js.Undefined)
    (serve_all Demo.env [Validate "TRK3"] Demo.w_full) = Some 500.
Proof.
  destruct (server_error_only_at_full_counter Demo.env [Validate "TRK3"]
              Demo.w_full (Read "TRK3" Js.Undefined) demo_w_full_linked)
    as (s & Hs & _ & Hfull).
  rewrite Hs. f_equal. apply Hfull. exists Demo.row_full. repeat split.
Defined.

Lemma Forall2_elem_r {A B : Type} (P : A -> B -> Prop) (l : list A)
    (k : list B) (x : B) :
  Forall2 P l k -> x ∈ k -> exists y, y ∈ l /\ P y x.
Proof.
  intros H. induction H as [|a b l k Hab _ IH]; intros Hx.
  - now apply elem_of_nil in Hx.
  - apply elem_of_cons in Hx as [->|Hx].
    + exists a. split; [apply list_elem_of_here | exact Hab].
    + destruct (IH Hx) as (y & Hy & HP). exists y.
      split; [now apply list_elem_of_further | exact HP].
Qed.

(** X8.  Deactivation is final.  After a granted deactivation (stored
    rows sitting under their own ids) and any further requests to the
    tracker routes, every read of the tracker is refused as Inactive
    whatever the email, the validate probe names it inactive, no listing
    shows it, and its statistics report it inactive. *)
Theorem deactivation_is_final (env : Env) (w : World) (tid : string)
    (q : Js.value) (t : Tracker) (rs : list Request) :
  keyed w ->
  trackers w !! tid = Some t ->
  email_mismatch t q = false ->
  let w1 := serve_all env rs (snd (delete_tracker env tid q w)) in
  fst (delete_tracker env tid q w)
  = Ok (mkResponse 200 (MessageBody "Tracker deactivated successfully"))
  /\ (forall q', fst (get_tracker env tid q' w1) = Ok (deny Inactive))
  /\ fst (validate_tracker env tid w1)
     = Ok (mkResponse 200 (InvalidBody "Tracker is inactive"))
  /\ (forall protocol host e L n,
        fst (list_by_email protocol host e w1) = Ok (Success (L, n)) ->
        forall x, x ∈ L -> l_trackerId x <> tid)
  /\ (forall q' s,
        fst (get_stats env tid q' w1) = Ok (Success s) -> s_isActive s = false).
Proof.
  intros Hkeyed Ht Hm. cbv zeta.
  assert (Hoff : exists t0, trackers (snd (delete_tracker env tid q w)) !! tid
                            = Some t0 /\ isActive t0 = false).
  { rewrite delete_tracker_eq, Ht, Hm. cbn [snd set_trackers trackers].
    rewrite lookup_insert_eq. eexists. split; reflexivity. }
  destruct Hoff as (t0 & Ht0 & Hoff0).
  pose proof (serve_all_advances env rs (snd (delete_tracker env tid q w)))
    as Hadv.
  remember (serve_all env rs (snd (delete_tracker env tid q w))) as w1 eqn:Hw1.
  clear Hw1.
  assert (Hkeyed1 : keyed w1).
  { apply advances_keyed with (snd (delete_tracker env tid q w)); [exact Hadv|].
    apply advances_keyed with w; [|exact Hkeyed].
    apply (serve_advances env (Deactivate tid q) w). }
  destruct Hadv as (_ & Hold & _).
  destruct (Hold tid t0 Ht0) as (t1 & Ht1 & He).
  assert (Hoff1 : isActive t1 = false) by (apply He; exact Hoff0).
  clear Hold.
  split; [now rewrite delete_tracker_eq, Ht, Hm|].
  split; [intros q'; now rewrite get_tracker_eq, Ht1, Hoff1|].
  split; [now rewrite validate_tracker_eq, Ht1, Hoff1|].
  split.
  - intros protocol host e L n Hlist x Hx.
    destruct (list_by_email_cases protocol host e w1)
      as [(L' & Heq & HL)|(Heq & _)]; rewrite Heq in Hlist;
      cbn [fst] in Hlist; [|discriminate].
    injection Hlist as <- _.
    destruct (Forall2_elem_r _ _ _ x HL Hx) as (t' & Hin & trip & _ & ->).
    cbn [l_trackerId].
    apply found_rows_elem in Hin as ((k & Hk) & _ & Hon).
    rewrite (Hkeyed1 k t' Hk). intros ->. congruence.
  - intros q' s Hs. rewrite get_stats_eq, Ht1 in Hs.
    destruct (email_mismatch t1 q'); cbn [fst] in Hs; [discriminate|].
    injection Hs as <-. exact Hoff1.
Qed.

Lemma deactivation_is_final_witness :
  fst (get_tracker Demo.env "TRK1" (Js.Str "a@x.com")
         (serve_all Demo.env
            [Update "TRK1" (mkUpdateBody Js.Undefined (Js.Str "123")
                              Js.Undefined) Js.Undefined]
            (snd (delete_tracker Demo.env "TRK1" Js.Undefined Demo.w0))))
  = Ok (deny Inactive).
Proof.
  destruct (deactivation_is_final Demo.env Demo.w0 "TRK1" Js.Undefined
              (Demo.row "TRK1")
              [Update "TRK1" (mkUpdateBody Js.Undefined (Js.Str "123")
                                Js.Undefined) Js.Undefined]
              demo_w0_keyed eq_refl eq_refl) as (_ & Hread & _).
  apply Hread.
Defined.

(** ** Every request is answered *)

Lemma console_write_eq (l : Level) (msg : string) (w : World) :
  exists w', console_write l msg w = (Ok tt, w').
Proof. eexists. reflexivity. Qed.




(** X10.  The create route adds a tracker and sends mail exactly when
    it answers 201.  Then it has added exactly one row, under an
    identifier no tracker carried and equal to the row's [trackerId], for a
    trip that exists, active and with count 0, every other row being as
    before, and has made exactly one mail attempt, to that row's address;
    with any other answer the tracker table and the mail record are as
    before. *)
Theorem create_adds_one_row_and_mail (env : Env) (b : CreateBody) (w : World) :
  (exists resp,
      fst (post_tracker env b w) = Ok resp
      /\ status resp <> 201
      /\ trackers (snd (post_tracker env b w)) = trackers w
      /\ sent (snd (post_tracker env b w)) = sent w)
  \/ (exists id row tid trip,
         fst (post_tracker env b w)
         = Ok (mkResponse 201
                 (CreatedBody row (tripName trip) (destination trip)))
         /\ trips w !! tid = Some trip
         /\ trackers w !! id = None
         /\ trackers (snd (post_tracker env b w)) !! id = Some row
         /\ (forall k, k <> id ->
               trackers (snd (post_tracker env b w)) !! k = trackers w !! k)
         /\ trackerId row = id /\ tripId row = tid
         /\ isActive row = true /\ accessCount row = 0
         /\ sent (snd (post_tracker env b w))
            = (sent w ++ [mkMail (email row) id])%list).
Proof.
  destruct (post_tracker_store env b w) as [_ [Hno|Hyes]]; [now left|].
  right. destruct Hyes as (id & row & tid & trip & Hok & Htrip & Hnone & Hrows
                           & Hrest).
  exists id, row, tid, trip. split; [exact Hok|]. split; [exact Htrip|].
  split; [exact Hnone|].
  split; [rewrite Hrows; apply lookup_insert_eq|].
  split; [intros k Hne; rewrite Hrows; now apply lookup_insert_ne|].
  exact Hrest.
Qed.

(** ** From creation to the first read *)

(** A create request that goes through, with the row it stores. *)
Lemma post_tracker_created (env : Env) (b : CreateBody) (w : World)
    (tid e id : string) (trip : Trip) :
  createTrackerValidation env b = true ->
  c_tripId b = Js.Str tid ->
  c_email b = Js.Str e ->
  trips w !! tid = Some trip ->
  fst (ensureUniqueTrackerId env 10 w) = Ok id ->
  given_date_ok env (c_startDate b) = true ->
  given_date_ok env (c_saveDate b) = true ->
  given_date_ok env (c_expiresAt b) = true ->
  exists row trip',
    fst (post_tracker env b w)
    = Ok (mkResponse 201 (CreatedBody row (tripName trip) (destination trip)))
    /\ trackers (snd (post_tracker env b w)) !! id = Some row
    /\ trips (snd (post_tracker env b w)) !! tid = Some trip'
    /\ tripId row = tid
    /\ email row = normalizeEmail env e
    /\ isActive row = true
    /\ accessCount row = 0
    /\ expiresAt row = expiresAt_of env (c_expiresAt b) ≫= date_column.
Proof.
  intros Hv Ht He Htrip Hid Hstart Hsave Hexp. unfold post_tracker.
  destruct (ensureUnique_ok env 10 w id Hid) as (k & Hrun & Hfree).
  rewrite (post_tracker_with_eq env _ b w _ tid e id trip Hv Ht He Htrip Hrun).
  destruct (saveDate_ok env (c_saveDate b) (advance (S k) (S k) w))
    as (sd & w2 & -> & Hsd & Htr2 & Hrows2 & _ & _ & _).
  destruct (update_startDate_ok env tid (c_startDate b) w2 trip)
    as (trip' & w3 & -> & Htrip3 & Hrows3 & _ & _ & _ & _);
    [now rewrite Htr2 | exact Hstart |].
  destruct (tripTracker_create_cases env
              (mkTrackerData id tid (normalizeEmail env e)
                 (Js.or_null (c_travelerName b)) (Js.or_null (c_phone b))
                 sd (expiresAt_of env (c_expiresAt b))) w3)
    as [(row & w4 & Hc & Hrows4 & Htr4 & _ & _ & Htid4 & Hmail4 & Hact4
         & Hcnt4 & Hexp4)|Hc].
  { cbn. now rewrite Hrows3, Hrows2. }
  2:{ destruct (tripTracker_create_ok env
                  (mkTrackerData id tid (normalizeEmail env e)
                     (Js.or_null (c_travelerName b)) (Js.or_null (c_phone b))
                     sd (expiresAt_of env (c_expiresAt b))) w3)
        as (row' & w' & Hok & _).
      - cbn. now rewrite Hsd, expiresAt_ok, Hsave, Hexp.
      - cbn. now rewrite Hrows3, Hrows2.
      - rewrite Hc in Hok. discriminate. }
  rewrite Hc. cbn [d_trackerId d_tripId d_email d_expiresAt] in *.
  rewrite Htr4, Htrip3.
  destruct (send_confirmation_real env (normalizeEmail env e) id trip' w4)
    as (w5 & -> & Htr5 & Hrows5 & _).
  cbn [fst snd]. exists row, trip'. split; [reflexivity|].
  split; [rewrite Hrows5, Hrows4; apply lookup_insert_eq|].
  split; [now rewrite Htr5, Htr4|].
  repeat split; assumption.
Qed.

(** X11.  A tracker created without expiry reads back at once, and the
    address that opens it is the normalized one.  Right after a create
    request that went through, a read of the new identifier without an
    email is granted and reports the count 1; with a non-empty email it is
    granted exactly when the email equals the normalized form of the
    address given at creation, and refused with EmailMismatch otherwise,
    so an address that normalization changes is refused as it was typed. *)
Theorem created_tracker_reads_back (env : Env) (b : CreateBody) (w : World)
    (tid e id : string) (trip : Trip) :
  createTrackerValidation env b = true ->
  c_tripId b = Js.Str tid ->
  c_email b = Js.Str e ->
  trips w !! tid = Some trip ->
  fst (ensureUniqueTrackerId env 10 w) = Ok id ->
  given_date_ok env (c_startDate b) = true ->
  given_date_ok env (c_saveDate b) = true ->
  Js.truthy (c_expiresAt b) = false ->
  exists row trip',
    trackers (snd (post_tracker env b w)) !! id = Some row
    /\ accessCount row = 0
    /\ fst (get_tracker env id Js.Undefined (snd (post_tracker env b w)))
       = Ok (mkResponse 200 (TripBody trip' row 1))
    /\ (forall s, s <> "" ->
          (s = normalizeEmail env e ->
           fst (get_tracker env id (Js.Str s) (snd (post_tracker env b w)))
           = Ok (mkResponse 200 (TripBody trip' row 1)))
          /\ (s <> normalizeEmail env e ->
              fst (get_tracker env id (Js.Str s) (snd (post_tracker env b w)))
              = Ok (deny EmailMismatch)))
    /\ (e <> "" -> e <> normalizeEmail env e ->
        fst (get_tracker env id (Js.Str e) (snd (post_tracker env b w)))
        = Ok (deny EmailMismatch)).
Proof.
  intros Hv Ht He Htrip Hid Hstart Hsave Hnoexp.
  destruct (post_tracker_created env b w tid e id trip Hv Ht He Htrip Hid
              Hstart Hsave)
    as (row & trip' & _ & Hrow & Htrip' & Htid & Hmail & Hact & Hcnt & Hexp).
  { unfold given_date_ok. now rewrite Hnoexp. }
  unfold expiresAt_of in Hexp. rewrite Hnoexp in Hexp. cbn in Hexp.
  assert (Hread : forall q,
             email_mismatch row q = false ->
             fst (get_tracker env id q (snd (post_tracker env b w)))
             = Ok (mkResponse 200 (TripBody trip' row 1))).
  { intros q Hq. rewrite get_tracker_eq, Hrow, Hact. cbn [negb]. cbv zeta.
    unfold expired_in. rewrite Hexp, Hq, Htid, Htrip', Hcnt. reflexivity. }
  assert (Hdeny : forall s, s <> "" -> s <> normalizeEmail env e ->
             fst (get_tracker env id (Js.Str s) (snd (post_tracker env b w)))
             = Ok (deny EmailMismatch)).
  { intros s Hs Hne. rewrite get_tracker_eq, Hrow, Hact. cbn [negb]. cbv zeta.
    unfold expired_in. rewrite Hexp.
    rewrite (mismatch_Str row s Hs); [reflexivity|]. now rewrite Hmail. }
  exists row, trip'. split; [exact Hrow|]. split; [exact Hcnt|].
  split; [apply Hread; reflexivity|]. split.
  - intros s Hs. split; [|now apply Hdeny].
    intros ->. apply Hread. unfold email_mismatch. rewrite <- Hmail.
    cbn. rewrite String.eqb_refl. now rewrite andb_false_r.
  - intros Hne1 Hne2. now apply Hdeny.
Qed.

Lemma created_tracker_reads_back_witness :
  exists row trip',
    fst (get_tracker Demo.env "TRKABC1233456" Js.Undefined
           (snd (post_tracker Demo.env (Demo.body Js.Undefined Js.Undefined)
                   Demo.w0)))
    = Ok (mkResponse 200 (TripBody trip' row 1)).
Proof.
  destruct (created_tracker_reads_back Demo.env
              (Demo.body Js.Undefined Js.Undefined) Demo.w0
              "T1" "a@x.com" "TRKABC1233456" Demo.T1)
    as (row & trip' & _ & _ & Hread & _).
  - reflexivity.
  - reflexivity.
  - reflexivity.
  - reflexivity.
  - reflexivity.
  - reflexivity.
  - reflexivity.
  - reflexivity.
  - exists row, trip'. exact Hread.
Defined.

(** ** The ticket routes *)

Lemma truthy_is_Str (v : Js.value) :
  Js.truthy v = true -> exists s, v = Js.Str s /\ s <> "".
Proof.
  destruct v as [| |s]; cbn; try discriminate.
  intros H. exists s. split; [reflexivity|]. intros ->. discriminate.
Qed.

(** A search with a [ticketId]. *)
Lemma search_by_id (env : Env) (tickets : gmap string Ticket) (b : SearchBody)
    (w : World) (tid : string) :
  searchValidation env b = true ->
  q_ticketId b = Js.Str tid -> tid <> "" ->
  search_tickets env tickets b w =
    match tickets !! tid with
    | Some ticket =>
        (Ok (Success (TicketFound (selected ticket) (user_email ticket))), w)
    | None =>
        match trackers w !! tid with
        | Some t =>
            match trips w !! tripId t with
            | Some trip => (Ok (Success (TripFound trip (found_of t trip))), w)
            | None =>
                (Ok (Failure
                       (mkResponse 500
                          (ErrorBody "Search failed"
                             "An error occurred while searching for tickets"))),
                 snd (console_write ERROR "Search tickets error:" w))
            end
        | None =>
            (Ok (Failure
                   (mkResponse 404
                      (ErrorBody "Not found"
                         "No ticket or trip tracker found with this ID"))), w)
        end
    end.
Proof.
  intros Hv Hid Hne. unfold search_tickets, try_catch.
  rewrite Hv, Hid, (truthy_Str tid Hne). cbn [negb andb string_arg].
  rewrite bind_eq. cbn [ret].
  destruct (tickets !! tid) as [ticket|]; [reflexivity|].
  rewrite bind_eq. unfold tripTracker_findUnique_with_trip.
  destruct (trackers w !! tid) as [t|]; cbn [mbind option_bind];
    [|reflexivity].
  destruct (trips w !! tripId t); reflexivity.
Qed.

(** X12.  The ticket search reaches a tracker past the access guard.
    Searching for an identifier that no ticket carries but a tracker does
    answers 200 with the trip and seven columns of the tracker row
    ([trackerId], [email], [travelerName], [phone], [accessCount],
    [createdAt], [saveDate]), whatever the tracker's [isActive],
    [expiresAt] and email, and leaves the world exactly as it was, so
    nothing is counted; for the same tracker, when it is inactive, every
    read is refused. *)
Theorem search_bypasses_guard (env : Env) (tickets : gmap string Ticket)
    (b : SearchBody) (w : World) (tid : string) (t : Tracker) (trip : Trip) :
  searchValidation env b = true ->
  q_ticketId b = Js.Str tid -> tid <> "" ->
  tickets !! tid = None ->
  trackers w !! tid = Some t ->
  trips w !! tripId t = Some trip ->
  search_tickets env tickets b w
  = (Ok (Success
           (TripFound trip
              (mkFound (trackerId t) (email t) (travelerName t) (phone t)
                       (accessCount t) (createdAt t) (saveDate t)
                       (startDate trip)))),
     w)
  /\ (isActive t = false ->
      forall q, fst (get_tracker env tid q w) = Ok (deny Inactive)).
Proof.
  intros Hv Hid Hne Hnone Ht Htrip. split.
  - rewrite (search_by_id env tickets b w tid Hv Hid Hne), Hnone, Ht, Htrip.
    reflexivity.
  - intros Hoff q. now rewrite get_tracker_eq, Ht, Hoff.
Qed.

Lemma search_bypasses_guard_witness :
  search_tickets Demo.env ∅
    (mkSearchBody (Js.Str "TRK1") Js.Undefined Js.Undefined)
    (snd (delete_tracker Demo.env "TRK1" Js.Undefined Demo.w0))
  = (Ok (Success
           (TripFound Demo.T1
              (mkFound "TRK1" "a@x.com" (Some "Ann") (Some "0917") 4
                       1700000000000 (Some 1700000000000)
                       (Some 1700000000000)))),
     snd (delete_tracker Demo.env "TRK1" Js.Undefined Demo.w0)).
Proof.
  apply (search_bypasses_guard Demo.env ∅
           (mkSearchBody (Js.Str "TRK1") Js.Undefined Js.Undefined)
           (snd (delete_tracker Demo.env "TRK1" Js.Undefined Demo.w0))
           "TRK1"
           (apply_update deactivate_update 1730525123456 (Demo.row "TRK1"))
           Demo.T1).
  - reflexivity.
  - reflexivity.
  - discriminate.
  - reflexivity.
  - reflexivity.
  - reflexivity.
Defined.

Lemma with_trip_eq (t : Tracker) (o : option Trip) (w : World) :
  with_trip (t, o) w =
    match o with
    | Some trip => (Ok (found_of t trip, trip), w)
    | None => (Throw TypeError, w)
    end.
Proof. destruct o; reflexivity. Qed.

Lemma map_M_with_trip (w : World) (rows : list Tracker) :
  (exists L,
      map_M with_trip ((fun t => (t, trips w !! tripId t)) <$> rows) w
      = (Ok L, w)
      /\ Forall2 (paired_as w) rows L)
  \/ (map_M with_trip ((fun t => (t, trips w !! tripId t)) <$> rows) w
      = (Throw TypeError, w)
      /\ exists t, t ∈ rows /\ trips w !! tripId t = None).
Proof.
  induction rows as [|t rows IH].
  - left. exists []. split; [reflexivity | constructor].
  - cbn [fmap list_fmap]. rewrite map_M_cons, with_trip_eq.
    destruct (trips w !! tripId t) as [trip|] eqn:Htrip.
    + destruct IH as [(L & -> & HL)|(-> & t' & Hin & Hnone)].
      * left. eexists. split; [reflexivity|].
        constructor; [|exact HL]. split; [reflexivity | exact Htrip].
      * right. split; [reflexivity|]. exists t'. split; [|exact Hnone].
        now apply list_elem_of_further.
    + right. split; [reflexivity|]. exists t. split; [|exact Htrip].
      apply list_elem_of_here.
Qed.

(** A search with an [email] and no [ticketId]. *)
Lemma search_by_email (env : Env) (tickets : gmap string Ticket)
    (b : SearchBody) (w : World) (e : string) :
  searchValidation env b = true ->
  Js.truthy (q_ticketId b) = false ->
  q_email b = Js.Str e -> e <> "" ->
  (exists tk L,
      search_tickets env tickets b w = (Ok (Success (EmailSearch tk L)), w)
      /\ Forall2 (paired_as w) (found_rows (fun t => email t = e) w) L
      /\ (forall x, x ∈ tk <->
                    exists tkt, (exists k, tickets !! k = Some tkt)
                                /\ user_email tkt = Some e
                                /\ x = selected tkt))
  \/ (search_tickets env tickets b w
      = (Ok (Failure
               (mkResponse 500
                  (ErrorBody "Search failed"
                     "An error occurred while searching for tickets"))),
         snd (console_write ERROR "Search tickets error:" w))
      /\ exists t, t ∈ found_rows (fun t => email t = e) w
                   /\ trips w !! tripId t = None).
Proof.
  intros Hv Hnoid He Hne. unfold search_tickets, try_catch.
  rewrite Hv, Hnoid, He, (truthy_Str e Hne). cbn [negb andb string_arg].
  rewrite bind_eq. cbn [ret]. cbv zeta.
  rewrite bind_eq, tripTracker_findMany_eq. cbv beta iota.
  rewrite bind_eq.
  destruct (map_M_with_trip w (found_rows (fun t => email t = e) w))
    as [(L & -> & HL)|(-> & Hmiss)].
  - left. eexists _, L. split; [reflexivity|]. split; [exact HL|].
    intros x. rewrite list_elem_of_fmap. split.
    + intros (tkt & -> & Hin).
      rewrite merge_sort_Permutation, list_elem_of_filter in Hin.
      destruct Hin as (HP & Hin).
      apply list_elem_of_fmap in Hin as ([k x'] & -> & Hin).
      apply elem_of_map_to_list in Hin.
      exists x'. split; [now exists k|]. split; [exact HP | reflexivity].
    + intros (tkt & (k & Hk) & HP & ->). exists tkt. split; [reflexivity|].
      rewrite merge_sort_Permutation, list_elem_of_filter.
      split; [exact HP|]. apply list_elem_of_fmap.
      exists (k, tkt). split; [reflexivity|]. now apply elem_of_map_to_list.
  - right. split; [reflexivity | exact Hmiss].
Qed.

(** X13.  A search by email shows every tracker of the address, active
    or not, newest first, each paired with its trip, and every ticket whose
    user has the address; the list route for the same address shows exactly
    the active ones among those trackers.  (Store whose trackers all have
    their trip; the search changes nothing.) *)
Theorem search_by_email_shows_all (env : Env) (tickets : gmap string Ticket)
    (b : SearchBody) (w : World) (e : string) :
  linked w ->
  searchValidation env b = true ->
  Js.truthy (q_ticketId b) = false ->
  q_email b = Js.Str e -> e <> "" ->
  exists tk L rows,
    search_tickets env tickets b w = (Ok (Success (EmailSearch tk L)), w)
    /\ Forall2 (paired_as w) rows L
    /\ (forall t, t ∈ rows <->
                  (exists k, trackers w !! k = Some t) /\ email t = e)
    /\ StronglySorted newer rows
    /\ (forall x, x ∈ tk <->
                  exists tkt, (exists k, tickets !! k = Some tkt)
                              /\ user_email tkt = Some e
                              /\ x = selected tkt)
    /\ (forall protocol host,
          exists rows' L',
            list_by_email protocol host e w
            = (Ok (Success (L', length rows')), w)
            /\ Forall2 (listed_as protocol host w) rows' L'
            /\ (forall t, t ∈ rows' <-> t ∈ rows /\ isActive t = true)).
Proof.
  intros Hlinked Hv Hnoid He Hne.
  assert (Hall : forall t, (exists k, trackers w !! k = Some t) ->
                           is_Some (trips w !! tripId t)).
  { intros t (k & Hk). now apply Hlinked with k. }
  destruct (search_by_email env tickets b w e Hv Hnoid He Hne)
    as [(tk & L & Heq & HL & Htk)|(_ & t & Hin & Hnone)].
  2:{ apply found_rows_elem in Hin as (Hk & _).
      destruct (Hall t Hk) as [trip Htrip]. congruence. }
  exists tk, L, (found_rows (fun t => email t = e) w).
  split; [exact Heq|]. split; [exact HL|].
  split; [intros t; apply found_rows_elem|].
  split; [apply found_rows_sorted|]. split; [exact Htk|].
  intros protocol host.
  exists (found_rows (fun t => email t = e /\ isActive t = true) w).
  destruct (list_by_email_cases protocol host e w)
    as [(L' & Hl & HL')|(_ & t & Hin & Hnone)].
  2:{ apply found_rows_elem in Hin as (Hk & _).
      destruct (Hall t Hk) as [trip Htrip]. congruence. }
  exists L'. rewrite (Forall2_length _ _ _ HL'). split; [exact Hl|].
  split; [exact HL'|].
  intros t. rewrite !found_rows_elem. tauto.
Qed.

Lemma search_by_email_shows_all_witness :
  exists tk L rows,
    search_tickets Demo.env ∅
      (mkSearchBody Js.Undefined (Js.Str "a@x.com") Js.Undefined) Demo.w0
    = (Ok (Success (EmailSearch tk L)), Demo.w0)
    /\ Forall2 (paired_as Demo.w0) rows L.
Proof.
  destruct (search_by_email_shows_all Demo.env ∅
              (mkSearchBody Js.Undefined (Js.Str "a@x.com") Js.Undefined)
              Demo.w0 "a@x.com" demo_w0_linked)
    as (tk & L & rows & Heq & HL & _).
  - reflexivity.
  - reflexivity.
  - reflexivity.
  - discriminate.
  - exists tk, L, rows. split; [exact Heq | exact HL].
Defined.

(** X14.  The ticket search only reads.  Whatever the request, it leaves
    trips, trackers, the id sequence and the mail record as they were, so
    it never counts an access; it takes no clock reading and no random
    draw; and unless it answers 500 it leaves the whole world, console
    included, as it was.  It agrees with the validation route on what a
    ticket is: for a non-empty identifier, the validation answers valid
    exactly when a search for the identifier answers with a ticket, and
    both show the same columns of it. *)
Theorem ticket_search_only_reads (env : Env) (tickets : gmap string Ticket)
    (w : World) :
  (forall b,
      same_store w (snd (search_tickets env tickets b w))
      /\ tick (snd (search_tickets env tickets b w)) = tick w
      /\ draws (snd (search_tickets env tickets b w)) = draws w
      /\ (status_of_answer (fst (search_tickets env tickets b w)) <> Some 500 ->
          snd (search_tickets env tickets b w) = w))
  /\ (forall b tid v,
        searchValidation env b = true ->
        q_ticketId b = Js.Str tid -> tid <> "" ->
        fst (validate_ticket tickets tid w) = Ok (Success (Some v))
        <-> exists user,
            fst (search_tickets env tickets b w)
            = Ok (Success (TicketFound v user))).
Proof.
  split.
  - intros b.
    assert (Hsame : same_store w w /\ tick w = tick w /\ draws w = draws w
                    /\ (forall o : option Z, o <> Some 500 -> w = w))
      by (repeat split).
    assert (Hlog : forall l msg,
               same_store w (snd (console_write l msg w))
               /\ tick (snd (console_write l msg w)) = tick w
               /\ draws (snd (console_write l msg w)) = draws w
               /\ (Some 500 <> Some 500 -> snd (console_write l msg w) = w))
      by (intros; repeat split; congruence).
    assert (Hkeep : forall a : Result (Answer SearchResult),
               same_store w w /\ tick w = tick w /\ draws w = draws w
               /\ (status_of_answer a <> Some 500 -> w = w))
      by (intros; repeat split).
    destruct (searchValidation env b) eqn:Hv.
    2:{ unfold search_tickets, try_catch. rewrite Hv. apply Hkeep. }
    destruct (Js.truthy (q_ticketId b)) eqn:Hid.
    + destruct (truthy_is_Str _ Hid) as (tid & Htid & Hne).
      rewrite (search_by_id env tickets b w tid Hv Htid Hne).
      destruct (tickets !! tid); [apply Hkeep|].
      destruct (trackers w !! tid) as [t|]; [|apply Hkeep].
      destruct (trips w !! tripId t); [apply Hkeep | apply Hlog].
    + destruct (Js.truthy (q_email b)) eqn:Hmail.
      * destruct (truthy_is_Str _ Hmail) as (e & He & Hne).
        destruct (search_by_email env tickets b w e Hv Hid He Hne)
          as [(tk & L & -> & _)|(-> & _)]; [apply Hkeep | apply Hlog].
      * unfold search_tickets, try_catch. rewrite Hv, Hid, Hmail. apply Hkeep.
  - intros b tid v Hv Hid Hne.
    rewrite (search_by_id env tickets b w tid Hv Hid Hne).
    unfold validate_ticket, try_catch, ret. cbn [fst].
    destruct (tickets !! tid) as [ticket|]; cbn [fmap option_fmap option_map].
    + split.
      * intros H. injection H as <-. now exists (user_email ticket).
      * intros (user & H). now injection H as -> _.
    + split; [discriminate|]. intros (user & H).
      destruct (trackers w !! tid) as [t|]; [|discriminate].
      destruct (trips w !! tripId t); discriminate.
Qed.

Lemma ticket_search_only_reads_witness :
  exists user,
    fst (search_tickets Demo.env
           {[ "TK1" := mkTicket 7 "TK1" FLIGHT false None 1700000000000
                         (Some "a@x.com") ]}
           (mkSearchBody (Js.Str "TK1") Js.Undefined Js.Undefined) Demo.w0)
    = Ok (Success
            (TicketFound (mkTicketView 7 "TK1" FLIGHT false None 1700000000000)
               user)).
Proof.
  apply (proj1 (proj2 (ticket_search_only_reads Demo.env
                         {[ "TK1" := mkTicket 7 "TK1" FLIGHT false None
                                       1700000000000 (Some "a@x.com") ]}
                         Demo.w0)
                  (mkSearchBody (Js.Str "TK1") Js.Undefined Js.Undefined)
                  "TK1"
                  (mkTicketView 7 "TK1" FLIGHT false None 1700000000000)
                  eq_refl eq_refl ltac:(discriminate))).
  reflexivity.
Defined.

(** ** Routing *)

(** X15.  The router picks the first registered route that matches, and
    the list route is registered before the statistics and validate routes:
    every two-segment GET path whose first segment is [email], in any
    letter case, goes to the list route, [/email/stats] and
    [/email/validate] included.  No generated identifier is caught by
    this: for every token the generator returns, the read, update,
    deactivate, statistics and validate paths of the token reach their own
    handlers with the token as parameter. *)
Theorem generated_ids_are_routable (env : Env) (w : World) (tok : string) :
  fst (generateTrackerId env w) = Ok tok ->
  route_of GET [tok] = Some (HRead, [tok])
  /\ route_of PUT [tok] = Some (HUpdate, [tok])
  /\ route_of DELETE [tok] = Some (HDeactivate, [tok])
  /\ route_of GET [tok; "stats"] = Some (HStats, [tok])
  /\ route_of GET [tok; "validate"] = Some (HValidate, [tok])
  /\ (forall a x, toLowerCase a = "email" ->
        route_of GET [a; x] = Some (HListByEmail, [x])).
Proof.
  rewrite generateTrackerId_eq. cbn [fst]. intros Htok.
  injection Htok as <-. unfold token_of.
  set (rest := _ +:+ _).
  repeat split; try reflexivity.
  intros a x Ha. unfold route_of, tracker_routes.
  cbn -[toLowerCase]. rewrite Ha. reflexivity.
Qed.

Lemma generated_ids_are_routable_witness :
  route_of GET ["TRKABC1233456"; "stats"] = Some (HStats, ["TRKABC1233456"])
  /\ route_of GET ["Email"; "stats"] = Some (HListByEmail, ["stats"]).
Proof.
  destruct (generated_ids_are_routable Demo.env Demo.w0 "TRKABC1233456")
    as (_ & _ & _ & Hstats & _ & Hlist).
  - reflexivity.
  - split; [exact Hstats|]. apply Hlist. reflexivity.
Defined.

(** ** The global error handler *)

(** X16.  What the global error handler lets out.  An error whose
    [code] is [P2002] is answered 400 "Duplicate entry" whatever its name,
    status and message.  And outside development mode the text of an error
    reaches the client only for an error named [ValidationError]: for any
    other error the answer is the same whatever the message is. *)
Theorem error_handler_hides_message (NODE_ENV : option string)
    (error : ErrorObj) (w : World) :
  (is_str (e_code error) "P2002" = true ->
   fst (globalErrorHandler NODE_ENV error w)
   = Ok (mkResponse 400 (ErrorBody "Duplicate entry"
                           "A record with this information already exists")))
  /\ (is_str NODE_ENV "development" = false ->
      is_str (e_name error) "ValidationError" = false ->
      forall m,
        globalErrorHandler NODE_ENV
          (mkErrorObj (e_code error) (e_name error) (e_status error) m) w
        = globalErrorHandler NODE_ENV error w).
Proof.
  split.
  - intros Hcode. unfold globalErrorHandler. rewrite bind_eq. cbn [console_write].
    rewrite Hcode. reflexivity.
  - intros Hmode Hname m. unfold globalErrorHandler. rewrite !bind_eq.
    cbn [console_write e_code e_name e_status e_message].
    rewrite Hmode, Hname.
    destruct (is_str (e_code error) "P2002"); [reflexivity|].
    destruct (is_str (e_code error) "P2025"); [reflexivity|].
    destruct (is_str (e_name error) "JsonWebTokenError"); [reflexivity|].
    destruct (is_str (e_name error) "TokenExpiredError"); reflexivity.
Qed.

Lemma error_handler_hides_message_witness :
  fst (globalErrorHandler (Some "production")
         (mkErrorObj (Some "P2002") (Some "ValidationError") (Some 503)
            "Unique constraint failed on the fields: (`tracker_id`)")
         Demo.w0)
  = Ok (mkResponse 400 (ErrorBody "Duplicate entry"
                          "A record with this information already exists")).
Proof.
  apply (error_handler_hides_message (Some "production")
           (mkErrorObj (Some "P2002") (Some "ValidationError") (Some 503)
              "Unique constraint failed on the fields: (`tracker_id`)")
           Demo.w0).
  reflexivity.
Defined.

(** ** The dispatcher and the update route, once more *)

(** X17.  The notification dispatcher makes exactly one attempt and
    never throws: it hands one message, for the given recipient and tracker
    id, to the transport, leaves the tables alone, returns the transport's
    message id as a success or a failure result when the transport refuses,
    and ends the console with a LOG line in the first case and an ERROR
    line in the second. *)
Theorem dispatcher_tries_once (env : Env) (to id : string) (w : World) :
  exists res w',
    sendTripTrackerEmail env to id w = (Ok res, w')
    /\ sent w' = (sent w ++ [mkMail to id])%list
    /\ trips w' = trips w /\ trackers w' = trackers w
    /\ match smtp env (length (sent w)) with
       | Some messageId =>
           res = EmailSent messageId
           /\ last (console w')
              = Some (LOG, "Trip tracker email sent successfully:")
       | None =>
           res = EmailFailed
           /\ last (console w')
              = Some (ERROR, "Error sending trip tracker email:")
       end.
Proof.
  unfold sendTripTrackerEmail, try_catch, bind, createTransporter, sendMail.
  cbn. destruct (smtp env (length (sent w))); cbn;
    eexists _, _; (split; [reflexivity|]); cbn;
    repeat split; rewrite last_snoc; reflexivity.
Qed.

(** X18.  What an update means for the reads that follow.  After a
    granted update that sets [expiresAt] to a date, the stored expiry is
    that date; if the tracker is active, a read that follows the update
    directly and whose clock reading is later than the date is refused as
    Expired whatever the email; and if the tracker was inactive the update
    has not revived it: after the update and any further requests to the
    tracker routes, every read is still refused as Inactive. *)
Theorem update_then_read (env : Env) (w : World) (tid : string)
    (b : UpdateBody) (q : Js.value) (t : Tracker) (s : string) (ms : Z) :
  trackers w !! tid = Some t ->
  updateTrackerValidation env b = true ->
  email_mismatch t q = false ->
  p_expiresAt b = Js.Str s -> s <> "" -> parseDate env s = Some ms ->
  exists t',
    trackers (snd (put_tracker env tid b q w)) !! tid = Some t'
    /\ expiresAt t' = Some ms
    /\ (isActive t = true ->
        ms < clock env (tick (snd (put_tracker env tid b q w))) ->
        forall q',
          fst (get_tracker env tid q' (snd (put_tracker env tid b q w)))
          = Ok (deny Expired))
    /\ (isActive t = false ->
        forall (rs : list Request) (q' : Js.value),
          fst (get_tracker env tid q'
                 (serve_all env rs (snd (put_tracker env tid b q w))))
          = Ok (deny Inactive)).
Proof.
  intros Ht Hv Hm Hs Hne Hparse.
  assert (Hd : given_date_ok env (p_expiresAt b) = true).
  { unfold given_date_ok, new_Date. rewrite Hs. cbn [toString].
    rewrite Hparse. apply orb_true_r. }
  destruct (update_row env tid b w t Ht Hd)
    as (t' & Hok & Hrows & _ & _ & _ & Hexp & _ & _ & _ & _ & _ & Hact & _).
  rewrite Hs in Hexp. cbv beta iota zeta in Hexp.
  rewrite (truthy_Str s Hne) in Hexp. cbn [toString] in Hexp.
  rewrite Hparse in Hexp.
  rewrite put_tracker_eq, Hv, Ht, Hm. cbn [negb].
  destruct (tripTracker_update env tid (updateData_of env b) w) as [[t1|e] w1];
    cbn [fst snd] in *; [|discriminate].
  injection Hok as ->. exists t'.
  assert (Hrow : trackers w1 !! tid = Some t').
  { rewrite Hrows. apply lookup_insert_eq. }
  split; [exact Hrow|]. split; [exact Hexp|]. split.
  - intros Hon Hpast q'. rewrite get_tracker_eq, Hrow, Hact, Hon. cbn [negb].
    cbv zeta. now rewrite (expired_in_past env w1 t' ms Hexp Hpast).
  - intros Hoff rs q'.
    destruct (serve_all_advances env rs w1) as (_ & Hold & _).
    destruct (Hold tid t' Hrow) as (t'' & Hrow'' & Hev).
    destruct Hev as (_ & _ & _ & _ & _ & _ & _ & Hstay).
    rewrite get_tracker_eq, Hrow'', Hstay by congruence. reflexivity.
Qed.

Lemma update_then_read_witness :
  exists t',
    trackers (snd (put_tracker Demo.env "TRK1"
                     (mkUpdateBody Js.Undefined Js.Undefined
                        (Js.Str "2030-01-01")) Js.Undefined Demo.w0))
      !! "TRK1" = Some t'
    /\ expiresAt t' = Some 1893456000000.
Proof.
  destruct (update_then_read Demo.env Demo.w0 "TRK1"
              (mkUpdateBody Js.Undefined Js.Undefined (Js.Str "2030-01-01"))
              Js.Undefined (Demo.row "TRK1") "2030-01-01" 1893456000000)
    as (t' & Hrow & Hexp & _).
  - reflexivity.
  - reflexivity.
  - reflexivity.
  - reflexivity.
  - discriminate.
  - reflexivity.
  - exists t'. split; [exact Hrow | exact Hexp].
Defined.
